(** * The wishlist server (server.js), embedded in Rocq

    The server keeps one JSON document, [data.json], holding
    [{ people: [...], items: [...] }].  Every request handler calls
    [loadData] (read the file, normalize legacy fields), works on the
    in-memory copy and, when it changed something, calls [saveData].
    The definitions follow the revision of the server that partitions
    people and items into families.

    Modelling choices, all taken from the source:
    - a JSON value is [json]; a JavaScript value that may be [undefined]
      is [option json] with [None] for [undefined];
    - a JavaScript object is a finite map from property names to JSON
      values ([gmap string json]); assigning [undefined] to a property is
      modelled by deleting it, which is what [JSON.stringify] persists;
    - numbers are integers ([Z]), as ids are.  JavaScript computes with
      integers exactly up to 2^53 in magnitude; [Number(s)] on a string
      reads an optionally signed decimal integer and is [NaN] ([None])
      otherwise.  Where a statement would not hold of the server
      outside this range, it carries the hypotheses [plain_number] and
      [ids_in_range] / [load_in_range], which keep it to the values the
      server reads and adds in just this way;
    - strings are Rocq strings holding the UTF-8 encoding of the text;
      [trim] removes the white space and line terminators of JavaScript,
      [toLowerCase] folds the letters A to Z, and the statements on
      letter case carry the hypothesis [ascii_text]; [String(v)] prints
      arrays and objects by the built-in [toString], and the statements
      on the text of a value that a request sends carry the hypothesis
      [plain_text];
    - the file on disk is [option store] ([None]: no file yet).  Writing it
      succeeds: the answer 500 that a handler gives when
      [fs.writeFileSync] throws is not part of the model;
    - [people] and [items] of the document are arrays of objects. *)

From stdpp Require Import gmap strings list fin_maps.
From Stdlib Require Import ZArith Ascii DecimalString.

Set Warnings "-register-all".
Open Scope Z_scope.

(** ** JavaScript values *)

Inductive json : Type :=
| JNull
| JBool (b : bool)
| JNum (n : Z)
| JStr (s : string)
| JArr (l : list json)
| JObj (o : gmap string json).

Abbreviation obj := (gmap string json).
Abbreviation jsval := (option json).

(** Truthiness: [undefined], [null], [false], [0] and [""] are falsy. *)
Definition truthy (v : jsval) : bool :=
  match v with
  | None | Some JNull => false
  | Some (JBool b) => b
  | Some (JNum n) => negb (n =? 0)
  | Some (JStr s) => negb (String.eqb s "")
  | Some (JArr _) | Some (JObj _) => true
  end.

(** [a || b] *)
Definition js_or (a b : jsval) : jsval := if truthy a then a else b.
Infix "|||" := js_or (at level 50, left associativity).

(** [a === b].  Arrays and objects compare by reference; the two sides of
    every [===] in the server come from different sources (file, request),
    so such a comparison is false. *)
Definition strict_eq (a b : jsval) : bool :=
  match a, b with
  | None, None => true
  | Some JNull, Some JNull => true
  | Some (JBool x), Some (JBool y) => Bool.eqb x y
  | Some (JNum x), Some (JNum y) => (x =? y)
  | Some (JStr x), Some (JStr y) => String.eqb x y
  | _, _ => false
  end.

(** ** Strings *)

(** The white space [trim] removes is WhiteSpace and LineTerminator of
    ECMAScript: U+0009 to U+000D and U+0020, which are single bytes, and
    U+00A0, U+1680, U+2000 to U+200A, U+2028, U+2029, U+202F, U+205F,
    U+3000 and U+FEFF, which are two or three bytes in UTF-8. *)
Definition js_space (c : ascii) : bool :=
  match c with
  | "009" | "010" | "011" | "012" | "013" | " " => true
  | _ => false
  end%char.

(** U+00A0 is C2 A0. *)
Definition js_space2 (c1 c2 : ascii) : bool :=
  ((N_of_ascii c1 =? 194) && (N_of_ascii c2 =? 160))%N.

(** U+1680 is E1 9A 80; U+2000 to U+200A are E2 80 80 to E2 80 8A;
    U+2028, U+2029 and U+202F are E2 80 A8, E2 80 A9 and E2 80 AF;
    U+205F is E2 81 9F; U+3000 is E3 80 80; U+FEFF is EF BB BF. *)
Definition js_space3 (c1 c2 c3 : ascii) : bool :=
  let '(a, b, c) := (N_of_ascii c1, N_of_ascii c2, N_of_ascii c3) in
  ((a =? 225) && (b =? 154) && (c =? 128)
   || (a =? 226) && (b =? 128)
      && ((128 <=? c) && (c <=? 138) || (c =? 168) || (c =? 169) || (c =? 175))
   || (a =? 226) && (b =? 129) && (c =? 159)
   || (a =? 227) && (b =? 128) && (c =? 128)
   || (a =? 239) && (b =? 187) && (c =? 191))%N.

Fixpoint trimStart (s : string) : string :=
  match s with
  | EmptyString => EmptyString
  | String c1 r1 =>
      if js_space c1 then trimStart r1
      else match r1 with
           | EmptyString => s
           | String c2 r2 =>
               if js_space2 c1 c2 then trimStart r2
               else match r2 with
                    | EmptyString => s
                    | String c3 r3 =>
                        if js_space3 c1 c2 c3 then trimStart r3 else s
                    end
           end
  end.

(** [s] is white space only. *)
Fixpoint all_space (s : string) : bool :=
  match s with
  | EmptyString => true
  | String c1 r1 =>
      if js_space c1 then all_space r1
      else match r1 with
           | EmptyString => false
           | String c2 r2 =>
               if js_space2 c1 c2 then all_space r2
               else match r2 with
                    | EmptyString => false
                    | String c3 r3 => js_space3 c1 c2 c3 && all_space r3
                    end
           end
  end.

(** The text up to the white space it ends in. *)
Fixpoint trimEnd (s : string) : string :=
  match s with
  | EmptyString => EmptyString
  | String c r => if all_space s then EmptyString else String c (trimEnd r)
  end.

Definition trim (s : string) : string := trimEnd (trimStart s).

Definition lower_char (c : ascii) : ascii :=
  let n := N_of_ascii c in
  if ((65 <=? n) && (n <=? 90))%N then ascii_of_N (n + 32) else c.

Fixpoint toLowerCase (s : string) : string :=
  match s with
  | String c r => String (lower_char c) (toLowerCase r)
  | EmptyString => EmptyString
  end.

(** [s.split(/[...]+/)] for a character class [sep]: a maximal run of
    separators is one split point. *)
Fixpoint split_go (sep : ascii -> bool) (s cur : string) (after_sep : bool)
  : list string :=
  match s with
  | EmptyString => [cur]
  | String c r =>
      if sep c
      then (if after_sep then split_go sep r cur true
            else cur :: split_go sep r EmptyString true)
      else split_go sep r (cur +:+ String c EmptyString) false
  end.

Definition split_on (sep : ascii -> bool) (s : string) : list string :=
  split_go sep s EmptyString false.

(** [/[\/|,]+/] and [/[\/|,;]+/] *)
Definition sep_load (c : ascii) : bool :=
  match c with "/" | "|" | "," => true | _ => false end%char.
Definition sep_csv (c : ascii) : bool :=
  match c with "/" | "|" | "," | ";" => true | _ => false end%char.

(** [.map(s => s.trim()).filter(Boolean)] on an array of strings *)
Definition trim_nonempty (l : list string) : list string :=
  List.filter (fun s => negb (String.eqb s "")) (List.map trim l).

Definition str_tags (l : list string) : json := JArr (List.map JStr l).

(** Decimal notation of an integer, as [String(n)] prints it. *)
Definition string_of_Z (n : Z) : string := NilZero.string_of_int (Z.to_int n).

Definition digit_of (c : ascii) : option Z :=
  let n := N_of_ascii c in
  if ((48 <=? n) && (n <=? 57))%N then Some (Z.of_N (n - 48)) else None.

Fixpoint digits_go (s : string) (acc : Z) : option Z :=
  match s with
  | EmptyString => Some acc
  | String c r =>
      match digit_of c with
      | Some d => digits_go r (10 * acc + d)
      | None => None
      end
  end.

Definition digits (s : string) : option Z :=
  match s with
  | EmptyString => None
  | _ => digits_go s 0
  end.

(** [Number(s)] for a string: white space is trimmed, the empty string is
    [0], an optionally signed run of digits is its value; anything else is
    [NaN].  JavaScript reads more forms (a fraction, an exponent, the
    prefixes 0x, 0o and 0b, Infinity) and rounds beyond 2^53; the
    predicate [plain_number_text] below holds of the strings that have
    none of this. *)
Definition number_of_string (s : string) : option Z :=
  match trim s with
  | EmptyString => Some 0
  | String "-" r => Z.opp <$> digits r
  | String "+" r => digits r
  | t => digits t
  end.

(** [String(v)] and [Array.prototype.join]: in a join, [null] elements
    print as the empty string. *)
Fixpoint to_String_json (j : json) : string :=
  match j with
  | JNull => "null"
  | JBool true => "true"
  | JBool false => "false"
  | JNum n => string_of_Z n
  | JStr s => s
  | JArr l =>
      (fix join_comma (l : list json) : string :=
         match l with
         | [] => ""
         | [x] => match x with JNull => "" | _ => to_String_json x end
         | x :: r =>
             (match x with JNull => "" | _ => to_String_json x end)
               +:+ "," +:+ join_comma r
         end) l
  | JObj _ => "[object Object]"
  end.

Definition to_String (v : jsval) : string :=
  match v with
  | None => "undefined"
  | Some j => to_String_json j
  end.

Definition join_elem (j : json) : string :=
  match j with JNull => "" | _ => to_String_json j end.

(** [arr.join(sep)] *)
Fixpoint array_join (sep : string) (l : list json) : string :=
  match l with
  | [] => ""
  | [x] => join_elem x
  | x :: r => join_elem x +:+ sep +:+ array_join sep r
  end.

(** [Number(v)]; [None] is [NaN]. *)
Definition to_number (v : jsval) : option Z :=
  match v with
  | None => None
  | Some JNull => Some 0
  | Some (JBool b) => Some (if b then 1 else 0)
  | Some (JNum n) => Some n
  | Some (JStr s) => number_of_string s
  | Some (JArr l) => number_of_string (to_String_json (JArr l))
  | Some (JObj _) => None
  end.

(** [Number(v) || 0] *)
Definition num_or0 (v : jsval) : Z := default 0 (to_number v).

(** A number used as a condition: [NaN] and [0] are falsy. *)
Definition num_truthy (n : option Z) : bool :=
  match n with
  | Some n => negb (n =? 0)
  | None => false
  end.

(** ** Objects *)

(** ['k' in o] *)
Definition has (k : string) (o : obj) : bool :=
  match o !! k with Some _ => true | None => false end.

(** [o.k = v]; a property set to [undefined] is not written to the file. *)
Definition assign (k : string) (v : jsval) (o : obj) : obj :=
  match v with
  | Some j => <[k := j]> o
  | None => delete k o
  end.

(** ** The store and the file *)

Record store := Store { people : list obj; items : list obj }.

Definition empty_store : store := {| people := []; items := [] |}.

(** The content of [data.json]; [None] when the file does not exist. *)
Abbreviation disk := (option store).

(** Handlers read and write the file: a state monad over [disk]. *)
Definition M (A : Type) : Type := disk -> A * disk.

#[global] Instance M_ret : MRet M := fun A a d => (a, d).
#[global] Instance M_bind : MBind M :=
  fun A B f m d => let '(a, d') := m d in f a d'.

(** ** loadData: read and normalize *)

(** [reduce((m, it) => Math.max(m, Number(it.id) || 0, Number(it.itemId) || 0), 0)] *)
Definition max_seen (its : list obj) : Z :=
  foldl (fun m it =>
           Z.max (Z.max m (num_or0 (it !! "id"))) (num_or0 (it !! "itemId")))
        0 its.

(** Ensure numeric [id] exists; returns the updated running [maxId]. *)
Definition norm_id (maxId : Z) (it : obj) : Z * obj :=
  if negb (truthy (it !! "id")) then
    let asNum := to_number (it !! "itemId") in
    if num_truthy asNum then
      let n := default 0 asNum in
      (if n >? maxId then n else maxId, <["id" := JNum n]> it)
    else
      (maxId + 1, <["id" := JNum (maxId + 1)]> it)
  else (maxId, it).

(** Map legacy [notes] to [details]. *)
Definition norm_details (it : obj) : obj :=
  match it !! "details" with
  | None =>
      match it !! "notes" with
      | None | Some JNull => <["details" := JStr ""]> it
      | Some n => <["details" := JStr (to_String_json n)]> it
      end
  | Some _ => it
  end.

(** Prefer the [tags] array, else convert the [tag] string. *)
Definition norm_tags (it : obj) : obj :=
  match it !! "tags" with
  | Some (JArr _) => it
  | _ =>
      match it !! "tag" with
      | Some (JStr s) =>
          if negb (String.eqb (trim s) "")
          then <["tags" := str_tags (trim_nonempty (split_on sep_load s))]> it
          else <["tags" := JArr []]> it
      | _ => <["tags" := JArr []]> it
      end
  end.

Definition norm_claimed (it : obj) : obj :=
  if negb (has "claimedByCode" it) then <["claimedByCode" := JNull]> it else it.

(** Used for items and for people. *)
Definition norm_family (o : obj) : obj :=
  if negb (has "family" o) || negb (truthy (o !! "family"))
  then <["family" := JStr "default"]> o else o.

Definition normalize_item (maxId : Z) (it : obj) : Z * obj :=
  let '(m, it1) := norm_id maxId it in
  (m, norm_family (norm_claimed (norm_tags (norm_details it1)))).

(** The [forEach] over [data.items], threading [maxId]. *)
Fixpoint normalize_items (maxId : Z) (its : list obj) : list obj :=
  match its with
  | [] => []
  | it :: rest =>
      let '(m, it') := normalize_item maxId it in
      it' :: normalize_items m rest
  end.

Definition normalize (data : store) : store :=
  {| people := norm_family <$> people data;
     items := normalize_items (max_seen (items data)) (items data) |}.

Definition loadData : M store :=
  fun d =>
    match d with
    | None => (empty_store, Some empty_store)
    | Some raw => (normalize raw, Some raw)
    end.

Definition saveData (data : store) : M unit := fun _ => (tt, Some data).

(** ** parseCsvText *)

Definition dquote : ascii := ascii_of_nat 34.
Definition LF : ascii := ascii_of_nat 10.
Definition CR : ascii := ascii_of_nat 13.

(** [text.replace(/\r\n/g, '\n')] *)
Fixpoint crlf_to_lf (s : string) : string :=
  match s with
  | EmptyString => EmptyString
  | String c r =>
      match r with
      | String c2 r2 =>
          if Ascii.eqb c CR && Ascii.eqb c2 LF
          then String LF (crlf_to_lf r2)
          else String c (crlf_to_lf r)
      | EmptyString => String c EmptyString
      end
  end.

(** [text.replace(/\r/g, '\n')] *)
Fixpoint cr_to_lf (s : string) : string :=
  match s with
  | EmptyString => EmptyString
  | String c r => String (if Ascii.eqb c CR then LF else c) (cr_to_lf r)
  end.

Definition push_char (s : string) (c : ascii) : string :=
  s +:+ String c EmptyString.

(** The first loop: rows are cut at line feeds outside quotes.  A quote
    character toggles [inQuotes] and is not copied to [cur]; a doubled
    quote inside quotes copies one quote. *)
Fixpoint split_rows (s cur : string) (inQuotes : bool) : list string :=
  match s with
  | EmptyString => if String.eqb cur "" then [] else [cur]
  | String ch r =>
      if Ascii.eqb ch dquote then
        match r with
        | String ch2 r2 =>
            if inQuotes && Ascii.eqb ch2 dquote
            then split_rows r2 (push_char cur dquote) inQuotes
            else split_rows r cur (negb inQuotes)
        | EmptyString => split_rows r cur (negb inQuotes)
        end
      else if Ascii.eqb ch LF && negb inQuotes then
        cur :: split_rows r EmptyString inQuotes
      else split_rows r (push_char cur ch) inQuotes
  end.

(** The loop of [splitRow]: cells are cut at commas outside quotes. *)
Fixpoint split_cells (s cell : string) (iq : bool) : list string :=
  match s with
  | EmptyString => [cell]
  | String ch r =>
      if Ascii.eqb ch dquote then
        match r with
        | String ch2 r2 =>
            if iq && Ascii.eqb ch2 dquote
            then split_cells r2 (push_char cell dquote) iq
            else split_cells r cell (negb iq)
        | EmptyString => split_cells r cell (negb iq)
        end
      else if Ascii.eqb ch "," && negb iq then
        cell :: split_cells r EmptyString iq
      else split_cells r (push_char cell ch) iq
  end.

Definition splitRow (row : string) : list string :=
  List.map trim (split_cells row EmptyString false).

(** [header[c] ? header[c].toLowerCase() : `col${c}`], the property name
    of column [c]. *)
Definition column_key (h : string) (c : nat) : string :=
  if negb (String.eqb h "") then toLowerCase h
  else "col" +:+ string_of_Z (Z.of_nat c).

(** The inner loop over the header cells, building one record with
    [obj[key] = fields[c] !== undefined ? fields[c] : ''].  On a plain
    object the name [__proto__] is an accessor: assigning a string to it
    creates no property. *)
Fixpoint make_record (header : list string) (c : nat) (fields : list string)
                     (o : obj) : obj :=
  match header with
  | [] => o
  | h :: hs =>
      let key := column_key h c in
      make_record hs (S c) fields
                  (if String.eqb key "__proto__" then o
                   else <[key := JStr (default "" (fields !! c))]> o)
  end.

Definition parseCsvText (text : string) : list obj :=
  let text := cr_to_lf (crlf_to_lf text) in
  match split_rows text EmptyString false with
  | [] => []
  | row0 :: rest =>
      let header := List.map trim (splitRow row0) in
      List.map (fun row => make_record header 0%nat (splitRow row) ∅)
               (List.filter (fun row => negb (String.eqb (trim row) "")) rest)
  end.

(** ** Requests and responses *)

(** [param] is the route parameter ([:id] or [:code]), [query] is
    [req.query] and [body] is [req.body]. *)
Record request := Request { param : string; query : obj; body : obj }.

(** [res.status(code).json(payload)] *)
Record response := Response { status : nat; payload : json }.

Definition js_object (l : list (string * json)) : json := JObj (list_to_map l).

(** [{ success: false, message }] *)
Definition failure (code : nat) (message : string) : response :=
  {| status := code;
     payload := js_object [("success", JBool false); ("message", JStr message)] |}.

(** [res.json({ success: true })] *)
Definition success : response :=
  {| status := 200%nat; payload := js_object [("success", JBool true)] |}.

(** A [TypeError] thrown inside a handler reaches the error middleware,
    which answers 500 with the error's message.  The message is the
    engine's text, for which "TypeError" stands here; no statement
    depends on it. *)
Definition type_error : response := failure 500%nat "TypeError".

Definition default_family : jsval := Some (JStr "default").

(** [String(o.family || 'default')] *)
Definition family_of (o : obj) : string :=
  to_String (o !! "family" ||| default_family).

Definition set_items (data : store) (its : list obj) : store :=
  {| people := people data; items := its |}.

Definition set_people (data : store) (ps : list obj) : store :=
  {| people := ps; items := items data |}.

(** ** POST /api/admin/upload-csv-text *)

(** The body of [records.forEach]: one record to one item, threading
    [maxId]. *)
Definition csv_item (body : obj) (maxId : Z) (r : obj) : Z * obj :=
  let idNum := to_number (r !! "itemid" ||| r !! "id" ||| Some (JStr "")) in
  let '(maxId, id) :=
    if num_truthy idNum then
      let n := default 0 idNum in
      (if n >? maxId then n else maxId, n)
    else (maxId + 1, maxId + 1) in
  let out : obj := <["id" := JNum id]> ∅ in
  let out := <["itemId" := JNum id]> out in
  let out := assign "recipientCode"
               (r !! "recipientcode" ||| r !! "recipient" ||| Some (JStr "")) out in
  let out := assign "recipientName"
               (r !! "recipientname" ||| r !! "recipient" ||| Some (JStr "")) out in
  let out := assign "itemName"
               (r !! "itemname" ||| r !! "name" ||| Some (JStr "")) out in
  let out := assign "details"
               (r !! "details" ||| r !! "notes" ||| Some (JStr "")) out in
  let out := assign "url" (r !! "url" ||| Some (JStr "")) out in
  let out := assign "family"
               (r !! "family" ||| body !! "family" ||| default_family) out in
  let rawTags := r !! "tags" ||| r !! "tag" ||| Some (JStr "") in
  let tags :=
    match rawTags with
    | Some (JStr s) =>
        if negb (String.eqb (trim s) "")
        then List.map JStr (trim_nonempty (split_on sep_csv s))
        else []
    | _ => []
    end in
  let out := <["tags" := JArr tags]> out in
  let out := assign "claimedByCode"
               ((r !! "claimedbycode" ||| r !! "claimedby" ||| Some (JStr ""))
                ||| Some JNull) out in
  let out := assign "notes" (out !! "details") out in
  let out := <["tag" := JStr (array_join "/" tags)]> out in
  (maxId, out).

Fixpoint csv_items (body : obj) (maxId : Z) (records : list obj) : list obj :=
  match records with
  | [] => []
  | r :: rest =>
      let '(m, out) := csv_item body maxId r in
      out :: csv_items body m rest
  end.

Definition upload_csv_text (req : request) : M response :=
  match body req !! "csv" with
  | Some (JStr csv) =>
      if negb (String.eqb csv "") then
        let records := parseCsvText csv in
        match records with
        | [] =>
            mret {| status := 200%nat;
                    payload := js_object [("success", JBool true);
                                          ("added", JNum 0);
                                          ("message", JStr "No rows to add.")] |}
        | _ =>
            data ← loadData;
            let added := csv_items (body req) (max_seen (items data)) records in
            _ ← saveData (set_items data (items data ++ added));
            mret {| status := 200%nat;
                    payload := js_object [("success", JBool true);
                                          ("added", JNum (Z.of_nat (length added)))] |}
        end
      else mret (failure 400%nat "Missing csv text in request body (field `csv`).")
  | _ => mret (failure 400%nat "Missing csv text in request body (field `csv`).")
  end.

(** ** PUT /api/admin/item/:id *)

(** [if (k in body) item.k = String(body.k || '')] *)
Definition put_string (k : string) (body item : obj) : obj :=
  if has k body
  then <[k := JStr (to_String (body !! k ||| Some (JStr "")))]> item
  else item.

Definition put_notes (body item : obj) : obj :=
  if has "notes" body
  then <["details" := JStr (to_String (body !! "notes" ||| item !! "details"
                                        ||| Some (JStr "")))]> item
  else item.

Definition put_claimed (body item : obj) : obj :=
  if has "claimedByCode" body
  then assign "claimedByCode" (body !! "claimedByCode" ||| Some JNull) item
  else item.

Definition put_tags (body item : obj) : obj :=
  match body !! "tags" with
  | Some (JArr l) =>
      <["tags" := str_tags (trim_nonempty (List.map to_String_json l))]> item
  | Some (JStr s) =>
      <["tags" := str_tags (trim_nonempty (split_on sep_csv s))]> item
  | _ => item
  end.

(** [item.tag = (item.tags && item.tags.join('/')) || '']; [None] when
    [item.tags] is truthy and has no [join] (a [TypeError]). *)
Definition sync_tag (item : obj) : option obj :=
  match item !! "tags" with
  | Some (JArr l) => Some (<["tag" := JStr (array_join "/" l)]> item)
  | t => if truthy t then None else Some (<["tag" := JStr ""]> item)
  end.

(** The field updates of the handler, in source order. *)
Definition edit_item (body : obj) (family : jsval) (item : obj) : option obj :=
  let item := put_string "recipientCode" body item in
  let item := put_string "recipientName" body item in
  let item := put_string "itemName" body item in
  let item := put_string "details" body item in
  let item := put_notes body item in
  let item := put_string "url" body item in
  let item := put_claimed body item in
  let item := put_tags body item in
  let item := assign "notes" (item !! "details") item in
  item ← sync_tag item;
  Some (if negb (truthy (item !! "family")) then assign "family" family item
        else item).

(** [(Number(i.id) === id || Number(i.itemId) === id) && String(i.family || 'default') === String(family)] *)
Definition admin_item_matches (id : Z) (family : jsval) (i : obj) : bool :=
  (bool_decide (to_number (i !! "id") = Some id)
   || bool_decide (to_number (i !! "itemId") = Some id))
  && String.eqb (family_of i) (to_String family).

Definition update_item (req : request) : M response :=
  let id := to_number (Some (JStr (param req))) in
  if negb (num_truthy id) then mret (failure 400%nat "Invalid id")
  else
    data ← loadData;
    let family := query req !! "family" ||| body req !! "family" ||| default_family in
    match list_find (fun i => admin_item_matches (default 0 id) family i) (items data) with
    | None => mret (failure 404%nat "Item not found")
    | Some (idx, item) =>
        match edit_item (body req) family item with
        | None => mret type_error
        | Some item' =>
            _ ← saveData (set_items data (<[idx := item']> (items data)));
            mret {| status := 200%nat;
                    payload := js_object [("success", JBool true);
                                          ("item", JObj item')] |}
        end
    end.

(** ** People: PUT, POST and DELETE /api/admin/person *)

(** [String(p.code) === String(code) && String(p.family || 'default') === String(family)] *)
Definition person_matches (code : string) (family : jsval) (p : obj) : bool :=
  String.eqb (to_String (p !! "code")) code
  && String.eqb (family_of p) (to_String family).

(** [(body.family || '').trim() || 'default']; [None] when the value has
    no [trim] (a [TypeError]). *)
Definition new_family (body : obj) : option json :=
  match body !! "family" ||| Some (JStr "") with
  | Some (JStr s) =>
      let t := trim s in
      Some (JStr (if negb (String.eqb t "") then t else "default"))
  | _ => None
  end.

Definition edit_person (body : obj) (lookupFamily : jsval) (person : obj)
  : option obj :=
  let person :=
    if has "name" body
    then <["name" := JStr (to_String (body !! "name" ||| Some (JStr "")))]> person
    else person in
  let person :=
    if has "preferences" body
    then assign "preferences" (body !! "preferences" ||| Some (JStr "")) person
    else person in
  if has "family" body then
    f ← new_family body;
    Some (<["family" := f]> person)
  else if negb (truthy (person !! "family")) then
    Some (assign "family" (lookupFamily ||| default_family) person)
  else Some person.

Definition update_person (req : request) : M response :=
  let code := param req in
  if String.eqb code "" then mret (failure 400%nat "Missing person code")
  else
    data ← loadData;
    let lookupFamily :=
      query req !! "family" ||| body req !! "family" ||| default_family in
    match list_find (fun p => person_matches code lookupFamily p) (people data) with
    | None => mret (failure 404%nat "Person not found")
    | Some (idx, person) =>
        match edit_person (body req) lookupFamily person with
        | None => mret type_error
        | Some person' =>
            _ ← saveData (set_people data (<[idx := person']> (people data)));
            mret {| status := 200%nat;
                    payload := js_object [("success", JBool true);
                                          ("person", JObj person')] |}
        end
    end.

(** [(body.k || '').toString().trim()] *)
Definition trimmed_field (k : string) (body : obj) : string :=
  trim (to_String (body !! k ||| Some (JStr ""))).

(** [String(p.code).toLowerCase() === code.toLowerCase()] *)
Definition same_code_ci (code : string) (p : obj) : bool :=
  String.eqb (toLowerCase (to_String (p !! "code"))) (toLowerCase code).

Definition create_person (req : request) : M response :=
  let code := trimmed_field "code" (body req) in
  let name := trimmed_field "name" (body req) in
  let preferences := body req !! "preferences" ||| Some (JStr "") in
  let family := body req !! "family" ||| query req !! "family" ||| default_family in
  if String.eqb code "" then mret (failure 400%nat "Missing code")
  else
    data ← loadData;
    match list_find (fun p => same_code_ci code p) (people data) with
    | Some _ => mret (failure 409%nat "Person with this code already exists")
    | None =>
        let person : obj :=
          assign "family" family
            (assign "preferences" preferences
               (<["name" := JStr name]> (<["code" := JStr code]> ∅))) in
        _ ← saveData (set_people data (people data ++ [person]));
        mret {| status := 200%nat;
                payload := js_object [("success", JBool true);
                                      ("person", JObj person)] |}
    end.

(** [String(it.recipientCode) === String(code) && String(it.family || 'default') === String(family)] *)
Definition owned_by (code : string) (family : jsval) (it : obj) : bool :=
  String.eqb (to_String (it !! "recipientCode")) code
  && String.eqb (family_of it) (to_String family).

Definition delete_person (req : request) : M response :=
  let code := param req in
  if String.eqb code "" then mret (failure 400%nat "Missing code")
  else
    data ← loadData;
    let family := query req !! "family" ||| default_family in
    match list_find (fun p => person_matches code family p) (people data) with
    | None => mret (failure 404%nat "Person not found")
    | Some (idx, _) =>
        _ ← saveData {| people := delete idx (people data);
                        items := filter (fun it => negb (owned_by code family it))
                                        (items data) |};
        mret success
    end.

(** ** The read-only views *)

(** GET /api/recipients: the people of a family. *)
Definition recipients_of (family : jsval) (data : store) : list obj :=
  filter (fun p => String.eqb (family_of p) (to_String family)) (people data).

(** GET /api/wishlist: the filter that selects a recipient's items. *)
Definition wishlist_matches (recipientCode family : jsval) (i : obj) : bool :=
  strict_eq (i !! "recipientCode") recipientCode
  && String.eqb (family_of i) (to_String family).

Definition wishlist_items (recipientCode family : jsval) (data : store) : list obj :=
  filter (fun i => wishlist_matches recipientCode family i) (items data).

(** ** POST /api/claim and POST /api/unclaim *)

(** [data.items.find] returns the array element itself and the handlers
    assign to it in place; [list_find] gives the element with its
    position [idx], and the assignment replaces the element at [idx]. *)

(** [i.id === idNum && String(i.family || 'default') === String(family)] *)
Definition item_matches (idNum : option Z) (family : jsval) (i : obj) : bool :=
  match idNum with
  | Some n => strict_eq (i !! "id") (Some (JNum n))
  | None => false
  end
  && String.eqb (family_of i) (to_String family).

(** [req.body.family || req.query.family || 'default'] *)
Definition claim_family (req : request) : jsval :=
  body req !! "family" ||| query req !! "family" ||| default_family.

Definition claim (req : request) : M response :=
  let viewerCode := body req !! "viewerCode" in
  let itemId := body req !! "itemId" in
  let family := claim_family req in
  data ← loadData;
  let idNum := to_number itemId in
  match list_find (fun i => item_matches idNum family i) (items data) with
  | None => mret (failure 200%nat "Item not found.")
  | Some (idx, item) =>
      if truthy (item !! "claimedByCode")
         && negb (strict_eq (item !! "claimedByCode") viewerCode)
      then mret (failure 200%nat "This item was already claimed.")
      else
        _ ← saveData (set_items data
               (<[idx := assign "claimedByCode" viewerCode item]> (items data)));
        mret success
  end.

Definition unclaim (req : request) : M response :=
  let viewerCode := body req !! "viewerCode" in
  let itemId := body req !! "itemId" in
  let family := claim_family req in
  data ← loadData;
  let idNum := to_number itemId in
  match list_find (fun i => item_matches idNum family i) (items data) with
  | None => mret (failure 200%nat "Item not found.")
  | Some (idx, item) =>
      if negb (strict_eq (item !! "claimedByCode") viewerCode)
      then mret (failure 200%nat "You can only unclaim items you claimed.")
      else
        _ ← saveData (set_items data
               (<[idx := <["claimedByCode" := JNull]> item]> (items data)));
        mret success
  end.

(** ** Sequences of writes *)

Inductive op : Type :=
| UploadCsv (req : request)
| UpdateItem (req : request)
| UpdatePerson (req : request)
| CreatePerson (req : request)
| DeletePerson (req : request)
| Claim (req : request)
| Unclaim (req : request).

Definition handle (o : op) : M response :=
  match o with
  | UploadCsv req => upload_csv_text req
  | UpdateItem req => update_item req
  | UpdatePerson req => update_person req
  | CreatePerson req => create_person req
  | DeletePerson req => delete_person req
  | Claim req => claim req
  | Unclaim req => unclaim req
  end.

(** The file after serving the requests [ops] in order. *)
Definition run (ops : list op) (d : disk) : disk :=
  foldl (fun d o => (handle o d).2) d ops.

(** * The range of the model

    Where the server reads a number out of a string, adds one to the
    running [maxId], or folds the case of letters, the definitions above
    are the code on the values described here, and the statements that
    depend on it say so by these hypotheses. *)

(** 2^53: up to it in magnitude JavaScript holds every integer, and
    below it [m + 1] is the next integer. *)
Definition two53 : Z := 9007199254740992.

Definition exact_int (n : Z) : bool := Z.abs n <=? two53.

Fixpoint has_digit (s : string) : bool :=
  match s with
  | EmptyString => false
  | String c r =>
      match digit_of c with Some _ => true | None => has_digit r end
  end.

Definition infinity_text (t : string) : bool :=
  String.eqb t "Infinity" || String.eqb t "+Infinity" || String.eqb t "-Infinity".

(** The strings [Number] reads as [number_of_string] does.  Either the
    text is blank or an optionally signed run of digits, of a value up to
    2^53; or it holds no digit at all and is not an infinity, and then it
    is [NaN]: every other numeric literal of JavaScript (1.0, 1e3, 0x1F)
    holds a digit. *)
Definition plain_number_text (s : string) : bool :=
  match number_of_string s with
  | Some n => exact_int n
  | None => negb (has_digit s) && negb (infinity_text (trim s))
  end.

(** The values [Number] reads as [to_number] does: [undefined], [null],
    booleans, the integers up to 2^53 and the strings above.  Arrays and
    objects, which [Number] converts through their own [toString], are
    left out. *)
Definition plain_number (v : jsval) : bool :=
  match v with
  | Some (JNum n) => exact_int n
  | Some (JStr s) => plain_number_text s
  | Some (JArr _) | Some (JObj _) => false
  | _ => true
  end.

(** The values [String] prints as [to_String] does: [undefined], [null],
    booleans, strings and the integers up to 2^53, which JavaScript
    prints digit by digit.  Arrays and objects, which [String] converts
    through their own [toString], are left out. *)
Definition plain_text (v : jsval) : bool :=
  match v with
  | Some (JNum n) => exact_int n
  | Some (JArr _) | Some (JObj _) => false
  | _ => true
  end.

(** A claim or unclaim request that names its item plainly: the itemId
    is a value [Number] reads as the model does, and the family one
    [String] prints as the model does. *)
Definition plain_claim (req : request) : bool :=
  plain_number (body req !! "itemId") && plain_text (claim_family req).

(** Text made of ASCII characters only: on it [toLowerCase] folds the
    letters A to Z and nothing else. *)
Definition ascii_char (c : ascii) : bool := (N_of_ascii c <? 128)%N.

Fixpoint ascii_text (s : string) : bool :=
  match s with
  | EmptyString => true
  | String c r => ascii_char c && ascii_text r
  end.

(** Equality of texts up to the case of letters, by the alphabet: two
    characters are the same letter when they are equal or are the capital
    and the small form of one of the 26 letters. *)
Definition capitals : string := "ABCDEFGHIJKLMNOPQRSTUVWXYZ".
Definition smalls : string := "abcdefghijklmnopqrstuvwxyz".

Fixpoint index_in (c : ascii) (alphabet : string) : option nat :=
  match alphabet with
  | EmptyString => None
  | String d r => if Ascii.eqb c d then Some 0%nat else S <$> index_in c r
  end.

Definition letter (c : ascii) : option nat :=
  match index_in c capitals with
  | Some i => Some i
  | None => index_in c smalls
  end.

Definition same_letter (a b : ascii) : bool :=
  Ascii.eqb a b
  || match letter a, letter b with
     | Some i, Some j => Nat.eqb i j
     | _, _ => false
     end.

Fixpoint same_letters (s t : string) : bool :=
  match s, t with
  | EmptyString, EmptyString => true
  | String a s', String b t' => same_letter a b && same_letters s' t'
  | _, _ => false
  end.

(** * Specification vocabulary *)

(** The shape [loadData] gives every item. *)
Definition normal_item (it : obj) : Prop :=
  truthy (it !! "id") = true
  /\ is_Some (it !! "details")
  /\ (exists l, it !! "tags" = Some (JArr l))
  /\ is_Some (it !! "claimedByCode")
  /\ truthy (it !! "family") = true.

(** An item with numeric id [n] in family [family]. *)
Definition has_id (n : Z) (family : jsval) (it : obj) : Prop :=
  it !! "id" = Some (JNum n) /\ family_of it = to_String family.

(** [it], at position [idx], is the item of [its] with id [n] in [family];
    should several items share the id, it is the first of them, which is
    the one [Array.prototype.find] returns. *)
Definition item_at (its : list obj) (n : Z) (family : jsval)
                   (idx : nat) (it : obj) : Prop :=
  its !! idx = Some it
  /\ has_id n family it
  /\ forall j it', its !! j = Some it' -> (j < idx)%nat -> ~ has_id n family it'.

(** No item of [its] has the requested id in [family]; a request whose
    [itemId] is not a number ([NaN]) names no item. *)
Definition no_item (its : list obj) (idNum : option Z) (family : jsval) : Prop :=
  forall n it, idNum = Some n -> it ∈ its -> ~ has_id n family it.

(** Some person of [ps] has a code equal to [code] up to letter case. *)
Definition code_taken (ps : list obj) (code : string) : Prop :=
  exists p, p ∈ ps /\ same_letters (to_String (p !! "code")) code = true.

(** The codes of the people are plain values of ASCII text. *)
Definition ascii_codes (ps : list obj) : Prop :=
  Forall (fun p => plain_text (p !! "code") = true
                   /\ ascii_text (to_String (p !! "code")) = true) ps.

(** A person with code [code] in family [family]. *)
Definition is_person (code : string) (family : jsval) (p : obj) : Prop :=
  to_String (p !! "code") = code /\ family_of p = to_String family.

(** An item whose recipientCode is [code], in family [family]. *)
Definition is_item_of (code : string) (family : jsval) (it : obj) : Prop :=
  to_String (it !! "recipientCode") = code /\ family_of it = to_String family.

(** The [id] properties of an item array, in order. *)
Definition item_ids (its : list obj) : list jsval := (fun it => it !! "id") <$> its.

(** Every item has an id and no two items share one. *)
Definition ids_unique (data : store) : Prop :=
  Forall (fun it => truthy (it !! "id") = true) (items data)
  /\ NoDup (item_ids (items data)).

(** The cell of a CSV record that may hold an id: [r.itemid || r.id || '']. *)
Definition id_cell (r : obj) : jsval :=
  r !! "itemid" ||| r !! "id" ||| Some (JStr "").

(** A CSV record that supplies no numeric id: [Number(r.itemid || r.id || '')]
    is [0] or [NaN]. *)
Definition no_numeric_id (r : obj) : Prop :=
  num_truthy (to_number (id_cell r)) = false.

(** A CSV record that supplies the id [n]. *)
Definition supplies_id (r : obj) (n : Z) : Prop :=
  to_number (id_cell r) = Some n /\ n <> 0.

(** The id and the legacy itemId of an item are values [Number] reads as
    the model does. *)
Definition exact_ids (it : obj) : Prop :=
  plain_number (it !! "id") = true /\ plain_number (it !! "itemId") = true.

(** The items of a file are in range for [loadData]: their ids are read
    exactly, and the ids the backfill can assign stay within 2^53. *)
Definition load_in_range (its : list obj) : Prop :=
  Forall exact_ids its
  /\ max_seen its + Z.of_nat (length its) <= two53.

(** An import of [records] into the loaded items is in range: the ids of
    the items and the id cells of the rows are read exactly, and counting
    on from the largest of them by one per row stays within 2^53. *)
Definition ids_in_range (loaded records : list obj) : Prop :=
  Forall exact_ids loaded
  /\ Forall (fun r => plain_number (id_cell r) = true) records
  /\ max_seen loaded + Z.of_nat (length records) <= two53
  /\ Forall (fun r => forall n, supplies_id r n ->
                                n + Z.of_nat (length records) <= two53) records.

(** The running [maxId] of the import after the rows [records]. *)
Fixpoint csv_max (body : obj) (maxId : Z) (records : list obj) : Z :=
  match records with
  | [] => maxId
  | r :: rest => csv_max body (csv_item body maxId r).1 rest
  end.

(** No row of the import supplies an id that is in use when the row is
    reached: the id of a loaded item, or the id given to an earlier row
    of the same import. *)
Definition supplied_ids_new (body : obj) (loaded records : list obj) : Prop :=
  forall pre r post n,
    records = pre ++ r :: post ->
    supplies_id r n ->
    Some (JNum n) ∉ item_ids (loaded ++ csv_items body (max_seen loaded) pre).

(** A request that, if it is a CSV upload served from the file [d], is
    in range and supplies no id in use. *)
Definition import_ok (o : op) (d : disk) : Prop :=
  match o with
  | UploadCsv req =>
      forall raw csv,
        d = Some raw -> body req !! "csv" = Some (JStr csv) ->
        ids_in_range (items (normalize raw)) (parseCsvText csv)
        /\ supplied_ids_new (body req) (items (normalize raw)) (parseCsvText csv)
  | _ => True
  end.

(** Every CSV upload of the sequence [ops] is so when it is served. *)
Fixpoint imports_ok (ops : list op) (d : disk) : Prop :=
  match ops with
  | [] => True
  | o :: rest => import_ok o d /\ imports_ok rest (handle o d).2
  end.

(** A request served from the file [raw] is in the range of the model:
    the values the handler passes to [Number] and [String] before it
    decides to turn the request down are read as the model reads them. *)
Definition op_in_range (o : op) (raw : store) : Prop :=
  match o with
  | UploadCsv _ | DeletePerson _ => True
  | UpdateItem req =>
      plain_number (Some (JStr (param req))) = true
      /\ plain_text (query req !! "family" ||| body req !! "family"
                     ||| default_family) = true
      /\ load_in_range (items raw)
  | UpdatePerson req =>
      plain_text (query req !! "family" ||| body req !! "family"
                  ||| default_family) = true
  | CreatePerson req => plain_text (body req !! "code") = true
  | Claim req | Unclaim req => plain_claim req = true
  end.

(** The two legacy-field equations: [notes] equals [details], and [tag]
    equals [tags] joined by "/". *)
Definition synced (it : obj) : Prop :=
  (exists d, it !! "details" = Some d /\ it !! "notes" = Some d)
  /\ (exists l, it !! "tags" = Some (JArr l)
                /\ it !! "tag" = Some (JStr (array_join "/" l))).

(** What a handler does to one item it has looked up: claim and unclaim
    assign [claimedByCode]; the admin update applies [edit_item]. *)
Inductive item_change (item item' : obj) : Prop :=
| change_claimed (v : jsval) :
    item' = assign "claimedByCode" v item -> item_change item item'
| change_edited (body : obj) (family : jsval) :
    edit_item body family item = Some item' -> item_change item item'.

(** What a request does to the loaded item array before it is saved. *)
Inductive items_change : op -> list obj -> list obj -> Prop :=
| items_kept o loaded : items_change o loaded loaded
| item_replaced o loaded idx item item' :
    loaded !! idx = Some item -> item_change item item' ->
    items_change o loaded (<[idx := item']> loaded)
| items_removed o loaded code family :
    items_change o loaded
                 (filter (fun it => negb (owned_by code family it)) loaded)
| items_appended req csv loaded :
    body req !! "csv" = Some (JStr csv) ->
    items_change (UploadCsv req) loaded
                 (loaded ++ csv_items (body req) (max_seen loaded) (parseCsvText csv)).

(** * Sample data for the concrete checks *)

Definition lauren : obj :=
  list_to_map [("code", JStr "LAUREN"); ("name", JStr "Lauren");
               ("preferences", JStr ""); ("family", JStr "default")].

(** An item as the CSV import writes it, unclaimed. *)
Definition bike : obj :=
  list_to_map [("id", JNum 1); ("itemId", JNum 1);
               ("recipientCode", JStr "LAUREN"); ("recipientName", JStr "Lauren");
               ("itemName", JStr "Bike"); ("details", JStr "red");
               ("url", JStr ""); ("family", JStr "default");
               ("tags", JArr [JStr "red"]); ("claimedByCode", JNull);
               ("notes", JStr "red"); ("tag", JStr "red")].

Definition store1 : store := {| people := [lauren]; items := [bike] |}.

(** [{ viewerCode, itemId }] posted to /api/claim or /api/unclaim *)
Definition claim_request (viewerCode : string) (itemId : Z) : request :=
  {| param := ""; query := ∅;
     body := list_to_map [("viewerCode", JStr viewerCode); ("itemId", JNum itemId)] |}.

(** The bike, claimed by ANNA. *)
Definition bike_claimed : obj := <["claimedByCode" := JStr "ANNA"]> bike.

Definition store2 : store := {| people := [lauren]; items := [bike_claimed] |}.

(** An item in the old file format, with [itemId], [notes] and [tag]. *)
Definition legacy_bike : obj :=
  list_to_map [("itemId", JNum 1); ("recipientCode", JStr "LAUREN");
               ("recipientName", JStr "Lauren"); ("itemName", JStr "Bike");
               ("notes", JStr "fast"); ("tag", JStr "red,shiny")].

Definition legacy_store : store := {| people := [lauren]; items := [legacy_bike] |}.

(** [{ csv }] posted to /api/admin/upload-csv-text *)
Definition csv_request (csv : string) : request :=
  {| param := ""; query := ∅; body := list_to_map [("csv", JStr csv)] |}.

(** A header and one row that supplies the id 1. *)
Definition csv_with_id : string :=
  "id,itemName" +:+ String LF ("1,Kite" +:+ String LF "").

(** A header and one row without an id column. *)
Definition csv_without_id : string :=
  "itemName,recipientCode" +:+ String LF ("Kite,LAUREN" +:+ String LF "").

(** The CSV text of the spec: the third cell of the row is quoted and
    holds a comma. *)
Definition csv_bike : string :=
  "itemName,recipientCode,tags"
  +:+ String LF ("Bike,LAUREN,"
  +:+ String dquote ("red,shiny" +:+ String dquote (String LF ""))).

(** The item the import makes of that row. *)
Definition bike_imported : obj :=
  list_to_map [("id", JNum 1); ("itemId", JNum 1);
               ("recipientCode", JStr "LAUREN"); ("recipientName", JStr "");
               ("itemName", JStr "Bike"); ("details", JStr "");
               ("url", JStr ""); ("family", JStr "default");
               ("tags", JArr [JStr "red"]); ("claimedByCode", JNull);
               ("notes", JStr ""); ("tag", JStr "red")].

(** Requests on people: the route parameter, the query family, the body. *)
Definition person_request (code : string) (family : string) (body : obj) : request :=
  {| param := code; query := list_to_map [("family", JStr family)]; body := body |}.

(** A second Lauren, in the family "smith". *)
Definition lauren_smith : obj := <["family" := JStr "smith"]> lauren.

Definition kite_smith : obj :=
  <["family" := JStr "smith"]> (<["id" := JNum 2]> (<["itemName" := JStr "Kite"]> bike)).

Definition two_families : store :=
  {| people := [lauren; lauren_smith]; items := [bike; kite_smith] |}.

(** The item the import makes of the row of [csv_with_id]. *)
Definition kite_imported : obj :=
  list_to_map [("id", JNum 1); ("itemId", JNum 1);
               ("recipientCode", JStr ""); ("recipientName", JStr "");
               ("itemName", JStr "Kite"); ("details", JStr "");
               ("url", JStr ""); ("family", JStr "default");
               ("tags", JArr []); ("claimedByCode", JNull);
               ("notes", JStr ""); ("tag", JStr "")].

(** The old-format bike after it was loaded and claimed by ANNA. *)
Definition legacy_bike_claimed : obj :=
  list_to_map [("itemId", JNum 1); ("recipientCode", JStr "LAUREN");
               ("recipientName", JStr "Lauren"); ("itemName", JStr "Bike");
               ("notes", JStr "fast"); ("tag", JStr "red,shiny");
               ("id", JNum 1); ("details", JStr "fast");
               ("tags", JArr [JStr "red"; JStr "shiny"]);
               ("claimedByCode", JStr "ANNA"); ("family", JStr "default")].


(** * The read-only endpoints *)

(** [a || b] where [b] is a JSON value, so that the result is one. *)
Definition js_or_json (a : jsval) (b : json) : json :=
  match a with
  | Some v => if truthy a then v else b
  | None => b
  end.

(** [i.id || Number(i.itemId) || null], the "row" of the views *)
Definition row_of (i : obj) : json :=
  match i !! "id" with
  | Some v =>
      if truthy (i !! "id") then v
      else match to_number (i !! "itemId") with
           | Some n => if negb (n =? 0) then JNum n else JNull
           | None => JNull
           end
  | None =>
      match to_number (i !! "itemId") with
      | Some n => if negb (n =? 0) then JNum n else JNull
      | None => JNull
      end
  end.

(** The fields the wishlist and the shopping list share. *)
Definition item_view (i : obj) : obj :=
  let v : obj := <["row" := row_of i]> ∅ in
  let v := assign "recipientCode" (i !! "recipientCode") v in
  let v := assign "recipientName" (i !! "recipientName") v in
  let v := assign "itemName" (i !! "itemName") v in
  let v := <["details" := js_or_json (i !! "details" ||| i !! "notes") (JStr "")]> v in
  let v := assign "url" (i !! "url") v in
  <["tags" := js_or_json (i !! "tags") (JArr [])]> v.

(** The wishlist adds [claimed: !!i.claimedByCode] and
    [claimedByMe: i.claimedByCode === viewerCode]. *)
Definition wishlist_view (viewerCode : jsval) (i : obj) : obj :=
  <["claimedByMe" := JBool (strict_eq (i !! "claimedByCode") viewerCode)]>
    (<["claimed" := JBool (truthy (i !! "claimedByCode"))]> (item_view i)).

(** GET /api/recipients *)
Definition get_recipients (req : request) : M response :=
  let code := query req !! "code" in
  let family := query req !! "family" ||| default_family in
  data ← loadData;
  let recipients := recipients_of family data in
  let currentUser :=
    match list_find (fun p => strict_eq (p !! "code") code) recipients with
    | Some (_, p) => JObj p
    | None => JNull
    end in
  mret {| status := 200%nat;
          payload := js_object [("currentUser", currentUser);
                                ("recipients", JArr (JObj <$> recipients))] |}.

(** [famSet.add(v)]: a [Set] holds a primitive value once. *)
Definition set_add (v : json) (s : list json) : list json :=
  if existsb (fun w => strict_eq (Some w) (Some v)) s then s else s ++ [v].

(** [o.family || 'default'] *)
Definition family_value (o : obj) : json :=
  js_or_json (o !! "family") (JStr "default").

(** The two [forEach] loops of GET /api/families. *)
Definition families_of (data : store) : list json :=
  foldl (fun s i => set_add (family_value i) s)
        (foldl (fun s p => set_add (family_value p) s) [] (people data))
        (items data).

Definition get_families (req : request) : M response :=
  data ← loadData;
  mret {| status := 200%nat;
          payload := js_object [("families", JArr (families_of data))] |}.

(** GET /api/wishlist *)
Definition get_wishlist (req : request) : M response :=
  let viewerCode := query req !! "viewerCode" in
  let recipientCode := query req !! "recipientCode" in
  let family := query req !! "family" ||| default_family in
  data ← loadData;
  let views := wishlist_view viewerCode <$> wishlist_items recipientCode family data in
  mret {| status := 200%nat;
          payload := JObj (assign "viewerCode" viewerCode
                             (assign "recipientCode" recipientCode
                                (<["items" := JArr (JObj <$> views)]> ∅))) |}.

(** [i.claimedByCode === viewerCode && String(i.family || 'default') === String(family)] *)
Definition shopping_matches (viewerCode family : jsval) (i : obj) : bool :=
  strict_eq (i !! "claimedByCode") viewerCode
  && String.eqb (family_of i) (to_String family).

Definition shopping_items (viewerCode family : jsval) (data : store) : list obj :=
  filter (fun i => shopping_matches viewerCode family i) (items data).

(** GET /api/my-shopping-list *)
Definition get_shopping_list (req : request) : M response :=
  let viewerCode := query req !! "viewerCode" in
  let family := query req !! "family" ||| default_family in
  data ← loadData;
  let views := item_view <$> shopping_items viewerCode family data in
  mret {| status := 200%nat;
          payload := JObj (assign "viewerCode" viewerCode
                             (<["items" := JArr (JObj <$> views)]> ∅)) |}.

(** GET /api/admin/items *)
Definition admin_items (family : jsval) (data : store) : list obj :=
  filter (fun it => String.eqb (family_of it) (to_String family)) (items data).

Definition get_admin_items (req : request) : M response :=
  let family := query req !! "family" ||| default_family in
  data ← loadData;
  mret {| status := 200%nat;
          payload := js_object [("items", JArr (JObj <$> admin_items family data))] |}.

Inductive read : Type :=
| Recipients (req : request)
| Families (req : request)
| Wishlist (req : request)
| ShoppingList (req : request)
| AdminItems (req : request).

Definition serve (r : read) : M response :=
  match r with
  | Recipients req => get_recipients req
  | Families req => get_families req
  | Wishlist req => get_wishlist req
  | ShoppingList req => get_shopping_list req
  | AdminItems req => get_admin_items req
  end.

(** * The migration script

    The script reads [data.json] as it is (without [loadData]), moves
    every item whose family is missing, falsy or "default" to the family
    "Rigsby", and writes the file only if an item changed. *)

(** [!it.family || String(it.family) === 'default'] *)
Definition in_default_family (it : obj) : bool :=
  negb (truthy (it !! "family"))
  || String.eqb (to_String (it !! "family")) "default".

Definition migrate_item (it : obj) : obj :=
  if in_default_family it then <["family" := JStr "Rigsby"]> it else it.

(** The data after the loop, and the flag [changed]. *)
Definition migrate (raw : store) : store * bool :=
  (set_items raw (migrate_item <$> items raw),
   existsb in_default_family (items raw)).

(** The file after the script ran on a file holding [raw]. *)
Definition migrate_file (raw : store) : store :=
  let '(data, changed) := migrate raw in
  if changed then data else raw.

(** * Further vocabulary *)

(** A person as [loadData] returns it: the family is set. *)
Definition normal_person (p : obj) : Prop := truthy (p !! "family") = true.

(** An item of the file that [loadData] must give an id, and that carries
    no numeric legacy [itemId] to take. *)
Definition lacks_id (it : obj) : Prop := truthy (it !! "id") = false.

Definition no_legacy_id (it : obj) : Prop :=
  lacks_id it -> num_truthy (to_number (it !! "itemId")) = false.

(** The ids the file already holds. *)
Definition given_ids (its : list obj) : list jsval :=
  item_ids (filter (fun it => truthy (it !! "id")) its).

(** The response reports success: its payload has [success: true]. *)
Definition succeeded (r : response) : bool :=
  match payload r with
  | JObj o => match o !! "success" with
              | Some (JBool true) => true
              | _ => false
              end
  | _ => false
  end.

(** Two claim or unclaim requests that name the same item: the same
    numeric itemId and the same family. *)
Definition same_target (req1 req2 : request) : Prop :=
  to_number (body req2 !! "itemId") = to_number (body req1 !! "itemId")
  /\ to_String (claim_family req2) = to_String (claim_family req1).

(** [s] does not contain the character [c]. *)
Fixpoint no_char (c : ascii) (s : string) : bool :=
  match s with
  | EmptyString => true
  | String d r => negb (Ascii.eqb d c) && no_char c r
  end.

(** The text [s] with every line feed written as [nl]. *)
Fixpoint lf_as (nl : string) (s : string) : string :=
  match s with
  | EmptyString => EmptyString
  | String c r => if Ascii.eqb c LF then nl +:+ lf_as nl r else String c (lf_as nl r)
  end.

(** Carriage return and line feed, the line ending of Windows. *)
Definition CRLF : string := String CR (String LF EmptyString).

(** The cells of the header row of a CSV text, as [parseCsvText] reads
    them, and the data rows. *)
Definition csv_rows (text : string) : list string :=
  split_rows (cr_to_lf (crlf_to_lf text)) EmptyString false.

Definition csv_header (text : string) : list string :=
  match csv_rows text with
  | [] => []
  | row0 :: _ => List.map trim (splitRow row0)
  end.

(** The rows after the header that are not blank; the parser makes one
    record of each. *)
Definition csv_data_rows (text : string) : list string :=
  match csv_rows text with
  | [] => []
  | _ :: rest => List.filter (fun row => negb (String.eqb (trim row) "")) rest
  end.

(** * The earlier revision of the server

    Before families were introduced, [loadData] did not touch [family],
    and claim and unclaim looked an item up by its id alone. *)

Module Earlier.

Definition normalize_item (maxId : Z) (it : obj) : Z * obj :=
  let '(m, it1) := norm_id maxId it in
  (m, norm_claimed (norm_tags (norm_details it1))).

Fixpoint normalize_items (maxId : Z) (its : list obj) : list obj :=
  match its with
  | [] => []
  | it :: rest =>
      let '(m, it') := normalize_item maxId it in
      it' :: normalize_items m rest
  end.

Definition normalize (data : store) : store :=
  {| people := people data;
     items := normalize_items (max_seen (items data)) (items data) |}.

Definition loadData : M store :=
  fun d =>
    match d with
    | None => (empty_store, Some empty_store)
    | Some raw => (normalize raw, Some raw)
    end.

(** [i.id === idNum] *)
Definition item_matches (idNum : option Z) (i : obj) : bool :=
  match idNum with
  | Some n => strict_eq (i !! "id") (Some (JNum n))
  | None => false
  end.

Definition claim (req : request) : M response :=
  let viewerCode := body req !! "viewerCode" in
  let itemId := body req !! "itemId" in
  data ← loadData;
  let idNum := to_number itemId in
  match list_find (fun i => item_matches idNum i) (items data) with
  | None => mret (failure 200%nat "Item not found.")
  | Some (idx, item) =>
      if truthy (item !! "claimedByCode")
         && negb (strict_eq (item !! "claimedByCode") viewerCode)
      then mret (failure 200%nat "This item was already claimed.")
      else
        _ ← saveData (set_items data
               (<[idx := assign "claimedByCode" viewerCode item]> (items data)));
        mret success
  end.

Definition unclaim (req : request) : M response :=
  let viewerCode := body req !! "viewerCode" in
  let itemId := body req !! "itemId" in
  data ← loadData;
  let idNum := to_number itemId in
  match list_find (fun i => item_matches idNum i) (items data) with
  | None => mret (failure 200%nat "Item not found.")
  | Some (idx, item) =>
      if negb (strict_eq (item !! "claimedByCode") viewerCode)
      then mret (failure 200%nat "You can only unclaim items you claimed.")
      else
        _ ← saveData (set_items data
               (<[idx := <["claimedByCode" := JNull]> item]> (items data)));
        mret success
  end.

End Earlier.

(** A store with the family of every person and item filled in. *)
Definition with_families (st : store) : store :=
  {| people := norm_family <$> people st; items := norm_family <$> items st |}.

(** * Further sample data *)

(** An item of a file that has neither [id] nor [itemId]. *)
Definition bare_kite : obj := list_to_map [("itemName", JStr "Kite")].

Definition store_with_bare : store := {| people := [lauren]; items := [bike; bare_kite] |}.

(** A claim that names no viewer: [{ itemId }]. *)
Definition anonymous_claim (itemId : Z) : request :=
  {| param := ""; query := ∅; body := list_to_map [("itemId", JNum itemId)] |}.

(** PUT /api/admin/item/1 with a new name and, in vain, another id. *)
Definition rename_item : request :=
  {| param := "1"; query := ∅;
     body := list_to_map [("itemName", JStr "Trike"); ("id", JNum 99)] |}.

(** Two lines ending in line feeds. *)
Definition csv_two_lines : string :=
  "itemName,url" +:+ String LF ("Bike,x" +:+ String LF "").

(** A row with fewer cells than the header. *)
Definition csv_short_row : string :=
  "itemName,recipientCode" +:+ String LF ("Bike" +:+ String LF "").

Definition short_record : obj :=
  list_to_map [("itemname", JStr "Bike"); ("recipientcode", JStr "")].

(** POST /api/admin/person for BEN in the family smith, and the query of
    GET /api/recipients with which BEN then logs in. *)
Definition create_ben : request :=
  {| param := ""; query := ∅;
     body := list_to_map [("code", JStr "BEN"); ("name", JStr "Ben");
                          ("family", JStr "smith")] |}.

Definition login_ben : request :=
  {| param := "";
     query := list_to_map [("code", JStr "BEN"); ("family", JStr "smith")];
     body := ∅ |}.


(** A header and two rows: the first supplies the id 7, which no item has;
    the second leaves the id cell empty. *)
Definition csv_new_ids : string :=
  "id,itemName" +:+ String LF ("7,Kite" +:+ String LF (",Ball" +:+ String LF "")).

Definition kite_row : obj := list_to_map [("id", JStr "7"); ("itemname", JStr "Kite")].
Definition ball_row : obj := list_to_map [("id", JStr ""); ("itemname", JStr "Ball")].

(** The no-break space U+00A0, in UTF-8. *)
Definition nbsp : string :=
  String (ascii_of_nat 194) (String (ascii_of_nat 160) EmptyString).

(** The ideographic space U+3000, in UTF-8. *)
Definition wide_space : string :=
  String (ascii_of_nat 227) (String (ascii_of_nat 128)
    (String (ascii_of_nat 128) EmptyString)).


(** PUT /api/admin/person/LAUREN moving her to the family smith, typed
    with a no-break space before it and an ideographic space after it. *)
Definition move_lauren : request :=
  person_request "LAUREN" "default"
    (list_to_map [("family", JStr (nbsp +:+ "smith" +:+ wide_space))]).

(** * Properties *)

(** ** Normalization *)

Lemma max_seen_from_nonneg (its : list obj) (m : Z) :
  0 <= m ->
  0 <= foldl (fun m it =>
                Z.max (Z.max m (num_or0 (it !! "id"))) (num_or0 (it !! "itemId")))
             m its.
Proof.
  revert m. induction its as [|it its IH]; intros m Hm; simpl; [exact Hm|].
  apply IH. lia.
Qed.

Lemma max_seen_nonneg (its : list obj) : 0 <= max_seen its.
Proof. apply max_seen_from_nonneg. lia. Qed.

Lemma num_truthy_nonzero (n : option Z) :
  num_truthy n = true -> default 0 n <> 0.
Proof.
  destruct n as [n|]; simpl; [|discriminate].
  intros H Hn. subst n. discriminate.
Qed.

Lemma truthy_num (n : Z) : n <> 0 -> truthy (Some (JNum n)) = true.
Proof. intros Hn. simpl. destruct (Z.eqb_spec n 0); [contradiction|reflexivity]. Qed.

Lemma norm_id_spec (m : Z) (it : obj) :
  0 <= m ->
  0 <= (norm_id m it).1
  /\ truthy ((norm_id m it).2 !! "id") = true
  /\ forall k, k <> "id" -> (norm_id m it).2 !! k = it !! k.
Proof.
  intros Hm. unfold norm_id.
  destruct (truthy (it !! "id")) eqn:Hid; simpl.
  - auto.
  - destruct (num_truthy (to_number (it !! "itemId"))) eqn:Hn; simpl.
    + apply num_truthy_nonzero in Hn.
      set (n := default 0 (to_number (it !! "itemId"))) in *.
      split; [destruct (Z.gtb_spec n m); lia|].
      split; [rewrite lookup_insert_eq; by apply truthy_num|].
      intros k Hk. by rewrite lookup_insert_ne.
    + split; [lia|].
      split; [rewrite lookup_insert_eq; apply truthy_num; lia|].
      intros k Hk. by rewrite lookup_insert_ne.
Qed.

Lemma norm_id_truthy (m : Z) (it : obj) :
  truthy (it !! "id") = true -> norm_id m it = (m, it).
Proof. intros H. unfold norm_id. by rewrite H. Qed.

Lemma norm_details_spec (it : obj) :
  is_Some (norm_details it !! "details")
  /\ forall k, k <> "details" -> norm_details it !! k = it !! k.
Proof.
  unfold norm_details.
  destruct (it !! "details") as [d|] eqn:Hd.
  - split; [by rewrite Hd|done].
  - destruct (it !! "notes") as [[]|];
      (split; [rewrite lookup_insert_eq; by eexists
              |intros k Hk; by rewrite lookup_insert_ne]).
Qed.

Lemma norm_tags_spec (it : obj) :
  (exists l, norm_tags it !! "tags" = Some (JArr l))
  /\ forall k, k <> "tags" -> norm_tags it !! k = it !! k.
Proof.
  unfold norm_tags.
  destruct (it !! "tags") as [[|b|n|s|l|o]|] eqn:Ht;
    try (split; [by eexists|done]);
    (destruct (it !! "tag") as [[| | |tg| |]|];
     try destruct (negb (String.eqb (trim tg) ""));
     (split; [rewrite lookup_insert_eq; by eexists
             |intros k Hk; by rewrite lookup_insert_ne])).
Qed.

Lemma norm_claimed_spec (it : obj) :
  is_Some (norm_claimed it !! "claimedByCode")
  /\ forall k, k <> "claimedByCode" -> norm_claimed it !! k = it !! k.
Proof.
  unfold norm_claimed, has.
  destruct (it !! "claimedByCode") as [c|] eqn:Hc; simpl.
  - split; [by rewrite Hc|done].
  - split; [rewrite lookup_insert_eq; by eexists
           |intros k Hk; by rewrite lookup_insert_ne].
Qed.

Lemma norm_family_spec (o : obj) :
  truthy (norm_family o !! "family") = true
  /\ forall k, k <> "family" -> norm_family o !! k = o !! k.
Proof.
  unfold norm_family.
  destruct (negb (has "family" o) || negb (truthy (o !! "family"))) eqn:E.
  - split; [by rewrite lookup_insert_eq
           |intros k Hk; by rewrite lookup_insert_ne].
  - apply orb_false_elim in E as [_ E].
    apply negb_false_iff in E. done.
Qed.

Lemma norm_family_truthy (o : obj) :
  truthy (o !! "family") = true -> norm_family o = o.
Proof.
  intros H. unfold norm_family, has.
  destruct (o !! "family") as [f|]; [|discriminate].
  by rewrite H.
Qed.

Lemma normalize_item_spec (m : Z) (it : obj) :
  0 <= m ->
  0 <= (normalize_item m it).1 /\ normal_item (normalize_item m it).2.
Proof.
  intros Hm. unfold normalize_item.
  destruct (norm_id_spec m it Hm) as (Hm' & Hid & _).
  destruct (norm_id m it) as [m' it1]; simpl in *.
  split; [exact Hm'|].
  destruct (norm_details_spec it1) as [Hd Hdk].
  destruct (norm_tags_spec (norm_details it1)) as [Ht Htk].
  destruct (norm_claimed_spec (norm_tags (norm_details it1))) as [Hc Hck].
  destruct (norm_family_spec (norm_claimed (norm_tags (norm_details it1))))
    as [Hf Hfk].
  repeat split.
  - rewrite Hfk, Hck, Htk, Hdk by done. exact Hid.
  - rewrite Hfk, Hck, Htk by done. exact Hd.
  - destruct Ht as [l Hl]. exists l. rewrite Hfk, Hck by done. exact Hl.
  - rewrite Hfk by done. exact Hc.
  - exact Hf.
Qed.

Lemma normalize_item_fix (m : Z) (it : obj) :
  normal_item it -> normalize_item m it = (m, it).
Proof.
  intros (Hid & [d Hd] & [l Ht] & [c Hc] & Hf).
  unfold normalize_item. rewrite (norm_id_truthy _ _ Hid).
  assert (norm_details it = it) as -> by (unfold norm_details; by rewrite Hd).
  assert (norm_tags it = it) as -> by (unfold norm_tags; by rewrite Ht).
  assert (norm_claimed it = it) as ->
    by (unfold norm_claimed, has; by rewrite Hc).
  by rewrite (norm_family_truthy _ Hf).
Qed.

Lemma normalize_items_normal (its : list obj) (m : Z) :
  0 <= m -> Forall normal_item (normalize_items m its).
Proof.
  revert m. induction its as [|it its IH]; intros m Hm; simpl; [constructor|].
  destruct (normalize_item_spec m it Hm) as [Hm' Hn].
  destruct (normalize_item m it) as [m' it']; simpl in *.
  constructor; [exact Hn|by apply IH].
Qed.

Lemma normalize_items_fix (its : list obj) (m : Z) :
  Forall normal_item its -> normalize_items m its = its.
Proof.
  intros H. revert m. induction H as [|it its Hit _ IH]; intros m; simpl; [done|].
  rewrite (normalize_item_fix _ _ Hit). by rewrite IH.
Qed.

Lemma norm_family_idem (p : obj) : norm_family (norm_family p) = norm_family p.
Proof. apply norm_family_truthy, norm_family_spec. Qed.

(** C5: the normalization that [loadData] performs on every load is
    idempotent: for every store, normalizing the normalized store gives
    the normalized store again. *)
Theorem normalize_idempotent (data : store) :
  normalize (normalize data) = normalize data.
Proof.
  unfold normalize; simpl. f_equal.
  - rewrite <- list_fmap_compose. apply list_fmap_ext.
    intros _ p _. apply norm_family_idem.
  - apply normalize_items_fix, normalize_items_normal, max_seen_nonneg.
Qed.

(** Normalization writes five properties and no other. *)
Lemma normalize_item_lookup (m : Z) (it : obj) (k : string) :
  k <> "id" -> k <> "details" -> k <> "tags" -> k <> "claimedByCode" ->
  k <> "family" ->
  (normalize_item m it).2 !! k = it !! k.
Proof.
  intros H1 H2 H3 H4 H5. unfold normalize_item.
  pose proof (norm_id_spec m it) as Hid.
  destruct (norm_id m it) as [m' it1] eqn:E; simpl.
  rewrite (proj2 (norm_family_spec _)), (proj2 (norm_claimed_spec _)),
    (proj2 (norm_tags_spec _)), (proj2 (norm_details_spec _)) by done.
  unfold norm_id in E.
  destruct (negb (truthy (it !! "id"))); [|by injection E as _ <-].
  destruct (num_truthy _); injection E as _ <-; by rewrite lookup_insert_ne.
Qed.

(** An id that is already there stays; so does the running maximum. *)
Lemma normalize_item_id_kept (m : Z) (it : obj) :
  truthy (it !! "id") = true ->
  (normalize_item m it).1 = m /\ (normalize_item m it).2 !! "id" = it !! "id".
Proof.
  intros H. unfold normalize_item. rewrite (norm_id_truthy _ _ H). simpl.
  split; [done|].
  by rewrite (proj2 (norm_family_spec _)), (proj2 (norm_claimed_spec _)),
    (proj2 (norm_tags_spec _)), (proj2 (norm_details_spec _)).
Qed.

Lemma normalize_item_details_kept (m : Z) (it : obj) :
  is_Some (it !! "details") ->
  (normalize_item m it).2 !! "details" = it !! "details".
Proof.
  intros [d Hd]. unfold normalize_item.
  pose proof (norm_id_spec m it) as Hid.
  destruct (norm_id m it) as [m' it1] eqn:E; simpl.
  rewrite (proj2 (norm_family_spec _)), (proj2 (norm_claimed_spec _)),
    (proj2 (norm_tags_spec _)) by done.
  assert (it1 !! "details" = Some d) as Hd1.
  { unfold norm_id in E.
    destruct (negb (truthy (it !! "id"))); [|by injection E as _ <-].
    destruct (num_truthy _); injection E as _ <-; by rewrite lookup_insert_ne. }
  unfold norm_details. by rewrite Hd1, Hd.
Qed.

Lemma normalize_item_tags_kept (m : Z) (it : obj) (l : list json) :
  it !! "tags" = Some (JArr l) ->
  (normalize_item m it).2 !! "tags" = Some (JArr l).
Proof.
  intros Ht. unfold normalize_item.
  destruct (norm_id m it) as [m' it1] eqn:E; simpl.
  rewrite (proj2 (norm_family_spec _)), (proj2 (norm_claimed_spec _)) by done.
  assert (norm_details it1 !! "tags" = Some (JArr l)) as Ht1.
  { rewrite (proj2 (norm_details_spec _)) by done.
    unfold norm_id in E.
    destruct (negb (truthy (it !! "id"))); [|by injection E as _ <-].
    destruct (num_truthy _); injection E as _ <-; by rewrite lookup_insert_ne. }
  unfold norm_tags. by rewrite Ht1.
Qed.

Lemma normalize_items_ids (its : list obj) (m : Z) :
  Forall (fun it => truthy (it !! "id") = true) its ->
  item_ids (normalize_items m its) = item_ids its.
Proof.
  intros H. revert m. induction H as [|it its Hit _ IH]; intros m; simpl; [done|].
  destruct (normalize_item_id_kept m it Hit) as [Hm Hid].
  destruct (normalize_item m it) as [m' it']; simpl in *. subst m'.
  unfold item_ids in *. simpl. by rewrite Hid, IH.
Qed.

Lemma loaded_items_normal (raw : store) :
  Forall normal_item (items (normalize raw)).
Proof. apply normalize_items_normal, max_seen_nonneg. Qed.

(** ** Claim and unclaim *)

Lemma strict_eq_true (a b : jsval) : strict_eq a b = true -> a = b.
Proof.
  destruct a as [[| x | x | x | |]|], b as [[| y | y | y | |]|];
    simpl; try discriminate; try reflexivity; intros H.
  - apply Bool.eqb_prop in H. by subst.
  - apply Z.eqb_eq in H. by subst.
  - apply String.eqb_eq in H. by subst.
Qed.

Lemma item_matches_has_id (n : Z) (family : jsval) (it : obj) :
  item_matches (Some n) family it = true <-> has_id n family it.
Proof.
  unfold item_matches, has_id. rewrite andb_true_iff, String.eqb_eq.
  split; intros [H1 H2]; split; try done.
  - by apply strict_eq_true in H1.
  - rewrite H1. simpl. apply Z.eqb_refl.
Qed.

Lemma find_item_at (its : list obj) (n : Z) (family : jsval) (idx : nat) (it : obj) :
  item_at its n family idx it ->
  list_find (fun i => item_matches (Some n) family i) its = Some (idx, it).
Proof.
  intros (Hl & Hid & Hfirst). apply list_find_Some.
  split; [done|]. split.
  - apply Is_true_true, item_matches_has_id, Hid.
  - intros j y Hj Hlt Hy. apply (Hfirst j y Hj Hlt).
    by apply item_matches_has_id, Is_true_true.
Qed.

(** When ids are unique, an item with the id is the item [find] returns. *)
Lemma unique_item_at (its : list obj) (n : Z) (family : jsval) (it : obj) :
  NoDup (item_ids its) -> it ∈ its -> has_id n family it ->
  exists idx, item_at its n family idx it.
Proof.
  intros Hnd Hin Hid. apply list_elem_of_lookup in Hin as [idx Hl].
  exists idx. split; [done|]. split; [done|].
  intros j it' Hj Hlt [Hid' _]. destruct Hid as [Hid _].
  assert (j = idx); [|lia].
  apply (NoDup_lookup _ _ _ (Some (JNum n)) Hnd); unfold item_ids;
    rewrite list_lookup_fmap; [by rewrite Hj; simpl; f_equal|by rewrite Hl; simpl; f_equal].
Qed.



Lemma assign_lookup_ne (k k' : string) (v : jsval) (o : obj) :
  k <> k' -> assign k v o !! k' = o !! k'.
Proof.
  intros H. destruct v; simpl; [by apply lookup_insert_ne|by apply lookup_delete_ne].
Qed.


(** On first use there is no file: [loadData] creates the empty store
    and the claim finds nothing. *)
Lemma claim_first_use (req : request) :
  claim req None = (failure 200%nat "Item not found.", Some empty_store).
Proof. reflexivity. Qed.

(** What [claim] does once the file is loaded and the item looked up. *)
Lemma claim_found (raw : store) (req : request) (idx : nat) (item : obj) :
  list_find (fun i => item_matches (to_number (body req !! "itemId"))
                                   (claim_family req) i)
            (items (normalize raw)) = Some (idx, item) ->
  claim req (Some raw) =
    if truthy (item !! "claimedByCode")
       && negb (strict_eq (item !! "claimedByCode") (body req !! "viewerCode"))
    then (failure 200%nat "This item was already claimed.", Some raw)
    else (success,
          Some (set_items (normalize raw)
                  (<[idx := assign "claimedByCode" (body req !! "viewerCode") item]>
                     (items (normalize raw))))).
Proof.
  intros Hfind. unfold claim, mbind, M_bind, loadData. rewrite Hfind.
  by destruct (_ && _).
Qed.

Lemma claim_not_found (raw : store) (req : request) :
  list_find (fun i => item_matches (to_number (body req !! "itemId"))
                                   (claim_family req) i)
            (items (normalize raw)) = None ->
  claim req (Some raw) = (failure 200%nat "Item not found.", Some raw).
Proof.
  intros Hfind. unfold claim, mbind, M_bind, loadData. by rewrite Hfind.
Qed.

Lemma find_item_cases (its : list obj) (idNum : option Z) (family : jsval) :
  (exists n idx it,
      idNum = Some n /\ item_at its n family idx it
      /\ list_find (fun i => item_matches idNum family i) its = Some (idx, it))
  \/ (no_item its idNum family
      /\ list_find (fun i => item_matches idNum family i) its = None).
Proof.
  destruct (list_find (fun i => item_matches idNum family i) its)
    as [[idx it]|] eqn:Hfind.
  - left. apply list_find_Some in Hfind as (Hl & Hm & Hfirst).
    destruct idNum as [n|]; [|by apply Is_true_true in Hm].
    exists n, idx, it. split; [done|]. split; [|done].
    split; [done|]. split.
    + by apply item_matches_has_id, Is_true_true.
    + intros j y Hj Hlt Hy. apply (Hfirst j y Hj Hlt).
      by apply Is_true_true, item_matches_has_id.
  - right. split; [|done].
    apply list_find_None in Hfind. rewrite Forall_forall in Hfind.
    intros n it Hn Hin Hid. subst idNum.
    apply (Hfind it Hin). by apply Is_true_true, item_matches_has_id.
Qed.

Lemma failure_not_success (code : nat) (message : string) :
  failure code message <> success.
Proof.
  intros H.
  apply (f_equal (fun r => match payload r with
                           | JObj o => o !! "success"
                           | _ => None
                           end)) in H.
  vm_compute in H. discriminate.
Qed.

Lemma unclaim_found (raw : store) (req : request) (idx : nat) (item : obj) :
  list_find (fun i => item_matches (to_number (body req !! "itemId"))
                                   (claim_family req) i)
            (items (normalize raw)) = Some (idx, item) ->
  unclaim req (Some raw) =
    if negb (strict_eq (item !! "claimedByCode") (body req !! "viewerCode"))
    then (failure 200%nat "You can only unclaim items you claimed.", Some raw)
    else (success,
          Some (set_items (normalize raw)
                  (<[idx := <["claimedByCode" := JNull]> item]>
                     (items (normalize raw))))).
Proof.
  intros Hfind. unfold unclaim, mbind, M_bind, loadData. rewrite Hfind.
  by destruct (negb _).
Qed.


(** The three statements about claim and unclaim share the request, the
    file it is served from, and the lookup the handlers make. *)
Section ClaimUnclaim.
Variable raw : store.
Variable req : request.

Let data := normalize raw.
Let viewerCode := body req !! "viewerCode".
Let idNum := to_number (body req !! "itemId").
Let family := claim_family req.




End ClaimUnclaim.

(** ** People *)

(** A property of characters that holds of the 256 of them holds of
    every character. *)
Lemma all_ascii (P : ascii -> bool) :
  forallb (fun n => P (ascii_of_nat n)) (seq 0 256) = true ->
  forall c, P c = true.
Proof.
  intros H c. rewrite forallb_forall in H.
  rewrite <- (ascii_nat_embedding c). apply H. apply in_seq.
  pose proof (nat_ascii_bounded c). lia.
Qed.

(** [toLowerCase] sends two characters to the same one exactly when they
    are the same letter of the alphabet. *)
Lemma lower_char_same_letter (a b : ascii) :
  Ascii.eqb (lower_char a) (lower_char b) = same_letter a b.
Proof.
  assert (forall a,
             forallb (fun m => Bool.eqb
                                 (Ascii.eqb (lower_char a) (lower_char (ascii_of_nat m)))
                                 (same_letter a (ascii_of_nat m)))
                     (seq 0 256) = true) as H.
  { apply all_ascii. vm_compute. reflexivity. }
  specialize (H a). rewrite forallb_forall in H.
  specialize (H (nat_of_ascii b)). rewrite ascii_nat_embedding in H.
  apply Bool.eqb_prop, H, in_seq.
  pose proof (nat_ascii_bounded b). lia.
Qed.

Lemma toLowerCase_same_letters (s t : string) :
  toLowerCase s = toLowerCase t <-> same_letters s t = true.
Proof.
  revert t. induction s as [|a s IH]; intros [|b t]; simpl; try done.
  rewrite andb_true_iff, <- IH, <- lower_char_same_letter.
  split.
  - intros [= Hc Hr]. split; [|done]. rewrite Hc. apply Ascii.eqb_refl.
  - intros [Hc Hr]. apply Ascii.eqb_eq in Hc. by rewrite Hc, Hr.
Qed.

Lemma same_code_ci_spec (code : string) (p : obj) :
  same_code_ci code p = true
  <-> same_letters (to_String (p !! "code")) code = true.
Proof.
  unfold same_code_ci. by rewrite String.eqb_eq, toLowerCase_same_letters.
Qed.


Lemma find_code_free (ps : list obj) (code : string) :
  ~ code_taken ps code ->
  list_find (fun p => same_code_ci code p) ps = None.
Proof.
  intros Hfree. apply list_find_None, Forall_forall. intros p Hin Hp.
  apply Hfree. exists p. split; [done|].
  by apply same_code_ci_spec, Is_true_true.
Qed.

Lemma js_or_is_Some (a : jsval) (b : json) : is_Some (a ||| Some b).
Proof.
  unfold js_or. destruct (truthy a) eqn:E; [|by eexists].
  destruct a; [by eexists|discriminate].
Qed.


Lemma person_matches_spec (code : string) (family : jsval) (p : obj) :
  person_matches code family p = true <-> is_person code family p.
Proof.
  unfold person_matches, is_person. by rewrite andb_true_iff, !String.eqb_eq.
Qed.

Lemma owned_by_spec (code : string) (family : jsval) (it : obj) :
  owned_by code family it = true <-> is_item_of code family it.
Proof.
  unfold owned_by, is_item_of. by rewrite andb_true_iff, !String.eqb_eq.
Qed.

Lemma find_person (ps : list obj) (code : string) (family : jsval) :
  (exists p, p ∈ ps /\ is_person code family p) ->
  exists idx person,
    list_find (fun p => person_matches code family p) ps = Some (idx, person)
    /\ ps !! idx = Some person /\ is_person code family person.
Proof.
  intros (p & Hin & Hp).
  destruct (list_find (fun p => person_matches code family p) ps)
    as [[idx person]|] eqn:Hfind.
  - exists idx, person. split; [done|].
    apply list_find_Some in Hfind as (Hl & Hm & _).
    split; [done|]. by apply person_matches_spec, Is_true_true.
  - apply list_find_None in Hfind. rewrite Forall_forall in Hfind.
    exfalso. apply (Hfind p Hin). by apply Is_true_true, person_matches_spec.
Qed.

(** C8: DELETE /admin/person/:code.  For every store whose loaded form
    holds a person with the given code and family, the call succeeds and
    persists the loaded store with exactly that person removed (at its
    position [idx]; every other person stays, in order) and with exactly
    the items removed whose recipientCode is that code and whose family is
    that family (every other item stays, in order, as loaded).  People and
    items of another family stay, whatever their code. *)
Theorem delete_person_exact (raw : store) (req : request) :
  let code := param req in
  let family := query req !! "family" ||| default_family in
  let data := normalize raw in
  code <> "" ->
  (exists p, p ∈ people data /\ is_person code family p) ->
  exists idx person after,
    people data !! idx = Some person
    /\ is_person code family person
    /\ delete_person req (Some raw) = (success, Some after)
    /\ people after = delete idx (people data)
    /\ items after = filter (fun it => negb (owned_by code family it)) (items data)
    /\ (forall it, it ∈ items after <->
                   it ∈ items data /\ ~ is_item_of code family it)
    /\ (forall p, p ∈ people data -> family_of p <> to_String family ->
                  p ∈ people after)
    /\ (forall it, it ∈ items data -> family_of it <> to_String family ->
                   it ∈ items after).
Proof.
  intros code family data Hcode Hex.
  destruct (find_person _ _ _ Hex) as (idx & person & Hfind & Hl & Hp).
  exists idx, person,
    {| people := delete idx (people data);
       items := filter (fun it => negb (owned_by code family it)) (items data) |}.
  assert (forall it, it ∈ filter (fun it => negb (owned_by code family it)) (items data)
                     <-> it ∈ items data /\ ~ is_item_of code family it) as Hitems.
  { intros it. rewrite list_elem_of_filter, <- owned_by_spec.
    destruct (owned_by code family it); simpl; intuition congruence. }
  split; [done|]. split; [done|]. split.
  { unfold delete_person. fold code. apply String.eqb_neq in Hcode. rewrite Hcode.
    unfold mbind, M_bind, loadData. fold data family. by rewrite Hfind. }
  clearbody data.
  split; [done|]. split; [done|]. split; [exact Hitems|]. split.
  - simpl. intros p Hin Hfam.
    apply list_elem_of_lookup in Hin as [j Hj].
    assert (j <> idx) as Hne.
    { intros ->. rewrite Hl in Hj. injection Hj as <-. by destruct Hp. }
    apply list_elem_of_lookup.
    destruct (decide (j < idx)%nat).
    + exists j. by rewrite list_lookup_delete_lt.
    + exists (pred j). rewrite list_lookup_delete_ge by lia.
      by replace (S (pred j)) with j by lia.
  - simpl. intros it Hin Hfam. apply Hitems. split; [done|].
    by intros [_ ?].
Qed.

Lemma edit_person_family (body : obj) (lookupFamily : jsval) (person : obj) (f : json) :
  has "family" body = true ->
  new_family body = Some f ->
  exists person',
    edit_person body lookupFamily person = Some person'
    /\ person' !! "family" = Some f
    /\ forall k, k <> "name" -> k <> "preferences" -> k <> "family" ->
                 person' !! k = person !! k.
Proof.
  intros Hhas Hnew. unfold edit_person. rewrite Hhas, Hnew. simpl.
  eexists. split; [reflexivity|]. split; [apply lookup_insert_eq|].
  intros k Hk1 Hk2 Hk3. rewrite lookup_insert_ne by done.
  destruct (has "preferences" body); destruct (has "name" body);
    rewrite ?assign_lookup_ne by done; by rewrite ?lookup_insert_ne by done.
Qed.

Lemma new_family_string (body : obj) (f : json) :
  new_family body = Some f ->
  exists s, f = JStr s /\ s <> "" /\ to_String (Some f ||| default_family) = s.
Proof.
  unfold new_family.
  destruct (body !! "family" ||| Some (JStr "")) as [[| | |s| |]|];
    try discriminate.
  intros [= <-].
  destruct (String.eqb_spec (trim s) ""); simpl.
  - by exists "default".
  - exists (trim s). split; [done|]. split; [done|].
    unfold js_or. simpl. by destruct (String.eqb_spec (trim s) "").
Qed.

(** C9: PUT /admin/person/:code with a family value in the body.  The
    call persists the loaded store with only that person's record replaced:
    the items are exactly the loaded items.  The person's record now
    carries the new family and is listed by GET /recipients under it;
    every item that belonged to the person, with that recipientCode in the
    family the person was looked up in, is still in the store with that
    old family, so that when the new family differs no family value pairs
    the person with such an item any more, and GET /wishlist for the new
    family does not list the item.  The new family is the trimmed text of
    the body's family; the name, if the body has one, is a plain value. *)
Theorem update_person_family_frame (raw : store) (req : request) (f : json) :
  let code := param req in
  let lookupFamily :=
    query req !! "family" ||| body req !! "family" ||| default_family in
  let data := normalize raw in
  code <> "" ->
  (exists p, p ∈ people data /\ is_person code lookupFamily p) ->
  has "family" (body req) = true ->
  new_family (body req) = Some f ->
  plain_text (body req !! "name") = true ->
  exists idx person person',
    let after := {| people := <[idx := person']> (people data);
                    items := items data |} in
    people data !! idx = Some person
    /\ is_person code lookupFamily person
    /\ update_person req (Some raw)
       = ({| status := 200%nat;
             payload := js_object [("success", JBool true);
                                   ("person", JObj person')] |},
          Some after)
    /\ person' !! "code" = person !! "code"
    /\ person' !! "family" = Some f
    /\ family_of person' = to_String_json f
    /\ person' ∈ recipients_of (Some f) after
    /\ (to_String_json f <> to_String lookupFamily ->
        forall it, it ∈ items data -> is_item_of code lookupFamily it ->
                   it ∈ items after
                   /\ family_of it = to_String lookupFamily
                   /\ (forall family, ~ (is_person code family person'
                                         /\ is_item_of code family it))
                   /\ forall recipientCode,
                       it ∉ wishlist_items recipientCode (Some f) after).
Proof.
  intros code lookupFamily data Hcode Hex Hhas Hnew _.
  destruct (find_person _ _ _ Hex) as (idx & person & Hfind & Hl & Hp).
  destruct (edit_person_family _ lookupFamily person _ Hhas Hnew)
    as (person' & Hedit & Hfam & Hrest).
  exists idx, person, person'. intros after.
  split; [done|]. split; [done|]. split.
  { unfold update_person. fold code. apply String.eqb_neq in Hcode. rewrite Hcode.
    unfold mbind, M_bind, loadData. fold data lookupFamily.
    by rewrite Hfind, Hedit. }
  split; [by apply Hrest|]. split; [done|].
  destruct (new_family_string _ _ Hnew) as (s & -> & Hs & Hstr).
  assert (family_of person' = s) as Hfo by (unfold family_of; by rewrite Hfam).
  split; [done|]. split.
  { unfold recipients_of. apply list_elem_of_filter. split.
    - apply Is_true_true, String.eqb_eq. by rewrite Hfo.
    - apply list_elem_of_lookup. exists idx. simpl.
      apply list_lookup_insert_eq. by eapply lookup_lt_Some. }
  intros Hdiff it Hin Hit. destruct Hit as [Hrc Hold].
  split; [done|]. split; [done|]. split.
  - intros family [[_ Hpf] [_ Hif]]. simpl in Hdiff. congruence.
  - intros recipientCode Hw. unfold wishlist_items in Hw.
    apply list_elem_of_filter in Hw as [Hm _].
    apply Is_true_true, andb_true_iff in Hm as [_ Hm].
    apply String.eqb_eq in Hm. simpl in Hm, Hdiff. congruence.
Qed.

(** ** What a write persists *)

(** Every request leaves a file; either the file is untouched, or it is
    the loaded store with its item array changed in one of four ways. *)
Lemma handle_shape (raw : store) (o : op) :
  (handle o (Some raw)).2 = Some raw
  \/ exists after,
      (handle o (Some raw)).2 = Some after
      /\ items_change o (items (normalize raw)) (items after).
Proof.
  destruct o as [req|req|req|req|req|req|req]; simpl.
  - unfold upload_csv_text.
    destruct (body req !! "csv") as [[| | |csv| |]|] eqn:Hcsv; try by left.
    destruct (negb (String.eqb csv "")); [|by left].
    destruct (parseCsvText csv) as [|r rs] eqn:Hrec; [by left|].
    right.
    exists (set_items (normalize raw)
              (items (normalize raw)
               ++ csv_items (body req) (max_seen (items (normalize raw))) (r :: rs))).
    split; [reflexivity|]. rewrite <- Hrec. by apply items_appended.
  - unfold update_item.
    destruct (negb _); [by left|].
    unfold mbind, M_bind, loadData.
    destruct (list_find _ _) as [[idx item]|] eqn:Hfind; [|by left].
    destruct (edit_item _ _ item) as [item'|] eqn:Hedit; [|by left].
    right. eexists. split; [reflexivity|]. simpl.
    apply list_find_Some in Hfind as (Hl & _).
    eapply item_replaced; [done|]. by eapply change_edited.
  - unfold update_person.
    destruct (String.eqb _ _); [by left|].
    unfold mbind, M_bind, loadData.
    destruct (list_find _ _) as [[idx person]|]; [|by left].
    destruct (edit_person _ _ person) as [person'|]; [|by left].
    right. eexists. split; [reflexivity|]. apply items_kept.
  - unfold create_person.
    destruct (String.eqb _ _); [by left|].
    unfold mbind, M_bind, loadData.
    destruct (list_find _ _) as [r|]; [by left|].
    right. eexists. split; [reflexivity|]. apply items_kept.
  - unfold delete_person.
    destruct (String.eqb _ _); [by left|].
    unfold mbind, M_bind, loadData.
    destruct (list_find _ _) as [[idx person]|]; [|by left].
    right. eexists. split; [reflexivity|]. apply items_removed.
  - unfold claim, mbind, M_bind, loadData.
    destruct (list_find _ _) as [[idx item]|] eqn:Hfind; [|by left].
    destruct (_ && _); [by left|].
    right. eexists. split; [reflexivity|]. simpl.
    apply list_find_Some in Hfind as (Hl & _).
    eapply item_replaced; [done|]. by eapply change_claimed.
  - unfold unclaim, mbind, M_bind, loadData.
    destruct (list_find _ _) as [[idx item]|] eqn:Hfind; [|by left].
    destruct (negb _); [by left|].
    right. eexists. split; [reflexivity|]. simpl.
    apply list_find_Some in Hfind as (Hl & _).
    eapply item_replaced; [done|]. by eapply (change_claimed _ _ (Some JNull)).
Qed.

Lemma put_string_lookup_ne (k k' : string) (body item : obj) :
  k <> k' -> put_string k body item !! k' = item !! k'.
Proof.
  intros H. unfold put_string. destruct (has k body); [|done].
  by rewrite lookup_insert_ne.
Qed.

Lemma put_notes_lookup_ne (k : string) (body item : obj) :
  k <> "details" -> put_notes body item !! k = item !! k.
Proof.
  intros H. unfold put_notes. destruct (has "notes" body); [|done].
  by rewrite lookup_insert_ne.
Qed.

Lemma put_claimed_lookup_ne (k : string) (body item : obj) :
  k <> "claimedByCode" -> put_claimed body item !! k = item !! k.
Proof.
  intros H. unfold put_claimed. destruct (has "claimedByCode" body); [|done].
  by rewrite assign_lookup_ne.
Qed.

Lemma put_tags_lookup_ne (k : string) (body item : obj) :
  k <> "tags" -> put_tags body item !! k = item !! k.
Proof.
  intros H. unfold put_tags.
  destruct (body !! "tags") as [[| | |s|l|]|]; try done;
    by rewrite lookup_insert_ne.
Qed.

Lemma put_tags_array (body item : obj) :
  (exists l, item !! "tags" = Some (JArr l)) ->
  exists l, put_tags body item !! "tags" = Some (JArr l).
Proof.
  intros Ht. unfold put_tags.
  destruct (body !! "tags") as [[| | |s|l|]|]; try done;
    rewrite lookup_insert_eq; by eexists.
Qed.

Lemma sync_tag_spec (item item' : obj) :
  sync_tag item = Some item' ->
  (forall k, k <> "tag" -> item' !! k = item !! k)
  /\ forall l, item !! "tags" = Some (JArr l) ->
               item' !! "tag" = Some (JStr (array_join "/" l)).
Proof.
  unfold sync_tag. intros H.
  destruct (item !! "tags") as [t|] eqn:Ht.
  - destruct t as [|b|n|s|l|o];
      try (destruct (truthy _); [discriminate|]);
      injection H as <-;
      (split; [intros k Hk; by rewrite lookup_insert_ne|]);
      intros l' [= <-] || intros l' [=].
    by rewrite lookup_insert_eq.
  - simpl in H. injection H as <-.
    split; [intros k Hk; by rewrite lookup_insert_ne|]. intros l' [=].
Qed.

(** The admin update leaves every property it does not name as it was. *)
Lemma edit_item_lookup (body : obj) (family : jsval) (item item' : obj) (k : string) :
  edit_item body family item = Some item' ->
  k <> "recipientCode" -> k <> "recipientName" -> k <> "itemName" ->
  k <> "details" -> k <> "url" -> k <> "claimedByCode" -> k <> "tags" ->
  k <> "notes" -> k <> "tag" -> k <> "family" ->
  item' !! k = item !! k.
Proof.
  unfold edit_item. intros H ? ? ? ? ? ? ? ? ? ?.
  destruct (sync_tag _) as [it1|] eqn:Hsync; [|discriminate].
  simpl in H. injection H as <-.
  apply sync_tag_spec in Hsync as [Hk _].
  assert (it1 !! k = item !! k) as <-.
  { rewrite Hk, assign_lookup_ne, put_tags_lookup_ne, put_claimed_lookup_ne,
      put_string_lookup_ne, put_notes_lookup_ne, !put_string_lookup_ne by done.
    done. }
  destruct (negb (truthy (it1 !! "family"))); [|done].
  by rewrite assign_lookup_ne.
Qed.

Lemma item_change_id (item item' : obj) :
  item_change item item' -> item' !! "id" = item !! "id".
Proof.
  intros [v ->|body family Hedit].
  - by apply assign_lookup_ne.
  - by apply (edit_item_lookup _ _ _ _ _ Hedit).
Qed.

(** ** Ids *)

Lemma max_seen_from_bound (its : list obj) (m : Z) (it : obj) :
  it ∈ its ->
  num_or0 (it !! "id")
  <= foldl (fun m it =>
              Z.max (Z.max m (num_or0 (it !! "id"))) (num_or0 (it !! "itemId")))
           m its.
Proof.
  assert (forall (l : list obj) m, m <= foldl (fun m it =>
              Z.max (Z.max m (num_or0 (it !! "id"))) (num_or0 (it !! "itemId")))
           m l) as Hmono.
  { induction l as [|x l IH]; intros m'; simpl; [lia|].
    etrans; [|apply IH]. lia. }
  revert m. induction its as [|x its IH]; intros m Hin.
  - by apply elem_of_nil in Hin.
  - simpl. apply elem_of_cons in Hin as [->|Hin]; [|by apply IH].
    etrans; [|apply Hmono]. lia.
Qed.

Lemma max_seen_bound (its : list obj) (it : obj) :
  it ∈ its -> num_or0 (it !! "id") <= max_seen its.
Proof. apply max_seen_from_bound. Qed.

(** A row without a numeric id gets [maxId + 1], which becomes the new
    [maxId]. *)
Lemma csv_item_fresh (body : obj) (m : Z) (r : obj) :
  no_numeric_id r ->
  (csv_item body m r).1 = m + 1
  /\ (csv_item body m r).2 !! "id" = Some (JNum (m + 1)).
Proof.
  unfold no_numeric_id, id_cell, csv_item. intros ->. simpl.
  split; [done|].
  rewrite lookup_insert_ne, assign_lookup_ne, assign_lookup_ne,
    lookup_insert_ne, !assign_lookup_ne, lookup_insert_ne by done.
  apply lookup_insert_eq.
Qed.

(** A row with a numeric id is stored with that id, and [maxId] rises to
    it if it is larger. *)
Lemma csv_item_supplied (body : obj) (m : Z) (r : obj) (n : Z) :
  supplies_id r n ->
  (csv_item body m r).1 = Z.max m n
  /\ (csv_item body m r).2 !! "id" = Some (JNum n).
Proof.
  unfold supplies_id, id_cell, csv_item. intros [-> Hn]. simpl.
  destruct (Z.eqb_spec n 0) as [|_]; [done|]. simpl.
  split; [destruct (Z.gtb_spec n m); lia|].
  rewrite lookup_insert_ne, assign_lookup_ne, assign_lookup_ne,
    lookup_insert_ne, !assign_lookup_ne, lookup_insert_ne by done.
  apply lookup_insert_eq.
Qed.

Lemma csv_item_cases (r : obj) :
  (exists n, supplies_id r n) \/ no_numeric_id r.
Proof.
  unfold supplies_id, no_numeric_id.
  destruct (to_number (id_cell r)) as [n|]; [|by right].
  destruct (Z.eqb_spec n 0) as [->|Hn]; [by right|].
  left. by exists n.
Qed.

Lemma csv_items_app (body : obj) (m : Z) (pre post : list obj) :
  csv_items body m (pre ++ post)
  = csv_items body m pre ++ csv_items body (csv_max body m pre) post.
Proof.
  revert m. induction pre as [|r pre IH]; intros m; [done|].
  cbn [app csv_items csv_max].
  destruct (csv_item body m r) as [m' out]. cbn [fst].
  by rewrite IH.
Qed.

Lemma csv_max_app (body : obj) (m : Z) (pre post : list obj) :
  csv_max body m (pre ++ post) = csv_max body (csv_max body m pre) post.
Proof.
  revert m. induction pre as [|r pre IH]; intros m; [done|].
  cbn [app csv_max]. by rewrite IH.
Qed.

(** While the import goes through its rows, no two items share an id and
    no id is larger than the running [maxId], provided every supplied id
    is new when its row is reached. *)
Lemma csv_items_unique (body : obj) (loaded records : list obj) :
  Forall (fun it => truthy (it !! "id") = true) loaded ->
  NoDup (item_ids loaded) ->
  supplied_ids_new body loaded records ->
  forall pre post,
    records = pre ++ post ->
    NoDup (item_ids (loaded ++ csv_items body (max_seen loaded) pre))
    /\ Forall (fun it => truthy (it !! "id") = true)
              (csv_items body (max_seen loaded) pre)
    /\ max_seen loaded <= csv_max body (max_seen loaded) pre
    /\ forall it, it ∈ loaded ++ csv_items body (max_seen loaded) pre ->
                  num_or0 (it !! "id") <= csv_max body (max_seen loaded) pre.
Proof.
  intros Hall Hnd Hnew pre.
  induction pre as [|r pre IH] using rev_ind; intros post Hrec.
  - cbn [csv_items csv_max]. rewrite app_nil_r.
    split; [done|]. split; [constructor|]. split; [lia|].
    intros it Hin. by apply max_seen_bound.
  - rewrite <- app_assoc in Hrec. cbn [app] in Hrec.
    destruct (IH (r :: post) Hrec) as (Hnd' & Hall' & Hmono & Hbound).
    rewrite csv_items_app, csv_max_app. cbn [csv_items csv_max].
    set (M := csv_max body (max_seen loaded) pre) in *.
    set (old := csv_items body (max_seen loaded) pre) in *.
    pose proof (max_seen_nonneg loaded) as Hm0.
    assert (exists k,
               (csv_item body M r).2 !! "id" = Some (JNum k)
               /\ k <> 0 /\ M <= (csv_item body M r).1
               /\ k <= (csv_item body M r).1
               /\ Some (JNum k) ∉ item_ids (loaded ++ old)) as
        (k & Hid & Hk0 & HM & Hk & Hfresh).
    { destruct (csv_item_cases r) as [[n Hn]|Hno].
      - destruct (csv_item_supplied body M r n Hn) as [Hmax Hid].
        exists n. split; [done|]. split; [by destruct Hn|].
        rewrite Hmax. split; [lia|]. split; [lia|].
        by apply (Hnew pre r post n).
      - destruct (csv_item_fresh body M r Hno) as [Hmax Hid].
        exists (M + 1). split; [done|]. split; [lia|].
        rewrite Hmax. split; [lia|]. split; [lia|].
        intros Hin. apply list_elem_of_fmap in Hin as (it & Hit & Hin).
        pose proof (Hbound it Hin) as Hb. rewrite <- Hit in Hb.
        unfold num_or0 in Hb. simpl in Hb. lia. }
    destruct (csv_item body M r) as [M' out]. cbn [fst snd] in *.
    rewrite app_assoc.
    split; [|split; [|split]].
    + unfold item_ids in *. rewrite fmap_app. apply NoDup_app.
      split; [done|]. split; [|cbn; rewrite Hid; apply NoDup_singleton].
      intros x Hx Hx'. cbn in Hx'. rewrite Hid in Hx'.
      apply list_elem_of_singleton in Hx'. by subst x.
    + apply Forall_app. split; [done|].
      constructor; [|constructor]. rewrite Hid. by apply truthy_num.
    + lia.
    + intros it Hin. apply elem_of_app in Hin as [Hin|Hin].
      * pose proof (Hbound it Hin). lia.
      * apply list_elem_of_singleton in Hin. subst it. rewrite Hid.
        unfold num_or0. simpl. lia.
Qed.

Lemma ids_unique_change (o : op) (loaded after : list obj) :
  (forall req csv, o = UploadCsv req -> body req !! "csv" = Some (JStr csv) ->
                   supplied_ids_new (body req) loaded (parseCsvText csv)) ->
  items_change o loaded after ->
  Forall (fun it => truthy (it !! "id") = true) loaded ->
  NoDup (item_ids loaded) ->
  Forall (fun it => truthy (it !! "id") = true) after
  /\ NoDup (item_ids after).
Proof.
  intros Hfresh Hch Hall Hnd.
  destruct Hch as [o loaded|o loaded idx item item' Hl Hc|o loaded code family
                  |req csv loaded Hcsv].
  - done.
  - apply item_change_id in Hc.
    split.
    + apply Forall_insert; [done|]. rewrite Hc.
      rewrite Forall_forall in Hall. apply Hall.
      apply list_elem_of_lookup. by exists idx.
    + unfold item_ids. rewrite list_fmap_insert, Hc.
      rewrite list_insert_id; [done|]. by rewrite list_lookup_fmap, Hl.
  - split.
    + apply Forall_forall. intros it Hin.
      apply list_elem_of_filter in Hin as [_ Hin].
      rewrite Forall_forall in Hall. by apply Hall.
    + eapply sublist_NoDup; [exact Hnd|].
      apply fmap_sublist, sublist_filter.
  - specialize (Hfresh req csv eq_refl Hcsv).
    destruct (csv_items_unique (body req) loaded (parseCsvText csv) Hall Hnd Hfresh
                (parseCsvText csv) [])
      as (Hnd' & Hall' & _ & _); [by rewrite app_nil_r|].
    split; [|done]. apply Forall_app. by split.
Qed.

Lemma ids_unique_step (raw : store) (o : op) :
  ids_unique raw -> import_ok o (Some raw) ->
  exists after, (handle o (Some raw)).2 = Some after /\ ids_unique after.
Proof.
  intros [Hall Hnd] Hok.
  destruct (handle_shape raw o) as [Hsame|(after & Hafter & Hch)].
  - by exists raw.
  - exists after. split; [done|].
    apply (ids_unique_change o (items (normalize raw))); try done.
    + intros req csv -> Hcsv. by destruct (Hok raw csv eq_refl Hcsv).
    + simpl. apply Forall_forall. intros it Hin.
      pose proof (loaded_items_normal raw) as Hn.
      rewrite Forall_forall in Hn. by destruct (Hn it Hin).
    + simpl. by rewrite normalize_items_ids.
Qed.

(** C3, amended: starting from a store in which every item has an id and
    no two items share one, after any sequence of CSV imports, admin
    edits, person operations, claims and unclaims in which no CSV row
    supplies an id that is in use when the row is reached (the id of an
    item of the store, or one given to an earlier row of the same
    import), every item still has an id and no two items share one,
    across the whole store.  A CSV row that supplies no numeric id gets
    max-seen+1, which is then the maximum seen; a row that supplies a
    numeric id is stored with that id.  Throughout, ids are numbers the
    server holds exactly: the id cells are plain decimal integers and the
    ids stay within 2^53. *)
Theorem ids_stay_unique (raw : store) (ops : list op) :
  ids_unique raw ->
  imports_ok ops (Some raw) ->
  (exists after, run ops (Some raw) = Some after /\ ids_unique after)
  /\ (forall body m r,
         plain_number (id_cell r) = true -> 0 <= m < two53 ->
         no_numeric_id r ->
         (csv_item body m r).1 = m + 1
         /\ (csv_item body m r).2 !! "id" = Some (JNum (m + 1)))
  /\ (forall body m r n,
         plain_number (id_cell r) = true ->
         supplies_id r n ->
         (csv_item body m r).1 = Z.max m n
         /\ (csv_item body m r).2 !! "id" = Some (JNum n)).
Proof.
  intros Huniq Hops.
  split; [|split; [intros body m r _ _; apply csv_item_fresh
                  |intros body m r n _; apply csv_item_supplied]].
  revert raw Huniq Hops. induction ops as [|o ops IH]; intros raw Huniq Hops.
  - by exists raw.
  - destruct Hops as [Ho Hops].
    destruct (ids_unique_step raw o Huniq Ho) as (mid & Hmid & Hu).
    rewrite Hmid in Hops.
    unfold run in *. simpl. rewrite Hmid. by apply IH.
Qed.

(** ** The legacy fields *)

Lemma synced_ext (it it' : obj) :
  it' !! "details" = it !! "details" -> it' !! "notes" = it !! "notes" ->
  it' !! "tags" = it !! "tags" -> it' !! "tag" = it !! "tag" ->
  synced it -> synced it'.
Proof. unfold synced. by intros -> -> -> ->. Qed.

Lemma normalize_item_synced (m : Z) (it : obj) :
  synced it -> synced (normalize_item m it).2.
Proof.
  intros Hs. pose proof Hs as [(d & Hd & _) (l & Hl & _)].
  apply (synced_ext it); [| | |  |done].
  - apply normalize_item_details_kept. by rewrite Hd.
  - by apply normalize_item_lookup.
  - rewrite Hl. by apply normalize_item_tags_kept.
  - by apply normalize_item_lookup.
Qed.

Lemma normalize_items_synced (its : list obj) (m : Z) :
  Forall synced its -> Forall synced (normalize_items m its).
Proof.
  intros H. revert m. induction H as [|it its Hit _ IH]; intros m; simpl;
    [constructor|].
  pose proof (normalize_item_synced m it Hit) as Hs.
  destruct (normalize_item m it) as [m' it']. constructor; [done|apply IH].
Qed.

Lemma put_details_present (body item : obj) :
  is_Some (item !! "details") ->
  is_Some (put_notes body
             (put_string "details" body
                (put_string "itemName" body
                   (put_string "recipientName" body
                      (put_string "recipientCode" body item)))) !! "details").
Proof.
  intros Hd. unfold put_notes.
  destruct (has "notes" body); [rewrite lookup_insert_eq; by eexists|].
  unfold put_string at 1.
  destruct (has "details" body); [rewrite lookup_insert_eq; by eexists|].
  by rewrite !put_string_lookup_ne.
Qed.

(** The admin update leaves the item it edits with both equations. *)
Lemma edit_item_synced (body : obj) (family : jsval) (item item' : obj) :
  normal_item item -> edit_item body family item = Some item' -> synced item'.
Proof.
  intros (_ & Hd & Ht & _ & _) H. unfold edit_item in H.
  remember (put_tags body
              (put_claimed body
                 (put_string "url" body
                    (put_notes body
                       (put_string "details" body
                          (put_string "itemName" body
                             (put_string "recipientName" body
                                (put_string "recipientCode" body item))))))))
    as i8 eqn:E8.
  assert (is_Some (i8 !! "details")) as [d Hd8].
  { subst i8. rewrite put_tags_lookup_ne, put_claimed_lookup_ne,
      put_string_lookup_ne by done. by apply put_details_present. }
  assert (exists l, i8 !! "tags" = Some (JArr l)) as [l Hl8].
  { subst i8. apply put_tags_array.
    by rewrite put_claimed_lookup_ne, put_string_lookup_ne, put_notes_lookup_ne,
      !put_string_lookup_ne. }
  clear E8. rewrite Hd8 in H. simpl in H.
  destruct (sync_tag _) as [i10|] eqn:Hsync; [|discriminate].
  simpl in H. apply sync_tag_spec in Hsync as [Hk Htag].
  specialize (Htag l). rewrite lookup_insert_ne in Htag by done.
  specialize (Htag Hl8).
  assert (synced i10) as Hs.
  { split.
    - exists d. rewrite !Hk by done.
      by rewrite lookup_insert_ne, lookup_insert_eq.
    - exists l. rewrite Hk by done. by rewrite lookup_insert_ne. }
  injection H as <-.
  destruct (negb (truthy (i10 !! "family"))); [|done].
  apply (synced_ext i10); try done; by apply assign_lookup_ne.
Qed.

(** The CSV import writes every item with both equations. *)
Lemma csv_item_synced (body : obj) (m : Z) (r : obj) :
  synced (csv_item body m r).2.
Proof.
  unfold csv_item.
  destruct (if num_truthy _ then _ else _) as [m' id]. simpl.
  destruct (js_or_is_Some (r !! "recipientcode" ||| r !! "recipient") (JStr ""))
    as [v1 ->].
  destruct (js_or_is_Some (r !! "recipientname" ||| r !! "recipient") (JStr ""))
    as [v2 ->].
  destruct (js_or_is_Some (r !! "itemname" ||| r !! "name") (JStr "")) as [v3 ->].
  destruct (js_or_is_Some (r !! "details" ||| r !! "notes") (JStr "")) as [v4 ->].
  destruct (js_or_is_Some (r !! "url") (JStr "")) as [v5 ->].
  destruct (js_or_is_Some (r !! "family" ||| body !! "family") (JStr "default"))
    as [v6 Hv6]. unfold default_family. rewrite Hv6.
  destruct (js_or_is_Some
              (r !! "claimedbycode" ||| r !! "claimedby" ||| Some (JStr "")) JNull)
    as [v7 ->].
  simpl. split.
  - exists v4. by simplify_map_eq.
  - eexists. by simplify_map_eq.
Qed.

Lemma csv_items_synced (body : obj) (records : list obj) (m : Z) :
  Forall synced (csv_items body m records).
Proof.
  revert m. induction records as [|r rs IH]; intros m; simpl; [constructor|].
  pose proof (csv_item_synced body m r) as Hs.
  destruct (csv_item body m r) as [m' out]. constructor; [done|apply IH].
Qed.

Lemma item_change_synced (item item' : obj) :
  normal_item item -> item_change item item' -> synced item -> synced item'.
Proof.
  intros Hn [v ->|body family Hedit] Hs.
  - apply (synced_ext item); try done; by apply assign_lookup_ne.
  - by apply (edit_item_synced body family item).
Qed.

Lemma synced_change (o : op) (loaded after : list obj) :
  items_change o loaded after ->
  Forall normal_item loaded -> Forall synced loaded -> Forall synced after.
Proof.
  intros Hch Hn Hs.
  destruct Hch as [o loaded|o loaded idx item item' Hl Hc|o loaded code family
                  |req csv loaded Hcsv].
  - done.
  - apply Forall_insert; [done|].
    rewrite Forall_forall in Hn, Hs.
    assert (item ∈ loaded) as Hin by (apply list_elem_of_lookup; by exists idx).
    apply (item_change_synced item); auto.
  - apply Forall_forall. intros it Hin.
    apply list_elem_of_filter in Hin as [_ Hin].
    rewrite Forall_forall in Hs. by apply Hs.
  - apply Forall_app. split; [done|apply csv_items_synced].
Qed.

(** C4, amended: every write keeps the two legacy-field equations (notes
    equals details, tag equals tags joined by "/") on a store all of whose
    items satisfy them; the CSV import persists every item it adds, and
    the admin item update persists the item it edits, with both equations.
    Claim, unclaim and the person operations copy [notes] and [tag] as
    loaded, so an item that misses an equation keeps missing it. *)
Theorem legacy_sync_kept (raw : store) (o : op) (req : request) :
  let data := normalize raw in
  (Forall synced (items raw) ->
   exists after,
     (handle o (Some raw)).2 = Some after /\ Forall synced (items after))
  /\ ((upload_csv_text req (Some raw)).2 = Some raw
      \/ exists added,
          (upload_csv_text req (Some raw)).2
          = Some (set_items data (items data ++ added))
          /\ Forall synced added)
  /\ (status (update_item req (Some raw)).1 = 200%nat ->
      exists idx item item',
        items data !! idx = Some item
        /\ (update_item req (Some raw)).2
           = Some (set_items data (<[idx := item']> (items data)))
        /\ synced item').
Proof.
  intros data. split; [|split].
  - intros Hs.
    destruct (handle_shape raw o) as [Hsame|(after & Hafter & Hch)].
    + by exists raw.
    + exists after. split; [done|].
      apply (synced_change o (items (normalize raw))); try done.
      * apply loaded_items_normal.
      * by apply normalize_items_synced.
  - unfold upload_csv_text.
    destruct (body req !! "csv") as [[| | |csv| |]|] eqn:Hcsv; try by left.
    destruct (negb (String.eqb csv "")); [|by left].
    destruct (parseCsvText csv) as [|r rs] eqn:Hrec; [by left|].
    right.
    exists (csv_items (body req) (max_seen (items data)) (r :: rs)).
    split; [reflexivity|apply csv_items_synced].
  - unfold update_item.
    destruct (negb _); [discriminate|].
    unfold mbind, M_bind, loadData. fold data.
    destruct (list_find _ _) as [[idx item]|] eqn:Hfind; [|discriminate].
    destruct (edit_item _ _ item) as [item'|] eqn:Hedit; [|discriminate].
    intros _. exists idx, item, item'.
    apply list_find_Some in Hfind as (Hl & _).
    split; [done|]. split; [reflexivity|].
    eapply edit_item_synced; [|exact Hedit].
    pose proof (loaded_items_normal raw) as Hn. rewrite Forall_forall in Hn.
    apply Hn, list_elem_of_lookup. by exists idx.
Qed.

(** * Further properties *)

(** ** loadData *)

Lemma normalize_item_claimed_kept (m : Z) (it : obj) :
  is_Some (it !! "claimedByCode") ->
  (normalize_item m it).2 !! "claimedByCode" = it !! "claimedByCode".
Proof.
  intros [c Hc]. unfold normalize_item.
  destruct (norm_id m it) as [m' it1] eqn:E; simpl.
  rewrite (proj2 (norm_family_spec _)) by done.
  assert (norm_tags (norm_details it1) !! "claimedByCode" = Some c) as Hc1.
  { rewrite (proj2 (norm_tags_spec _)), (proj2 (norm_details_spec _)) by done.
    unfold norm_id in E.
    destruct (negb (truthy (it !! "id"))); [|by injection E as _ <-].
    destruct (num_truthy _); injection E as _ <-; by rewrite lookup_insert_ne. }
  unfold norm_claimed, has. by rewrite Hc1, Hc.
Qed.

Lemma normalize_item_family_kept (m : Z) (it : obj) :
  truthy (it !! "family") = true ->
  (normalize_item m it).2 !! "family" = it !! "family".
Proof.
  intros Hf. unfold normalize_item.
  destruct (norm_id m it) as [m' it1] eqn:E; simpl.
  assert (norm_claimed (norm_tags (norm_details it1)) !! "family" = it !! "family")
    as Hf1.
  { rewrite (proj2 (norm_claimed_spec _)), (proj2 (norm_tags_spec _)),
      (proj2 (norm_details_spec _)) by done.
    unfold norm_id in E.
    destruct (negb (truthy (it !! "id"))); [|by injection E as _ <-].
    destruct (num_truthy _); injection E as _ <-; by rewrite lookup_insert_ne. }
  rewrite norm_family_truthy; [done|]. by rewrite Hf1.
Qed.

Lemma normalize_items_lookup (its : list obj) (m : Z) (i : nat) (it : obj) :
  its !! i = Some it ->
  exists m', normalize_items m its !! i = Some (normalize_item m' it).2.
Proof.
  revert m i. induction its as [|x its IH]; intros m i Hi; [done|].
  simpl. destruct (normalize_item m x) as [m1 x'] eqn:E.
  destruct i as [|i]; simpl in *.
  - injection Hi as ->. exists m. by rewrite E.
  - by apply IH.
Qed.

Lemma normalize_items_length (its : list obj) (m : Z) :
  length (normalize_items m its) = length its.
Proof.
  revert m. induction its as [|x its IH]; intros m; simpl; [done|].
  destruct (normalize_item m x) as [m1 x']. simpl. by rewrite IH.
Qed.

Lemma normal_people (raw : store) : Forall normal_person (people (normalize raw)).
Proof.
  simpl. apply Forall_fmap, Forall_forall. intros p _.
  apply norm_family_spec.
Qed.

(** What [loadData] returns always has the current shape: every item has
    a truthy id, a [details] property, a [tags] array, a [claimedByCode]
    property and a truthy family, and every person has a truthy family;
    [loadData] leaves an existing file as it is and creates the empty
    store when there is none. *)
Theorem loadData_shape (d : disk) :
  Forall normal_item (items (loadData d).1)
  /\ Forall normal_person (people (loadData d).1)
  /\ (forall raw, d = Some raw -> (loadData d).2 = Some raw)
  /\ (d = None -> loadData d = (empty_store, Some empty_store)).
Proof.
  destruct d as [raw|]; simpl.
  - split; [apply (loaded_items_normal raw)|].
    split; [apply (normal_people raw)|]. split; [by intros ? [= ->]|done].
  - repeat split; try constructor. by intros.
Qed.

(** Normalization only fills gaps: the item at each position keeps a
    truthy id, a present [details], a [tags] array, a present
    [claimedByCode], a truthy family and every other property exactly as
    the file has them; no item is added, dropped or moved. *)
Theorem normalize_keeps_valid (raw : store) (i : nat) (it : obj) :
  items raw !! i = Some it ->
  length (items (normalize raw)) = length (items raw)
  /\ exists it',
      items (normalize raw) !! i = Some it'
      /\ (truthy (it !! "id") = true -> it' !! "id" = it !! "id")
      /\ (is_Some (it !! "details") -> it' !! "details" = it !! "details")
      /\ (forall l, it !! "tags" = Some (JArr l) -> it' !! "tags" = Some (JArr l))
      /\ (is_Some (it !! "claimedByCode") ->
          it' !! "claimedByCode" = it !! "claimedByCode")
      /\ (truthy (it !! "family") = true -> it' !! "family" = it !! "family")
      /\ (forall k, k <> "id" -> k <> "details" -> k <> "tags" ->
                    k <> "claimedByCode" -> k <> "family" ->
                    it' !! k = it !! k).
Proof.
  intros Hi. split; [apply normalize_items_length|].
  destruct (normalize_items_lookup _ (max_seen (items raw)) _ _ Hi) as [m' Hl].
  exists (normalize_item m' it).2. split; [done|].
  split; [intros H; by apply normalize_item_id_kept|].
  split; [apply normalize_item_details_kept|].
  split; [apply normalize_item_tags_kept|].
  split; [apply normalize_item_claimed_kept|].
  split; [apply normalize_item_family_kept|].
  intros k. apply normalize_item_lookup.
Qed.

Lemma normalize_item_id_fresh (m : Z) (it : obj) :
  truthy (it !! "id") = false ->
  num_truthy (to_number (it !! "itemId")) = false ->
  (normalize_item m it).1 = m + 1
  /\ (normalize_item m it).2 !! "id" = Some (JNum (m + 1)).
Proof.
  intros Hid Hn. unfold normalize_item, norm_id. rewrite Hid, Hn. simpl.
  split; [done|].
  rewrite (proj2 (norm_family_spec _)), (proj2 (norm_claimed_spec _)),
    (proj2 (norm_tags_spec _)), (proj2 (norm_details_spec _)) by done.
  apply lookup_insert_eq.
Qed.

Lemma backfill_fresh (its : list obj) (m : Z) :
  Forall no_legacy_id its ->
  (forall it, it ∈ its -> num_or0 (it !! "id") <= m) ->
  NoDup (given_ids its) ->
  NoDup (item_ids (normalize_items m its))
  /\ forall x, x ∈ item_ids (normalize_items m its) ->
               x ∈ given_ids its
               \/ exists k, x = Some (JNum k)
                            /\ m < k <= m + Z.of_nat (length its).
Proof.
  intros Hleg. revert m.
  induction Hleg as [|it its Hit _ IH]; intros m Hb Hnd; simpl.
  - split; [constructor|]. intros x Hx. by apply elem_of_nil in Hx.
  - assert (forall it', it' ∈ its -> num_or0 (it' !! "id") <= m) as Hb'.
    { intros it' Hin. apply Hb. by apply list_elem_of_further. }
    pose proof (Hb it (list_elem_of_here _ _)) as Hbit.
    unfold given_ids, item_ids in *.
    destruct (truthy (it !! "id")) eqn:Hid.
    + destruct (normalize_item_id_kept m it Hid) as [Hm Hkeep].
      destruct (normalize_item m it) as [m1 it']; simpl in *. subst m1.
      rewrite filter_cons_True in Hnd |- * by (by rewrite Hid).
      rewrite fmap_cons in Hnd |- *. apply NoDup_cons in Hnd as [Hnotin Hnd].
      destruct (IH m Hb' Hnd) as [Hnd' Hchar].
      split.
      * simpl. apply NoDup_cons. split; [|done]. rewrite Hkeep.
        intros Hin. destruct (Hchar _ Hin) as [Hg|(k & Hk & Hlt)]; [done|].
        rewrite Hk in Hbit. unfold num_or0 in Hbit. simpl in Hbit. lia.
      * intros x Hx. simpl in Hx. apply elem_of_cons in Hx as [->|Hx].
        -- left. rewrite Hkeep. apply list_elem_of_here.
        -- destruct (Hchar x Hx) as [Hg|(k & Hk & Hlt)]; [left|right].
           ++ by apply list_elem_of_further.
           ++ exists k. split; [done|]. cbn [length]. lia.
    + destruct (normalize_item_id_fresh m it Hid (Hit Hid)) as [Hm Hfresh].
      destruct (normalize_item m it) as [m1 it']; simpl in *. subst m1.
      rewrite filter_cons_False in Hnd |- * by (rewrite Hid; exact id).
      destruct (IH (m + 1)) as [Hnd' Hchar]; [|done|].
      { intros it2 Hin. specialize (Hb' it2 Hin). lia. }
      split.
      * simpl. apply NoDup_cons. split; [|done]. rewrite Hfresh.
        intros Hin. destruct (Hchar _ Hin) as [Hg|(k & [= <-] & Hlt)]; [|lia].
        apply list_elem_of_fmap in Hg as (it2 & Heq & Hin2).
        apply list_elem_of_filter in Hin2 as [_ Hin2].
        specialize (Hb' it2 Hin2). rewrite <- Heq in Hb'.
        unfold num_or0 in Hb'. simpl in Hb'. lia.
      * intros x Hx. simpl in Hx. apply elem_of_cons in Hx as [->|Hx].
        -- right. exists (m + 1). rewrite Hfresh. split; [done|].
           cbn [length]. lia.
        -- destruct (Hchar x Hx) as [Hg|(k & Hk & Hlt)]; [by left|right].
           exists k. split; [done|]. cbn [length]. lia.
Qed.

(** The id backfill of [loadData] never collides.  Let the file be in
    range: the ids and itemIds it holds are numbers or plain decimal
    texts, and counting on from the largest of them by one per item stays
    within 2^53.  If the ids the file holds are pairwise distinct and no
    item without an id carries a non-zero numeric legacy itemId, then in
    the loaded store every item has an id and no two items share one;
    each id is one the file held or a new number above every id and
    itemId of the file, and at most 2^53. *)
Theorem backfill_ids_unique (raw : store) :
  load_in_range (items raw) ->
  Forall no_legacy_id (items raw) ->
  NoDup (given_ids (items raw)) ->
  ids_unique (normalize raw)
  /\ forall x, x ∈ item_ids (items (normalize raw)) ->
               x ∈ given_ids (items raw)
               \/ exists k, x = Some (JNum k)
                            /\ max_seen (items raw) < k <= two53.
Proof.
  intros [_ Hrange] Hleg Hnd.
  destruct (backfill_fresh (items raw) (max_seen (items raw)) Hleg) as [Hnd' Hchar];
    [apply max_seen_bound|done|].
  split; [|intros x Hx; destruct (Hchar x Hx) as [Hg|(k & Hk & Hlt)];
           [by left|right; exists k; split; [done|lia]]].
  split; [|exact Hnd'].
  apply Forall_forall. intros it Hin.
  pose proof (loaded_items_normal raw) as Hn. rewrite Forall_forall in Hn.
  by destruct (Hn it Hin).
Qed.

(** ** Claims in sequence *)

Lemma normalize_fix (st : store) :
  Forall normal_item (items st) -> Forall normal_person (people st) ->
  normalize st = st.
Proof.
  intros Hi Hp. destruct st as [ps its]. unfold normalize. simpl in *. f_equal.
  - induction Hp as [|p ps Hp _ IH]; [done|].
    rewrite fmap_cons. by rewrite (norm_family_truthy _ Hp), IH.
  - by apply normalize_items_fix.
Qed.

Lemma normalize_normalize_fix (raw : store) (its : list obj) :
  Forall normal_item its ->
  normalize (set_items (normalize raw) its) = set_items (normalize raw) its.
Proof.
  intros Hi. apply normalize_fix; [done|]. apply normal_people.
Qed.

Lemma item_matches_family (idNum : option Z) (f1 f2 : jsval) (i : obj) :
  to_String f2 = to_String f1 -> item_matches idNum f2 i = item_matches idNum f1 i.
Proof. intros H. unfold item_matches. by rewrite H. Qed.

Lemma item_matches_change (idNum : option Z) (family : jsval) (v : jsval) (i : obj) :
  item_matches idNum family (assign "claimedByCode" v i)
  = item_matches idNum family i.
Proof.
  unfold item_matches, family_of. by rewrite !assign_lookup_ne.
Qed.

(** The lookup of a request finds the changed item where it found the
    item, provided the change keeps the item matching. *)
Lemma list_find_insert (P : obj -> bool) (l : list obj) (i : nat) (x y : obj) :
  list_find (fun o => P o) l = Some (i, x) -> P y = true ->
  list_find (fun o => P o) (<[i := y]> l) = Some (i, y).
Proof.
  intros Hfind Hy. apply list_find_Some in Hfind as (Hl & _ & Hfirst).
  apply list_find_Some. split.
  - apply list_lookup_insert_eq. by eapply lookup_lt_Some.
  - split; [by apply Is_true_true|].
    intros j z Hj Hlt. rewrite list_lookup_insert_ne in Hj by lia.
    by apply (Hfirst j z).
Qed.

Lemma list_find_same_target (req1 req2 : request) (l : list obj) :
  same_target req1 req2 ->
  list_find (fun i => item_matches (to_number (body req2 !! "itemId"))
                                   (claim_family req2) i) l
  = list_find (fun i => item_matches (to_number (body req1 !! "itemId"))
                                     (claim_family req1) i) l.
Proof.
  intros [Hn Hf]. rewrite Hn.
  induction l as [|x l IH]; [done|].
  cbn [list_find]. rewrite (item_matches_family _ _ _ x Hf).
  destruct (decide _); [done|]. by rewrite IH.
Qed.

Lemma normal_item_assign (v : json) (item : obj) :
  normal_item item -> normal_item (<["claimedByCode" := v]> item).
Proof.
  intros (H1 & H2 & H3 & _ & H5). unfold normal_item.
  rewrite lookup_insert_eq.
  rewrite (lookup_insert_ne _ "claimedByCode" "id"),
    (lookup_insert_ne _ "claimedByCode" "details"),
    (lookup_insert_ne _ "claimedByCode" "tags"),
    (lookup_insert_ne _ "claimedByCode" "family") by done.
  repeat split; done.
Qed.

Lemma find_loaded_normal (raw : store) (P : obj -> bool) (idx : nat) (item : obj) :
  list_find (fun i => P i) (items (normalize raw)) = Some (idx, item) ->
  items (normalize raw) !! idx = Some item /\ normal_item item.
Proof.
  intros Hfind. apply list_find_Some in Hfind as (Hl & _).
  split; [done|].
  pose proof (loaded_items_normal raw) as Hn. rewrite Forall_forall in Hn.
  apply Hn, list_elem_of_lookup. by exists idx.
Qed.

(** A claim that succeeded found an item and saved it with the viewer's
    code. *)
Lemma claim_success_inv (raw : store) (req : request) (d : disk) :
  claim req (Some raw) = (success, d) ->
  exists idx item,
    list_find (fun i => item_matches (to_number (body req !! "itemId"))
                                     (claim_family req) i)
              (items (normalize raw)) = Some (idx, item)
    /\ d = Some (set_items (normalize raw)
                   (<[idx := assign "claimedByCode" (body req !! "viewerCode") item]>
                      (items (normalize raw)))).
Proof.
  intros Hc.
  destruct (find_item_cases (items (normalize raw))
              (to_number (body req !! "itemId")) (claim_family req))
    as [(n & idx & item & _ & _ & Hfind)|[_ Hfind]].
  - exists idx, item. split; [done|].
    rewrite (claim_found raw req idx item Hfind) in Hc.
    destruct (_ && _); apply pair_equal_spec in Hc as [Hr Hd]; [|done].
    by apply failure_not_success in Hr.
  - rewrite (claim_not_found raw req Hfind) in Hc.
    apply pair_equal_spec in Hc as [Hr _].
    by apply failure_not_success in Hr.
Qed.

(** The store a successful claim with a string code leaves is in the
    current shape, and the claimed item is found again by the same
    lookup. *)
Lemma claimed_store (raw : store) (req : request) (v : string)
      (idx : nat) (item : obj) :
  list_find (fun i => item_matches (to_number (body req !! "itemId"))
                                   (claim_family req) i)
            (items (normalize raw)) = Some (idx, item) ->
  let st1 := set_items (normalize raw)
               (<[idx := <["claimedByCode" := JStr v]> item]>
                  (items (normalize raw))) in
  normalize st1 = st1
  /\ list_find (fun i => item_matches (to_number (body req !! "itemId"))
                                      (claim_family req) i)
               (items st1) = Some (idx, <["claimedByCode" := JStr v]> item).
Proof.
  intros Hfind st1.
  destruct (find_loaded_normal raw _ idx item Hfind) as [Hl Hn].
  split.
  - apply normalize_normalize_fix, Forall_insert;
      [apply loaded_items_normal|by apply normal_item_assign].
  - simpl. apply (list_find_insert _ _ _ item); [done|].
    pose proof (item_matches_change (to_number (body req !! "itemId"))
                  (claim_family req) (Some (JStr v)) item) as Hm.
    simpl in Hm. rewrite Hm.
    apply list_find_Some in Hfind as (_ & Hp & _). by apply Is_true_true.
Qed.

Lemma set_items_same (st : store) : set_items st (items st) = st.
Proof. by destruct st. Qed.

(** Claiming twice is claiming once: after a claim with a string code
    succeeded, the same request succeeds again and leaves the file as the
    first claim left it. *)
Theorem claim_twice (raw st1 : store) (req : request) (v : string) :
  body req !! "viewerCode" = Some (JStr v) ->
  claim req (Some raw) = (success, Some st1) ->
  claim req (Some st1) = (success, Some st1).
Proof.
  intros Hv Hc.
  destruct (claim_success_inv raw req _ Hc) as (idx & item & Hfind & Hd).
  rewrite Hv in Hd. cbn [assign] in Hd. apply (inj Some) in Hd. rename Hd into Hst.
  destruct (claimed_store raw req v idx item Hfind) as [Hfix Hfind1].
  cbv zeta in Hfix, Hfind1. rewrite <- Hst in Hfix, Hfind1. clear Hst.
  assert (list_find (fun i => item_matches (to_number (body req !! "itemId"))
                                           (claim_family req) i)
                    (items (normalize st1))
          = Some (idx, <["claimedByCode" := JStr v]> item)) as Hfind2
    by (by rewrite Hfix).
  rewrite (claim_found st1 req idx _ Hfind2), Hv, Hfix.
  rewrite lookup_insert_eq.
  assert (strict_eq (Some (JStr v)) (Some (JStr v)) = true) as ->
    by (simpl; apply String.eqb_refl).
  rewrite andb_false_r. cbn [assign].
  apply list_find_Some in Hfind1 as (Hl1 & _).
  rewrite insert_insert_eq, (list_insert_id _ _ _ Hl1).
  by rewrite set_items_same.
Qed.

(** A claimed item is closed to others: after a claim with a non-empty
    string code succeeded, a claim on the same item with any other
    viewerCode fails as already claimed and leaves the file as it is. *)
Theorem claim_blocks_others (raw st1 : store) (req1 req2 : request) (v : string) :
  body req1 !! "viewerCode" = Some (JStr v) ->
  v <> "" ->
  body req2 !! "viewerCode" <> Some (JStr v) ->
  same_target req1 req2 ->
  claim req1 (Some raw) = (success, Some st1) ->
  claim req2 (Some st1)
  = (failure 200%nat "This item was already claimed.", Some st1).
Proof.
  intros Hv Hne Hother Hsame Hc.
  destruct (claim_success_inv raw req1 _ Hc) as (idx & item & Hfind & Hd).
  rewrite Hv in Hd. cbn [assign] in Hd. apply (inj Some) in Hd. rename Hd into Hst.
  destruct (claimed_store raw req1 v idx item Hfind) as [Hfix Hfind1].
  cbv zeta in Hfix, Hfind1. rewrite <- Hst in Hfix, Hfind1. clear Hst.
  assert (list_find (fun i => item_matches (to_number (body req2 !! "itemId"))
                                           (claim_family req2) i)
                    (items (normalize st1))
          = Some (idx, <["claimedByCode" := JStr v]> item)) as Hfind2
    by (by rewrite Hfix, (list_find_same_target req1 req2)).
  rewrite (claim_found st1 req2 idx _ Hfind2).
  rewrite lookup_insert_eq.
  assert (truthy (Some (JStr v)) = true) as ->.
  { simpl. by destruct (String.eqb_spec v ""). }
  assert (strict_eq (Some (JStr v)) (body req2 !! "viewerCode") = false) as ->; [|done].
  destruct (strict_eq _ _) eqn:E; [|done].
  apply strict_eq_true in E. by destruct Hother.
Qed.

Lemma set_items_set_items (st : store) (its : list obj) :
  set_items (set_items st its) (items st) = st.
Proof. by destruct st. Qed.

(** Claim, then unclaim, by the same viewer: if the item was unclaimed
    (claimedByCode null), both calls succeed and the file ends as the
    loaded store was before the claim. *)
Theorem claim_unclaim_roundtrip (raw : store) (req : request) (v : string)
        (n : Z) (idx : nat) (item : obj) :
  body req !! "viewerCode" = Some (JStr v) ->
  to_number (body req !! "itemId") = Some n ->
  item_at (items (normalize raw)) n (claim_family req) idx item ->
  item !! "claimedByCode" = Some JNull ->
  exists st1,
    claim req (Some raw) = (success, Some st1)
    /\ unclaim req (Some st1) = (success, Some (normalize raw)).
Proof.
  intros Hv Hn Hat Hnull.
  pose proof (find_item_at _ _ _ _ _ Hat) as Hfind. rewrite <- Hn in Hfind.
  destruct (claimed_store raw req v idx item Hfind) as [Hfix Hfind1].
  cbv zeta in Hfix, Hfind1.
  set (st1 := set_items (normalize raw)
                (<[idx := <["claimedByCode" := JStr v]> item]>
                   (items (normalize raw)))) in *.
  exists st1. split.
  { rewrite (claim_found raw req idx item Hfind), Hnull, Hv. reflexivity. }
  assert (list_find (fun i => item_matches (to_number (body req !! "itemId"))
                                           (claim_family req) i)
                    (items (normalize st1))
          = Some (idx, <["claimedByCode" := JStr v]> item)) as Hfind2
    by (by rewrite Hfix).
  rewrite (unclaim_found st1 req idx _ Hfind2), Hv, Hfix.
  rewrite lookup_insert_eq.
  assert (strict_eq (Some (JStr v)) (Some (JStr v)) = true) as ->
    by (simpl; apply String.eqb_refl).
  cbn [negb]. rewrite insert_insert_eq, (insert_id item) by done.
  unfold st1. cbn [items set_items people].
  rewrite list_insert_insert_eq.
  destruct Hat as (Hl & _). rewrite (list_insert_id _ _ _ Hl).
  by destruct (normalize raw).
Qed.

Lemma normalize_items_by_item (its : list obj) (m : Z) :
  Forall (fun it => truthy (it !! "id") = true) its ->
  normalize_items m its = (fun it => (normalize_item 0 it).2) <$> its.
Proof.
  intros H. revert m. induction H as [|it its Hit _ IH]; intros m; [done|].
  cbn [normalize_items]. rewrite fmap_cons.
  unfold normalize_item at 1 2. rewrite !(norm_id_truthy _ _ Hit).
  by rewrite IH.
Qed.

Lemma normalize_item_unset_claim (item : obj) :
  normal_item item ->
  item !! "claimedByCode" = Some JNull ->
  (normalize_item 0 (delete "claimedByCode" item)).2 = item.
Proof.
  intros (Hid & [d Hd] & [l Hl] & _ & Hf) Hnull.
  unfold normalize_item.
  rewrite norm_id_truthy by (by rewrite lookup_delete_ne).
  cbn [snd].
  assert (norm_details (delete "claimedByCode" item) = delete "claimedByCode" item)
    as -> by (unfold norm_details; by rewrite lookup_delete_ne, Hd).
  assert (norm_tags (delete "claimedByCode" item) = delete "claimedByCode" item)
    as -> by (unfold norm_tags; by rewrite lookup_delete_ne, Hl).
  assert (norm_claimed (delete "claimedByCode" item) = item) as ->.
  { unfold norm_claimed, has. rewrite lookup_delete_eq. cbn [negb].
    rewrite insert_delete_eq. by apply insert_id. }
  by apply norm_family_truthy.
Qed.

(** A claim that names no viewer claims nothing: on an unclaimed item
    (claimedByCode null) a request without viewerCode is answered with
    success and saves the item without the claimedByCode property, so that
    the next [loadData] returns the store as it was loaded before. *)
Theorem claim_without_viewer (raw : store) (req : request)
        (n : Z) (idx : nat) (item : obj) :
  body req !! "viewerCode" = None ->
  to_number (body req !! "itemId") = Some n ->
  item_at (items (normalize raw)) n (claim_family req) idx item ->
  item !! "claimedByCode" = Some JNull ->
  exists st1 item',
    claim req (Some raw) = (success, Some st1)
    /\ items st1 !! idx = Some item'
    /\ item' !! "claimedByCode" = None
    /\ (loadData (Some st1)).1 = normalize raw.
Proof.
  intros Hv Hn Hat Hnull.
  pose proof (find_item_at _ _ _ _ _ Hat) as Hfind. rewrite <- Hn in Hfind.
  destruct (find_loaded_normal raw _ idx item Hfind) as [Hl Hnorm].
  eexists. exists (delete "claimedByCode" item). split.
  { rewrite (claim_found raw req idx item Hfind), Hnull, Hv. reflexivity. }
  cbn [items set_items assign].
  split; [apply list_lookup_insert_eq; by eapply lookup_lt_Some|].
  split; [apply lookup_delete_eq|].
  cbn [loadData fst]. unfold normalize at 1. cbn [items set_items people].
  pose proof (loaded_items_normal raw) as Hall.
  rewrite normalize_items_by_item.
  - rewrite list_fmap_insert, (normalize_item_unset_claim _ Hnorm Hnull).
    assert ((fun it => (normalize_item 0 it).2) <$> items (normalize raw)
            = items (normalize raw)) as ->.
    { rewrite <- (list_fmap_id (items (normalize raw))) at 2.
      apply Forall_fmap_ext_1. eapply Forall_impl; [exact Hall|].
      intros it Hit. cbn. by rewrite (normalize_item_fix _ _ Hit). }
    rewrite (list_insert_id _ _ _ Hl).
    assert (norm_family <$> people (normalize raw) = people (normalize raw)) as ->.
    { rewrite <- (list_fmap_id (people (normalize raw))) at 2.
      apply Forall_fmap_ext_1. eapply Forall_impl; [apply normal_people|].
      intros p Hp. cbn. by apply norm_family_truthy. }
    by destruct (normalize raw).
  - apply Forall_insert.
    + eapply Forall_impl; [exact Hall|]. by intros it (? & _).
    + rewrite lookup_delete_ne by done. by destruct Hnorm.
Qed.

(** ** The views *)

Lemma item_view_lookup_flags (viewerCode : jsval) (i : obj) :
  wishlist_view viewerCode i !! "claimed"
  = Some (JBool (truthy (i !! "claimedByCode")))
  /\ wishlist_view viewerCode i !! "claimedByMe"
     = Some (JBool (strict_eq (i !! "claimedByCode") viewerCode)).
Proof.
  unfold wishlist_view. split.
  - by rewrite lookup_insert_ne, lookup_insert_eq.
  - by rewrite lookup_insert_eq.
Qed.

Lemma item_view_hides_claimer (i : obj) : item_view i !! "claimedByCode" = None.
Proof.
  unfold item_view.
  rewrite lookup_insert_ne, assign_lookup_ne, lookup_insert_ne,
    !assign_lookup_ne, lookup_insert_ne by done.
  apply lookup_empty.
Qed.

(** The wishlist shows, for exactly the recipient's items of the family,
    whether each is claimed and whether the viewer claimed it, and never
    by whom: no view carries a claimedByCode property.  For a viewer with
    a truthy code, claimedByMe implies claimed. *)
Theorem wishlist_flags (raw : store) (req : request) :
  let viewerCode := query req !! "viewerCode" in
  let recipientCode := query req !! "recipientCode" in
  let family := query req !! "family" ||| default_family in
  let listed := wishlist_items recipientCode family (normalize raw) in
  get_wishlist req (Some raw)
  = ({| status := 200%nat;
        payload := JObj (assign "viewerCode" viewerCode
                           (assign "recipientCode" recipientCode
                              (<["items" := JArr (JObj <$> (wishlist_view viewerCode <$> listed))]> ∅))) |},
     Some raw)
  /\ (forall i, i ∈ listed <->
                i ∈ items (normalize raw)
                /\ strict_eq (i !! "recipientCode") recipientCode = true
                /\ family_of i = to_String family)
  /\ forall i, i ∈ listed ->
       wishlist_view viewerCode i !! "claimedByCode" = None
       /\ wishlist_view viewerCode i !! "claimed"
          = Some (JBool (truthy (i !! "claimedByCode")))
       /\ wishlist_view viewerCode i !! "claimedByMe"
          = Some (JBool (strict_eq (i !! "claimedByCode") viewerCode))
       /\ (truthy viewerCode = true ->
           wishlist_view viewerCode i !! "claimedByMe" = Some (JBool true) ->
           wishlist_view viewerCode i !! "claimed" = Some (JBool true)).
Proof.
  intros viewerCode recipientCode family listed.
  split; [reflexivity|]. split.
  - intros i. unfold listed, wishlist_items. rewrite list_elem_of_filter.
    unfold wishlist_matches.
    rewrite Is_true_true, andb_true_iff, String.eqb_eq. tauto.
  - intros i _. destruct (item_view_lookup_flags viewerCode i) as [Hc Hm].
    split.
    { unfold wishlist_view. rewrite !lookup_insert_ne by done.
      apply item_view_hides_claimer. }
    split; [done|]. split; [done|].
    intros Hv. rewrite Hm, Hc. intros [= Heq]. apply strict_eq_true in Heq.
    by rewrite Heq, Hv.
Qed.

(** GET /recipients: the recipients are exactly the people of the family;
    currentUser is the first of them whose code is the given code, and is
    null exactly when no person of that family has the code, whatever
    people of other families there are. *)
Theorem recipients_current_user (raw : store) (req : request) :
  let code := query req !! "code" in
  let family := query req !! "family" ||| default_family in
  let recipients := recipients_of family (normalize raw) in
  exists currentUser,
    get_recipients req (Some raw)
    = ({| status := 200%nat;
          payload := js_object [("currentUser", currentUser);
                                ("recipients", JArr (JObj <$> recipients))] |},
       Some raw)
    /\ (forall p, p ∈ recipients <->
                  p ∈ people (normalize raw) /\ family_of p = to_String family)
    /\ (currentUser = JNull <->
        forall p, p ∈ recipients -> strict_eq (p !! "code") code = false)
    /\ (forall p, currentUser = JObj p ->
                  p ∈ recipients /\ strict_eq (p !! "code") code = true).
Proof.
  intros code family recipients.
  unfold get_recipients, mbind, M_bind, loadData. fold code family recipients.
  destruct (list_find (fun p => strict_eq (p !! "code") code) recipients)
    as [[idx p]|] eqn:Hfind.
  - exists (JObj p). split; [reflexivity|]. split.
    { intros q. unfold recipients, recipients_of. rewrite list_elem_of_filter.
      by rewrite Is_true_true, String.eqb_eq, (and_comm (family_of q = _)). }
    apply list_find_Some in Hfind as (Hl & Hp & _).
    apply Is_true_true in Hp.
    assert (p ∈ recipients) as Hin by (apply list_elem_of_lookup; by exists idx).
    split.
    + split; [done|]. intros Hno. specialize (Hno p Hin). congruence.
    + by intros q [= <-].
  - exists JNull. split; [reflexivity|]. split.
    { intros q. unfold recipients, recipients_of. rewrite list_elem_of_filter.
      by rewrite Is_true_true, String.eqb_eq, (and_comm (family_of q = _)). }
    apply list_find_None in Hfind. rewrite Forall_forall in Hfind.
    split; [|done]. split; [|done].
    intros _ p Hin. specialize (Hfind p Hin).
    destruct (strict_eq (p !! "code") code); [|done]. by destruct Hfind.
Qed.

Lemma set_add_elem (v f : json) (s : list json) :
  f ∈ set_add v s <-> f ∈ s \/ f = v.
Proof.
  unfold set_add.
  destruct (existsb (fun w => strict_eq (Some w) (Some v)) s) eqn:E.
  - split; [by left|]. intros [H| ->]; [done|].
    apply existsb_exists in E as (w & Hin & Hw).
    apply strict_eq_true in Hw. injection Hw as ->. by apply list_elem_of_In.
  - rewrite elem_of_app, list_elem_of_singleton. tauto.
Qed.

Lemma set_add_NoDup (v : string) (s : list json) :
  NoDup s -> NoDup (set_add (JStr v) s).
Proof.
  intros Hnd. unfold set_add.
  destruct (existsb (fun w => strict_eq (Some w) (Some (JStr v))) s) eqn:E; [done|].
  apply NoDup_app. split; [done|]. split; [|apply NoDup_singleton].
  intros x Hx Hv. apply list_elem_of_singleton in Hv. subst x.
  assert (existsb (fun w => strict_eq (Some w) (Some (JStr v))) s = true); [|congruence].
  apply existsb_exists. exists (JStr v). split; [by apply list_elem_of_In|].
  simpl. apply String.eqb_refl.
Qed.

Lemma families_fold_elem (l : list obj) (acc : list json) (f : json) :
  f ∈ foldl (fun s o => set_add (family_value o) s) acc l
  <-> f ∈ acc \/ exists o, o ∈ l /\ family_value o = f.
Proof.
  revert acc. induction l as [|x l IH]; intros acc; simpl.
  - split; [by left|]. intros [H|(o & Ho & _)]; [done|].
    by apply elem_of_nil in Ho.
  - rewrite IH, set_add_elem. split.
    + intros [[H| ->]|(o & Ho & Hf)].
      * by left.
      * right. exists x. split; [apply list_elem_of_here|done].
      * right. exists o. split; [by apply list_elem_of_further|done].
    + intros [H|(o & Ho & Hf)]; [by left; left|].
      apply elem_of_cons in Ho as [->|Ho]; [left; by right|].
      right. by exists o.
Qed.

Lemma families_fold_NoDup (l : list obj) (acc : list json) :
  (forall o, o ∈ l -> exists s, family_value o = JStr s) ->
  NoDup acc ->
  NoDup (foldl (fun s o => set_add (family_value o) s) acc l).
Proof.
  revert acc. induction l as [|x l IH]; intros acc Hstr Hnd; simpl; [done|].
  apply IH.
  - intros o Ho. apply Hstr. by apply list_elem_of_further.
  - destruct (Hstr x (list_elem_of_here _ _)) as [s ->].
    by apply set_add_NoDup.
Qed.

(** GET /families lists the family of every person and of every item of
    the loaded store and nothing else; when the families are strings, each
    is listed once. *)
Theorem families_listed (raw : store) (req : request) :
  let data := normalize raw in
  get_families req (Some raw)
  = ({| status := 200%nat;
        payload := js_object [("families", JArr (families_of data))] |},
     Some raw)
  /\ (forall f, f ∈ families_of data <->
                exists o, o ∈ people data ++ items data /\ family_value o = f)
  /\ ((forall o, o ∈ people data ++ items data -> exists s, family_value o = JStr s) ->
      NoDup (families_of data)).
Proof.
  intros data. split; [reflexivity|]. split.
  - intros f. unfold families_of. rewrite !families_fold_elem.
    split.
    + intros [[H|(o & Ho & Hf)]|(o & Ho & Hf)].
      * by apply elem_of_nil in H.
      * exists o. split; [apply elem_of_app; by left|done].
      * exists o. split; [apply elem_of_app; by right|done].
    + intros (o & Ho & Hf). apply elem_of_app in Ho as [Ho|Ho].
      * left. right. by exists o.
      * right. by exists o.
  - intros Hstr. unfold families_of.
    apply families_fold_NoDup.
    + intros o Ho. apply Hstr, elem_of_app. by right.
    + apply families_fold_NoDup; [|constructor].
      intros o Ho. apply Hstr, elem_of_app. by left.
Qed.

(** After a claim with a string code succeeded, the next load shows the
    item in that viewer's shopping list of the family and the wishlist
    flags it as claimed by that viewer and by no other; with a non-empty
    code it is flagged as claimed for every viewer. *)
Theorem claim_then_lists (raw st1 : store) (req : request) (v : string) :
  body req !! "viewerCode" = Some (JStr v) ->
  claim req (Some raw) = (success, Some st1) ->
  exists n idx item',
    to_number (body req !! "itemId") = Some n
    /\ items (loadData (Some st1)).1 !! idx = Some item'
    /\ has_id n (claim_family req) item'
    /\ item' ∈ shopping_items (Some (JStr v)) (claim_family req)
                              (loadData (Some st1)).1
    /\ wishlist_view (Some (JStr v)) item' !! "claimedByMe" = Some (JBool true)
    /\ (forall w, w <> Some (JStr v) ->
                  wishlist_view w item' !! "claimedByMe" = Some (JBool false))
    /\ (v <> "" -> forall w, wishlist_view w item' !! "claimed" = Some (JBool true)).
Proof.
  intros Hv Hc.
  destruct (claim_success_inv raw req _ Hc) as (idx & item & Hfind & Hd).
  rewrite Hv in Hd. cbn [assign] in Hd. apply (inj Some) in Hd.
  destruct (claimed_store raw req v idx item Hfind) as [Hfix Hfind1].
  cbv zeta in Hfix, Hfind1. rewrite <- Hd in Hfix, Hfind1. clear Hd.
  cbn [loadData fst]. rewrite Hfix.
  apply list_find_Some in Hfind1 as (Hl & Hm & _). apply Is_true_true in Hm.
  destruct (to_number (body req !! "itemId")) as [n|] eqn:Hn; [|done].
  exists n, idx, (<["claimedByCode" := JStr v]> item).
  pose proof (proj1 (item_matches_has_id _ _ _) Hm) as Hid.
  split; [done|]. split; [done|]. split; [done|].
  assert (strict_eq (Some (JStr v)) (Some (JStr v)) = true) as Hself
    by (simpl; apply String.eqb_refl).
  split.
  { unfold shopping_items. apply list_elem_of_filter. split.
    - apply Is_true_true. unfold shopping_matches.
      rewrite lookup_insert_eq, Hself. cbn [andb].
      apply String.eqb_eq. by destruct Hid.
    - apply list_elem_of_lookup. by exists idx. }
  split.
  { rewrite (proj2 (item_view_lookup_flags _ _)), lookup_insert_eq. by rewrite Hself. }
  split.
  - intros w Hw. rewrite (proj2 (item_view_lookup_flags _ _)), lookup_insert_eq.
    destruct (strict_eq _ w) eqn:E; [|done].
    apply strict_eq_true in E. by destruct Hw.
  - intros Hne w. rewrite (proj1 (item_view_lookup_flags _ _)), lookup_insert_eq.
    simpl. by destruct (String.eqb_spec v "").
Qed.

(** The GET endpoints only read: each answers 200 and leaves an existing
    file as it is. *)
Lemma reads_leave_file (raw : store) (r : read) :
  (serve r (Some raw)).2 = Some raw /\ status (serve r (Some raw)).1 = 200%nat.
Proof. by destruct r. Qed.

(** ** Failures, and the admin item update *)

Lemma succeeded_failure (code : nat) (message : string) :
  succeeded (failure code message) = false.
Proof. reflexivity. Qed.

Lemma succeeded_object (rest : list (string * json)) (code : nat) :
  succeeded {| status := code;
               payload := js_object (("success", JBool true) :: rest) |} = true.
Proof.
  unfold succeeded, js_object. cbn [payload].
  by rewrite list_to_map_cons, lookup_insert_eq.
Qed.

(** A request that is turned down has not written.  For every request
    in the range of the model, an answer with a status other than 200, or
    with status 200 and without [success: true], leaves the file exactly
    as it was.  The answer 500 is not covered: the server gives it as
    well when writing the file failed, and the file is then in no known
    state. *)
Theorem failures_leave_file (raw : store) (o : op) :
  op_in_range o raw ->
  status (handle o (Some raw)).1 <> 500%nat ->
  succeeded (handle o (Some raw)).1 = false
  \/ status (handle o (Some raw)).1 <> 200%nat ->
  (handle o (Some raw)).2 = Some raw.
Proof.
  assert (forall (rest : list (string * json)) (st : disk),
             succeeded {| status := 200%nat;
                          payload := js_object (("success", JBool true) :: rest) |}
             = false
             \/ 200%nat <> 200%nat ->
             st = Some raw) as Hok.
  { intros rest st [Hs|Hs]; [by rewrite succeeded_object in Hs|done]. }
  intros _.
  destruct o as [req|req|req|req|req|req|req]; cbn [handle].
  - unfold upload_csv_text.
    destruct (body req !! "csv") as [[| | |csv| |]|]; try done.
    destruct (negb (String.eqb csv "")); [|done].
    destruct (parseCsvText csv) as [|r rs]; [done|].
    unfold mbind, M_bind, loadData, saveData, mret, M_ret. cbn [fst snd status].
    intros _. apply Hok.
  - unfold update_item.
    destruct (negb _); [done|].
    unfold mbind, M_bind, loadData.
    destruct (list_find _ _) as [[idx item]|]; [|done].
    destruct (edit_item _ _ item) as [item'|]; [|done].
    unfold saveData, mret, M_ret. cbn [fst snd status].
    intros _. apply Hok.
  - unfold update_person.
    destruct (String.eqb _ _); [done|].
    unfold mbind, M_bind, loadData.
    destruct (list_find _ _) as [[idx person]|]; [|done].
    destruct (edit_person _ _ person) as [person'|]; [|done].
    unfold saveData, mret, M_ret. cbn [fst snd status].
    intros _. apply Hok.
  - unfold create_person.
    destruct (String.eqb _ _); [done|].
    unfold mbind, M_bind, loadData.
    destruct (list_find _ _) as [r|]; [done|].
    unfold saveData, mret, M_ret. cbn [fst snd status].
    intros _. apply Hok.
  - unfold delete_person.
    destruct (String.eqb _ _); [done|].
    unfold mbind, M_bind, loadData.
    destruct (list_find _ _) as [[idx person]|]; [|done].
    unfold saveData, mret, M_ret. cbn [fst snd].
    intros _. apply (Hok []).
  - unfold claim, mbind, M_bind, loadData.
    destruct (list_find _ _) as [[idx item]|]; [|done].
    destruct (_ && _); [done|].
    unfold saveData, mret, M_ret. cbn [fst snd].
    intros _. apply (Hok []).
  - unfold unclaim, mbind, M_bind, loadData.
    destruct (list_find _ _) as [[idx item]|]; [|done].
    destruct (negb _); [done|].
    unfold saveData, mret, M_ret. cbn [fst snd].
    intros _. apply (Hok []).
Qed.

Lemma edit_item_family (body : obj) (family : jsval) (item item' : obj) :
  truthy (item !! "family") = true ->
  edit_item body family item = Some item' ->
  item' !! "family" = item !! "family".
Proof.
  unfold edit_item. intros Hf H.
  destruct (sync_tag _) as [it1|] eqn:Hsync; [|discriminate].
  simpl in H. injection H as <-.
  apply sync_tag_spec in Hsync as [Hk _].
  assert (it1 !! "family" = item !! "family") as Hsame.
  { rewrite Hk, assign_lookup_ne, put_tags_lookup_ne, put_claimed_lookup_ne,
      put_string_lookup_ne, put_notes_lookup_ne, !put_string_lookup_ne by done.
    done. }
  by rewrite Hsame, Hf.
Qed.

(** The admin item update cannot re-identify an item: whatever the body
    carries, a successful update saves the loaded store with one item
    replaced, and that item keeps its id, its itemId and its family; it is
    the first item of the requested family whose id or itemId is the
    number in the route. *)
Theorem update_item_keeps_identity (raw : store) (req : request) :
  let data := normalize raw in
  let family := query req !! "family" ||| body req !! "family" ||| default_family in
  status (update_item req (Some raw)).1 = 200%nat ->
  exists n idx item item',
    to_number (Some (JStr (param req))) = Some n /\ n <> 0
    /\ items data !! idx = Some item
    /\ (to_number (item !! "id") = Some n \/ to_number (item !! "itemId") = Some n)
    /\ family_of item = to_String family
    /\ update_item req (Some raw)
       = ({| status := 200%nat;
             payload := js_object [("success", JBool true); ("item", JObj item')] |},
          Some (set_items data (<[idx := item']> (items data))))
    /\ item' !! "id" = item !! "id"
    /\ item' !! "itemId" = item !! "itemId"
    /\ item' !! "family" = item !! "family".
Proof.
  intros data family. unfold update_item.
  destruct (to_number (Some (JStr (param req)))) as [n|] eqn:Hn;
    cbn [num_truthy]; [|discriminate].
  destruct (Z.eqb_spec n 0) as [|Hn0]; [discriminate|]. cbn [negb].
  unfold mbind, M_bind, loadData. fold data family. cbn [default].
  destruct (list_find _ _) as [[idx item]|] eqn:Hfind; [|discriminate].
  destruct (edit_item _ _ item) as [item'|] eqn:Hedit; [|discriminate].
  intros _. exists n, idx, item, item'.
  apply list_find_Some in Hfind as (Hl & Hm & _).
  apply Is_true_true in Hm. unfold admin_item_matches in Hm.
  apply andb_true_iff in Hm as [Hid Hfam].
  apply orb_true_iff in Hid. rewrite !bool_decide_eq_true in Hid.
  apply String.eqb_eq in Hfam.
  split; [done|]. split; [done|]. split; [done|]. split; [done|].
  split; [done|]. split; [reflexivity|].
  split; [by apply (edit_item_lookup _ _ _ _ _ Hedit)|].
  split; [by apply (edit_item_lookup _ _ _ _ _ Hedit)|].
  eapply edit_item_family; [|exact Hedit].
  pose proof (loaded_items_normal raw) as Hall. rewrite Forall_forall in Hall.
  assert (item ∈ items (normalize raw)) as Hin
    by (apply list_elem_of_lookup; by exists idx).
  by destruct (Hall item Hin) as (_ & _ & _ & _ & ?).
Qed.

(** ** The CSV parser and the import *)

Lemma crlf_step (c : ascii) (r : string) :
  c <> CR -> crlf_to_lf (String c r) = String c (crlf_to_lf r).
Proof.
  intros Hc. destruct r as [|c2 r2]; [done|].
  change (crlf_to_lf (String c (String c2 r2)))
    with (if Ascii.eqb c CR && Ascii.eqb c2 LF then String LF (crlf_to_lf r2)
          else String c (crlf_to_lf (String c2 r2))).
  by destruct (Ascii.eqb_spec c CR).
Qed.

Lemma crlf_pair (r : string) :
  crlf_to_lf (String CR (String LF r)) = String LF (crlf_to_lf r).
Proof. reflexivity. Qed.

Lemma no_char_cons (c d : ascii) (r : string) :
  no_char c (String d r) = true -> d <> c /\ no_char c r = true.
Proof.
  cbn [no_char]. intros H. apply andb_true_iff in H as [H1 H2].
  split; [|done]. by destruct (Ascii.eqb_spec d c).
Qed.

Lemma crlf_to_lf_plain (t : string) : no_char CR t = true -> crlf_to_lf t = t.
Proof.
  induction t as [|c r IH]; [done|]. intros H.
  apply no_char_cons in H as [Hc Hr]. by rewrite crlf_step, IH.
Qed.

Lemma cr_to_lf_plain (t : string) : no_char CR t = true -> cr_to_lf t = t.
Proof.
  induction t as [|c r IH]; [done|]. intros H.
  apply no_char_cons in H as [Hc Hr]. cbn [cr_to_lf].
  destruct (Ascii.eqb_spec c CR); [done|]. by rewrite IH.
Qed.

Lemma crlf_to_lf_windows (t : string) :
  no_char CR t = true -> crlf_to_lf (lf_as CRLF t) = t.
Proof.
  induction t as [|c r IH]; [done|]. intros H.
  apply no_char_cons in H as [Hc Hr]. cbn [lf_as].
  destruct (Ascii.eqb_spec c LF) as [->|Hlf].
  - change (CRLF +:+ lf_as CRLF r) with (String CR (String LF (lf_as CRLF r))).
    by rewrite crlf_pair, IH.
  - by rewrite crlf_step, IH.
Qed.

Lemma lf_as_cr_no_lf (t : string) :
  no_char LF (lf_as (String CR EmptyString) t) = true.
Proof.
  induction t as [|c r IH]; [done|]. cbn [lf_as].
  destruct (Ascii.eqb_spec c LF) as [->|Hlf].
  - change (String CR EmptyString +:+ ?x) with (String CR x).
    cbn [no_char]. by rewrite IH.
  - cbn [no_char]. rewrite IH. by destruct (Ascii.eqb_spec c LF).
Qed.

Lemma crlf_to_lf_no_lf (t : string) : no_char LF t = true -> crlf_to_lf t = t.
Proof.
  induction t as [|c r IH]; [done|]. intros H.
  apply no_char_cons in H as [Hc Hr].
  destruct r as [|c2 r2]; [done|].
  pose proof (no_char_cons _ _ _ Hr) as [Hc2 _].
  change (crlf_to_lf (String c (String c2 r2)))
    with (if Ascii.eqb c CR && Ascii.eqb c2 LF then String LF (crlf_to_lf r2)
          else String c (crlf_to_lf (String c2 r2))).
  destruct (Ascii.eqb_spec c2 LF); [done|].
  rewrite andb_false_r. by rewrite (IH Hr).
Qed.

Lemma cr_to_lf_mac (t : string) :
  no_char CR t = true -> cr_to_lf (lf_as (String CR EmptyString) t) = t.
Proof.
  induction t as [|c r IH]; [done|]. intros H.
  apply no_char_cons in H as [Hc Hr]. cbn [lf_as].
  destruct (Ascii.eqb_spec c LF) as [->|Hlf].
  - change (String CR EmptyString +:+ ?x) with (String CR x).
    cbn [cr_to_lf]. by rewrite IH.
  - cbn [cr_to_lf]. destruct (Ascii.eqb_spec c CR); [done|]. by rewrite IH.
Qed.

(** Line endings do not matter to the parser: a text written with
    Windows line endings (CR LF) or with old Macintosh line endings (CR)
    gives the records of the same text written with line feeds. *)
Theorem line_endings_alike (t : string) :
  no_char CR t = true ->
  parseCsvText (lf_as CRLF t) = parseCsvText t
  /\ parseCsvText (lf_as (String CR EmptyString) t) = parseCsvText t.
Proof.
  intros H. unfold parseCsvText.
  rewrite (crlf_to_lf_windows t H), (crlf_to_lf_plain t H), (cr_to_lf_plain t H).
  by rewrite (crlf_to_lf_no_lf _ (lf_as_cr_no_lf t)), (cr_to_lf_mac t H).
Qed.

(** A column name that no header cell from [c] on produces is left as
    it is in the record. *)
Lemma make_record_other (header : list string) (c : nat) (fields : list string)
      (o : obj) (k : string) :
  (forall j h, header !! j = Some h -> column_key h (c + j) <> k) ->
  make_record header c fields o !! k = o !! k.
Proof.
  revert c o. induction header as [|h0 hs IH]; intros c o Hk; cbn [make_record].
  - done.
  - rewrite IH.
    + destruct (String.eqb _ _); [done|].
      apply lookup_insert_ne. specialize (Hk 0%nat h0 eq_refl).
      by rewrite Nat.add_0_r in Hk.
    + intros j h Hj. rewrite Nat.add_succ_comm. by apply (Hk (S j)).
Qed.

(** The record holds, under the name of a column, the cell of the last
    column with that name, or the empty string if the row is too short. *)
Lemma make_record_lookup (header : list string) (c : nat) (fields : list string)
      (o : obj) (j : nat) (h : string) :
  header !! j = Some h ->
  column_key h (c + j) <> "__proto__" ->
  (forall j' h', (j < j')%nat -> header !! j' = Some h' ->
                 column_key h' (c + j') <> column_key h (c + j)) ->
  make_record header c fields o !! column_key h (c + j)
  = Some (JStr (default "" (fields !! (c + j)%nat))).
Proof.
  revert c o j. induction header as [|h0 hs IH]; intros c o j Hj Hproto Hlast.
  - done.
  - cbn [make_record]. destruct j as [|j].
    + injection Hj as ->. rewrite Nat.add_0_r in *.
      rewrite make_record_other.
      * apply String.eqb_neq in Hproto. rewrite Hproto.
        apply lookup_insert_eq.
      * intros j' h' Hj'. rewrite Nat.add_succ_comm.
        apply (Hlast (S j') h'); [lia|done].
    + rewrite <- Nat.add_succ_comm in *. apply IH; [done|done|].
      intros j' h' Hlt Hj'. rewrite Nat.add_succ_comm.
      apply (Hlast (S j') h'); [lia|done].
Qed.

(** Every property of the record is the name of a column and holds a
    string. *)
Lemma make_record_keys (header : list string) (c : nat) (fields : list string)
      (o : obj) (k : string) (v : json) :
  make_record header c fields o !! k = Some v ->
  o !! k = Some v
  \/ exists j h, header !! j = Some h /\ k = column_key h (c + j)
                 /\ exists s, v = JStr s.
Proof.
  revert c o. induction header as [|h0 hs IH]; intros c o; cbn [make_record].
  - by left.
  - intros Hv. destruct (IH _ _ Hv) as [Ho|(j & h & Hj & Hk & Hs)].
    + destruct (String.eqb _ _); [by left|].
      destruct (decide (column_key h0 c = k)) as [<-|Hne].
      * rewrite lookup_insert_eq in Ho. injection Ho as <-.
        right. exists 0%nat, h0. rewrite Nat.add_0_r.
        split; [done|]. split; [done|]. by eexists.
      * rewrite lookup_insert_ne in Ho by done. by left.
    + right. exists (S j), h. rewrite <- Nat.add_succ_comm. by split.
Qed.

Lemma make_record_no_proto (header : list string) (c : nat) (fields : list string)
      (o : obj) :
  o !! "__proto__" = None ->
  make_record header c fields o !! "__proto__" = None.
Proof.
  revert c o. induction header as [|h0 hs IH]; intros c o Ho; cbn [make_record];
    [done|].
  apply IH. destruct (String.eqb_spec (column_key h0 c) "__proto__"); [done|].
  by rewrite lookup_insert_ne.
Qed.

Lemma map_lookup {A B : Type} (f : A -> B) (l : list A) (i : nat) :
  List.map f l !! i = f <$> (l !! i).
Proof.
  revert i. induction l as [|x l IH]; intros [|i]; simpl; done.
Qed.

(** Every record the parser returns is made of one row after the header
    that is not blank, in order.  With a header of ASCII text: under the
    name of a column (the lower-cased header cell, or col and the column
    number where the cell is empty) the record holds the cell of its row
    in that column, and the empty string if the row is too short; should
    several columns have the same name, it is the last of them; the
    record has no other properties.  A column named [__proto__] gives no
    property: an assignment to that name does not create one. *)
Theorem records_have_header_keys (text : string) (i : nat) (r : obj) :
  Forall (fun h => ascii_text h = true) (csv_header text) ->
  parseCsvText text !! i = Some r ->
  exists row,
    csv_data_rows text !! i = Some row
    /\ (forall c h,
           csv_header text !! c = Some h ->
           column_key h c <> "__proto__" ->
           (forall c' h', (c < c')%nat -> csv_header text !! c' = Some h' ->
                          column_key h' c' <> column_key h c) ->
           r !! column_key h c = Some (JStr (default "" (splitRow row !! c))))
    /\ (forall k v,
           r !! k = Some v ->
           k <> "__proto__"
           /\ exists c h, csv_header text !! c = Some h /\ k = column_key h c
                          /\ exists s, v = JStr s)
    /\ length (parseCsvText text) = length (csv_data_rows text).
Proof.
  intros _. unfold parseCsvText, csv_header, csv_data_rows, csv_rows.
  destruct (split_rows _ _ _) as [|row0 rest]; [done|].
  rewrite map_lookup. intros Hr.
  destruct (List.filter _ rest !! i) as [row|] eqn:Hrow; [|done].
  injection Hr as <-. exists row. split; [done|].
  split; [|split].
  - intros c h Hc Hproto Hlast.
    apply (make_record_lookup _ 0 _ _ c h Hc Hproto Hlast).
  - intros k v Hv.
    destruct (make_record_keys _ _ _ _ _ _ Hv) as [He|(c & h & Hc & -> & Hs)];
      [by rewrite lookup_empty in He|].
    split; [|by exists c, h].
    intros Hk. rewrite Hk, make_record_no_proto in Hv; [done|].
    apply lookup_empty.
  - by rewrite length_map.
Qed.

Lemma split_rows_eq (s cur : string) (inQuotes : bool) :
  split_rows s cur inQuotes =
  match s with
  | EmptyString => if String.eqb cur "" then [] else [cur]
  | String ch r =>
      if Ascii.eqb ch dquote then
        match r with
        | String ch2 r2 =>
            if inQuotes && Ascii.eqb ch2 dquote
            then split_rows r2 (push_char cur dquote) inQuotes
            else split_rows r cur (negb inQuotes)
        | EmptyString => split_rows r cur (negb inQuotes)
        end
      else if Ascii.eqb ch LF && negb inQuotes then
        cur :: split_rows r EmptyString inQuotes
      else split_rows r (push_char cur ch) inQuotes
  end.
Proof. by destruct s. Qed.

Lemma split_rows_single (n : nat) (s cur : string) (inQuotes : bool) :
  (String.length s <= n)%nat ->
  no_char LF s = true ->
  (length (split_rows s cur inQuotes) <= 1)%nat.
Proof.
  revert s cur inQuotes.
  induction n as [|n IH]; intros s cur inQuotes Hlen Hlf.
  - destruct s; [|simpl in Hlen; lia].
    rewrite split_rows_eq. destruct (String.eqb cur ""); simpl; lia.
  - rewrite split_rows_eq. destruct s as [|ch r].
    + destruct (String.eqb cur ""); simpl; lia.
    + apply no_char_cons in Hlf as [Hch Hr]. cbn [String.length] in Hlen.
      destruct (Ascii.eqb ch dquote).
      * destruct r as [|ch2 r2].
        -- apply IH; [simpl; lia|done].
        -- destruct (inQuotes && Ascii.eqb ch2 dquote).
           ++ apply IH; [cbn [String.length] in Hlen; lia|].
              by apply no_char_cons in Hr as [_ ?].
           ++ apply IH; [lia|done].
      * destruct (Ascii.eqb_spec ch LF); [done|]. cbn [andb].
        apply IH; [lia|done].
Qed.

(** A CSV text of a single line, the header alone, imports nothing: the
    answer is the success "No rows to add." with [added: 0], and the file
    is neither written nor, on first use, created. *)
Theorem header_only_csv (text : string) (req : request) (d : disk) :
  no_char LF text = true ->
  no_char CR text = true ->
  text <> "" ->
  body req !! "csv" = Some (JStr text) ->
  parseCsvText text = []
  /\ upload_csv_text req d
     = ({| status := 200%nat;
           payload := js_object [("success", JBool true); ("added", JNum 0);
                                 ("message", JStr "No rows to add.")] |},
        d).
Proof.
  intros Hlf Hcr Hne Hbody.
  assert (parseCsvText text = []) as Hparse.
  { unfold parseCsvText.
    rewrite (crlf_to_lf_plain text Hcr), (cr_to_lf_plain text Hcr).
    pose proof (split_rows_single (String.length text) text "" false
                  (le_n _) Hlf) as Hlen.
    destruct (split_rows text "" false) as [|row0 [|row1 rest]]; [done|done|].
    simpl in Hlen. lia. }
  split; [done|].
  unfold upload_csv_text. rewrite Hbody.
  destruct (String.eqb_spec text ""); [done|]. cbn [negb].
  by rewrite Hparse.
Qed.

Lemma js_or_truthy (a b : jsval) : truthy b = true -> truthy (a ||| b) = true.
Proof. intros Hb. unfold js_or. by destruct (truthy a) eqn:E. Qed.

Lemma csv_item_normal (body : obj) (m : Z) (r : obj) :
  0 <= m ->
  0 <= (csv_item body m r).1 /\ normal_item (csv_item body m r).2.
Proof.
  intros Hm. unfold csv_item.
  set (idNum := to_number (r !! "itemid" ||| r !! "id" ||| Some (JStr ""))).
  assert (exists m' id, (if num_truthy idNum
                         then (if default 0 idNum >? m then default 0 idNum else m,
                               default 0 idNum)
                         else (m + 1, m + 1)) = (m', id)
                        /\ 0 <= m' /\ id <> 0) as (m' & id & -> & Hm' & Hid).
  { destruct (num_truthy idNum) eqn:E.
    - eexists _, _. split; [done|]. split.
      + destruct (Z.gtb_spec (default 0 idNum) m); lia.
      + by apply num_truthy_nonzero.
    - eexists _, _. split; [done|]. lia. }
  cbn [fst snd]. split; [done|].
  destruct (js_or_is_Some (r !! "recipientcode" ||| r !! "recipient") (JStr ""))
    as [v1 ->].
  destruct (js_or_is_Some (r !! "recipientname" ||| r !! "recipient") (JStr ""))
    as [v2 ->].
  destruct (js_or_is_Some (r !! "itemname" ||| r !! "name") (JStr "")) as [v3 ->].
  destruct (js_or_is_Some (r !! "details" ||| r !! "notes") (JStr "")) as [v4 ->].
  destruct (js_or_is_Some (r !! "url") (JStr "")) as [v5 ->].
  pose proof (js_or_truthy (r !! "family" ||| body !! "family") default_family
                eq_refl) as Hfam.
  destruct (js_or_is_Some (r !! "family" ||| body !! "family") (JStr "default"))
    as [v6 Hv6]. unfold default_family in *. rewrite Hv6 in Hfam |- *.
  destruct (js_or_is_Some
              (r !! "claimedbycode" ||| r !! "claimedby" ||| Some (JStr "")) JNull)
    as [v7 ->].
  cbn [assign]. unfold normal_item.
  split; [simplify_map_eq; by apply truthy_num|].
  split; [by simplify_map_eq|].
  split; [eexists; by simplify_map_eq|].
  split; [by simplify_map_eq|].
  by simplify_map_eq.
Qed.

Lemma csv_items_normal (body : obj) (records : list obj) (m : Z) :
  0 <= m ->
  Forall normal_item (csv_items body m records)
  /\ length (csv_items body m records) = length records.
Proof.
  revert m. induction records as [|r rs IH]; intros m Hm; cbn [csv_items].
  - split; [constructor|done].
  - destruct (csv_item_normal body m r Hm) as [Hm' Hn].
    destruct (csv_item body m r) as [m' out]. cbn [fst snd] in *.
    destruct (IH m' Hm') as [Hall Hlen].
    split; [by constructor|]. cbn [length]. by rewrite Hlen.
Qed.

(** An import with at least one record appends one item per record to
    the loaded items, in order, and reports their number; people and the
    loaded items stay as they are, and what is saved is in the current
    shape already: the next [loadData] returns exactly the saved store.
    The file and the import are in range: ids, itemIds and id cells are
    numbers or plain decimal texts, and the ids stay within 2^53, so that
    every id is a number that is written to the file as it is. *)
Theorem upload_appends (raw : store) (req : request) (csv : string) :
  let data := normalize raw in
  body req !! "csv" = Some (JStr csv) ->
  parseCsvText csv <> [] ->
  load_in_range (items raw) ->
  ids_in_range (items data) (parseCsvText csv) ->
  exists added,
    let after := set_items data (items data ++ added) in
    upload_csv_text req (Some raw)
    = ({| status := 200%nat;
          payload := js_object [("success", JBool true);
                                ("added", JNum (Z.of_nat (length added)))] |},
       Some after)
    /\ length added = length (parseCsvText csv)
    /\ Forall normal_item added
    /\ (loadData (Some after)).1 = after.
Proof.
  intros data Hbody Hrec _ _.
  exists (csv_items (body req) (max_seen (items data)) (parseCsvText csv)).
  destruct (csv_items_normal (body req) (parseCsvText csv) (max_seen (items data))
              (max_seen_nonneg _)) as [Hall Hlen].
  cbv zeta. split.
  { unfold upload_csv_text. rewrite Hbody.
    destruct (String.eqb_spec csv "") as [->|_]; [done|]. cbn [negb].
    destruct (parseCsvText csv) as [|r rs] eqn:E; [done|]. reflexivity. }
  split; [done|]. split; [done|].
  cbn [loadData fst]. apply normalize_normalize_fix, Forall_app.
  split; [apply loaded_items_normal|done].
Qed.

(** ** People, further *)

Lemma normal_person_insert_other (k : string) (v : json) (p : obj) :
  k <> "family" -> normal_person p -> normal_person (<[k := v]> p).
Proof. intros Hk Hp. unfold normal_person. by rewrite lookup_insert_ne. Qed.

(** Updating a person never changes the code, and changes the family only
    when the body carries one: a successful update saves the loaded store
    with that one person replaced and the items untouched; without
    [family] in the body the family stays, with it the family becomes the
    trimmed text, or "default" when that is blank; [name] is replaced
    only when the body has it, by the text of the plain value sent. *)
Theorem update_person_keeps (raw : store) (req : request) :
  let data := normalize raw in
  plain_text (body req !! "name") = true ->
  status (update_person req (Some raw)).1 = 200%nat ->
  exists idx person person',
    people data !! idx = Some person
    /\ update_person req (Some raw)
       = ({| status := 200%nat;
             payload := js_object [("success", JBool true);
                                   ("person", JObj person')] |},
          Some (set_people data (<[idx := person']> (people data))))
    /\ person' !! "code" = person !! "code"
    /\ (has "family" (body req) = false -> person' !! "family" = person !! "family")
    /\ (has "family" (body req) = true ->
        exists s, body req !! "family" ||| Some (JStr "") = Some (JStr s)
                  /\ person' !! "family"
                     = Some (JStr (if String.eqb (trim s) "" then "default" else trim s)))
    /\ (has "name" (body req) = false -> person' !! "name" = person !! "name")
    /\ (has "name" (body req) = true ->
        person' !! "name"
        = Some (JStr (to_String (body req !! "name" ||| Some (JStr "")))))
    /\ normal_person person'.
Proof.
  intros data _. unfold update_person.
  destruct (String.eqb (param req) ""); [discriminate|].
  unfold mbind, M_bind, loadData. fold data.
  destruct (list_find _ _) as [[idx person]|] eqn:Hfind; [|discriminate].
  destruct (edit_person _ _ person) as [person'|] eqn:Hedit; [|discriminate].
  intros _. exists idx, person, person'.
  apply list_find_Some in Hfind as (Hl & _).
  split; [done|]. split; [reflexivity|].
  assert (normal_person person) as Hnp.
  { pose proof (normal_people raw) as Hall. rewrite Forall_forall in Hall.
    apply Hall, list_elem_of_lookup. by exists idx. }
  unfold edit_person in Hedit.
  set (p1 := if has "name" (body req) then _ else person) in Hedit.
  set (p2 := if has "preferences" (body req) then _ else p1) in Hedit.
  assert (forall k, k <> "name" -> k <> "preferences" -> p2 !! k = person !! k) as Hp2.
  { intros k Hk1 Hk2. unfold p2, p1.
    destruct (has "preferences" (body req)); destruct (has "name" (body req));
      rewrite ?assign_lookup_ne by done; by rewrite ?lookup_insert_ne by done. }
  assert (has "name" (body req) = false -> p2 !! "name" = person !! "name") as Hname.
  { intros Hn. unfold p2, p1. rewrite Hn.
    destruct (has "preferences" (body req)); [by rewrite assign_lookup_ne|done]. }
  assert (has "name" (body req) = true ->
          p2 !! "name"
          = Some (JStr (to_String (body req !! "name" ||| Some (JStr ""))))) as Hnew.
  { intros Hn. unfold p2, p1. rewrite Hn.
    destruct (has "preferences" (body req));
      rewrite ?assign_lookup_ne by done; apply lookup_insert_eq. }
  destruct (has "family" (body req)) eqn:Hhas.
  - unfold new_family in Hedit.
    destruct (body req !! "family" ||| Some (JStr "")) as [[| | |s| |]|] eqn:Hf;
      try discriminate.
    cbv [mbind option_bind] in Hedit. apply (inj Some) in Hedit. subst person'.
    split; [rewrite lookup_insert_ne by done; by apply Hp2|].
    split; [done|]. split.
    { intros _. exists s. split; [done|]. rewrite lookup_insert_eq.
      by destruct (String.eqb (trim s) ""). }
    split; [intros Hn; rewrite lookup_insert_ne by done; by apply Hname|].
    split; [intros Hn; rewrite lookup_insert_ne by done; by apply Hnew|].
    unfold normal_person. rewrite lookup_insert_eq.
    destruct (String.eqb_spec (trim s) "") as [E|E]; cbn [negb]; [done|].
    cbn [truthy]. by apply negb_true_iff, String.eqb_neq.
  - assert (truthy (p2 !! "family") = true) as Ht by (by rewrite Hp2).
    rewrite Ht in Hedit. cbn [negb] in Hedit. apply (inj Some) in Hedit.
    subst person'.
    split; [by apply Hp2|]. split; [intros _; by apply Hp2|].
    split; [done|]. split; [done|]. split; [done|]. done.
Qed.

Lemma filter_snoc_true (P : obj -> bool) (l : list obj) (x : obj) :
  P x = true ->
  filter (fun o => P o) (l ++ [x]) = filter (fun o => P o) l ++ [x].
Proof.
  intros Hx. rewrite filter_app. f_equal.
  rewrite filter_cons_True by (by apply Is_true_true). done.
Qed.

(** A person just created can log in: when the trimmed code is not
    empty, the code, name and family sent are plain values, the codes are
    ASCII text and no person has the code up to letter case, the creation
    succeeds, and GET /recipients with the new code and the family the
    person was created in answers with that person as currentUser. *)
Theorem create_then_recipients (raw : store) (req req' : request) :
  let code := trimmed_field "code" (body req) in
  let family := body req !! "family" ||| query req !! "family" ||| default_family in
  code <> "" ->
  plain_text (body req !! "code") = true ->
  plain_text (body req !! "name") = true ->
  plain_text family = true ->
  ascii_text code = true ->
  ascii_codes (people (normalize raw)) ->
  ~ code_taken (people (normalize raw)) code ->
  query req' !! "code" = Some (JStr code) ->
  to_String (query req' !! "family" ||| default_family) = to_String family ->
  exists person after,
    create_person req (Some raw)
    = ({| status := 200%nat;
          payload := js_object [("success", JBool true); ("person", JObj person)] |},
       Some after)
    /\ person !! "code" = Some (JStr code)
    /\ get_recipients req' (Some after)
       = ({| status := 200%nat;
             payload := js_object
                          [("currentUser", JObj person);
                           ("recipients",
                            JArr (JObj <$> recipients_of
                                             (query req' !! "family" ||| default_family)
                                             after))] |},
          Some after).
Proof.
  intros code family Hcode _ _ _ _ _ Hfree Hq Hfam.
  destruct (js_or_is_Some (body req !! "family" ||| query req !! "family")
              (JStr "default")) as [f Hf].
  destruct (js_or_is_Some (body req !! "preferences") (JStr "")) as [pr Hpr].
  pose proof (js_or_truthy (body req !! "family" ||| query req !! "family")
                default_family eq_refl) as Hft.
  unfold default_family in Hft. rewrite Hf in Hft.
  set (person := <["family" := f]>
                   (<["preferences" := pr]>
                      (<["name" := JStr (trimmed_field "name" (body req))]>
                         (<["code" := JStr code]> (∅ : obj))))).
  set (after := set_people (normalize raw) (people (normalize raw) ++ [person])).
  exists person, after.
  assert (person !! "code" = Some (JStr code)) as Hpc by (by unfold person; simplify_map_eq).
  assert (person !! "family" = Some f) as Hpf by (by unfold person; simplify_map_eq).
  split.
  { unfold create_person. fold code. apply String.eqb_neq in Hcode. rewrite Hcode.
    unfold mbind, M_bind, loadData. rewrite (find_code_free _ _ Hfree).
    unfold default_family. rewrite Hf, Hpr. reflexivity. }
  split; [done|].
  assert (normalize after = after) as Hfix.
  { apply normalize_fix; [apply loaded_items_normal|].
    unfold after. cbn [people set_people]. apply Forall_app. split.
    - apply normal_people.
    - constructor; [|constructor]. unfold normal_person. by rewrite Hpf. }
  unfold get_recipients, mbind, M_bind, loadData. rewrite Hfix, Hq.
  set (fam' := query req' !! "family" ||| default_family) in *.
  assert (family_of person = to_String fam') as Hpfam.
  { unfold family_of, js_or. rewrite Hpf, Hft. rewrite Hfam.
    unfold family, default_family. by rewrite Hf. }
  assert (list_find (fun p => strict_eq (p !! "code") (Some (JStr code)))
                    (recipients_of fam' after)
          = Some (length (recipients_of fam' (normalize raw)), person)) as ->; [|done].
  unfold recipients_of, after. cbn [people set_people].
  rewrite (filter_snoc_true (fun p => String.eqb (family_of p) (to_String fam')))
    by (by apply String.eqb_eq).
  apply list_find_Some. split; [by rewrite lookup_app_r, Nat.sub_diag|].
  split.
  { apply Is_true_true. rewrite Hpc. simpl. apply String.eqb_refl. }
  intros j p Hj Hlt Hp. rewrite lookup_app_l in Hj by done.
  apply Hfree. exists p. split.
  - assert (p ∈ filter (fun p => String.eqb (family_of p) (to_String fam'))
                       (people (normalize raw))) as Hin
      by (apply list_elem_of_lookup; by exists j).
    by apply list_elem_of_filter in Hin as [_ ?].
  - apply Is_true_true, strict_eq_true in Hp. rewrite Hp.
    by apply toLowerCase_same_letters.
Qed.

(** After a person was deleted, the wishlist of that code in that family
    is empty at the next load: the cascade leaves no item there. *)
Theorem delete_empties_wishlist (raw after : store) (req : request) (family' : jsval) :
  delete_person req (Some raw) = (success, Some after) ->
  to_String family' = to_String (query req !! "family" ||| default_family) ->
  wishlist_items (Some (JStr (param req))) family' (loadData (Some after)).1 = [].
Proof.
  intros Hdel Hfam. unfold delete_person in Hdel.
  destruct (String.eqb (param req) "").
  { apply pair_equal_spec in Hdel as [Hr _]. by apply failure_not_success in Hr. }
  unfold mbind, M_bind, loadData in Hdel.
  destruct (list_find _ _) as [[idx person]|].
  2:{ apply pair_equal_spec in Hdel as [Hr _]. by apply failure_not_success in Hr. }
  apply pair_equal_spec in Hdel as [_ Hd]. apply (inj Some) in Hd. subst after.
  set (family := query req !! "family" ||| default_family) in *.
  cbn [loadData fst]. rewrite normalize_fix.
  - unfold wishlist_items. cbn [items].
    destruct (filter _ (filter _ _)) as [|x l] eqn:E; [done|].
    assert (x ∈ x :: l) as Hin by apply list_elem_of_here.
    rewrite <- E in Hin.
    apply list_elem_of_filter in Hin as [Hw Hin].
    apply list_elem_of_filter in Hin as [Hnot _].
    apply Is_true_true in Hw. unfold wishlist_matches in Hw.
    apply andb_true_iff in Hw as [Hc Hf]. apply strict_eq_true in Hc.
    apply String.eqb_eq in Hf.
    apply Is_true_true, negb_true_iff in Hnot. unfold owned_by in Hnot.
    rewrite Hc in Hnot. cbn [to_String to_String_json] in Hnot.
    rewrite String.eqb_refl, Hf, Hfam, String.eqb_refl in Hnot. discriminate.
  - cbn [items]. apply Forall_forall. intros it Hin.
    apply list_elem_of_filter in Hin as [_ Hin].
    pose proof (loaded_items_normal raw) as Hall. rewrite Forall_forall in Hall.
    by apply Hall.
  - cbn [people]. apply Forall_forall. intros p Hin.
    pose proof (normal_people raw) as Hall. rewrite Forall_forall in Hall.
    apply Hall. apply list_elem_of_lookup in Hin as [j Hj].
    apply list_elem_of_lookup.
    destruct (decide (j < idx)%nat).
    + exists j. by rewrite list_lookup_delete_lt in Hj.
    + exists (S j). by rewrite list_lookup_delete_ge in Hj by lia.
Qed.

(** ** The migration script *)

Lemma migrate_item_settled (it : obj) : in_default_family (migrate_item it) = false.
Proof.
  unfold migrate_item. destruct (in_default_family it) eqn:E; [|done].
  unfold in_default_family. by rewrite lookup_insert_eq.
Qed.

Lemma migrate_item_fix (it : obj) : in_default_family it = false -> migrate_item it = it.
Proof. intros H. unfold migrate_item. by rewrite H. Qed.

Lemma settled_family (it : obj) :
  in_default_family it = false -> family_of it <> "default".
Proof.
  unfold in_default_family, family_of, js_or. intros H.
  apply orb_false_elim in H as [Ht Hs].
  apply negb_false_iff in Ht. rewrite Ht. by apply String.eqb_neq.
Qed.

Lemma migrate_items_fix (its : list obj) :
  existsb in_default_family its = false -> migrate_item <$> its = its.
Proof.
  induction its as [|it its IH]; [done|]. cbn [existsb]. intros H.
  apply orb_false_elim in H as [H1 H2].
  by rewrite fmap_cons, (migrate_item_fix _ H1), IH.
Qed.

Lemma migrate_file_items (raw : store) :
  migrate_file raw = set_items raw (migrate_item <$> items raw).
Proof.
  unfold migrate_file, migrate.
  destruct (existsb in_default_family (items raw)) eqn:E; [done|].
  rewrite (migrate_items_fix _ E). by destruct raw.
Qed.

(** The migration script moves every item whose family is missing, falsy
    or "default" to the family "Rigsby" and changes nothing else: people
    and all other items stay, no item is added, dropped or moved, and an
    item that is moved changes in its family only.  Afterwards no item is
    in the family "default", and a second run finds nothing to change and
    does not write the file. *)
Theorem migration_moves_default (raw : store) :
  let after := migrate_file raw in
  people after = people raw
  /\ length (items after) = length (items raw)
  /\ (forall i it, items raw !! i = Some it ->
        exists it',
          items after !! i = Some it'
          /\ (in_default_family it = true -> it' = <["family" := JStr "Rigsby"]> it)
          /\ (in_default_family it = false -> it' = it))
  /\ Forall (fun it => family_of it <> "default") (items after)
  /\ (migrate after).2 = false
  /\ migrate_file after = after.
Proof.
  intros after. unfold after. rewrite migrate_file_items.
  cbn [people items set_items].
  assert (existsb in_default_family (migrate_item <$> items raw) = false) as Hnone.
  { induction (items raw) as [|it its IH]; [done|].
    rewrite fmap_cons. cbn [existsb]. by rewrite migrate_item_settled, IH. }
  split; [done|]. split; [apply length_fmap|]. split.
  { intros i it Hi. exists (migrate_item it). rewrite list_lookup_fmap, Hi.
    split; [done|]. unfold migrate_item. by split; intros ->. }
  split.
  { apply Forall_fmap, Forall_forall. intros it _.
    apply settled_family, migrate_item_settled. }
  split; [exact Hnone|].
  unfold migrate_file, migrate. cbn [items set_items]. by rewrite Hnone.
Qed.

(** ** The earlier revision *)

Lemma earlier_items (its : list obj) (m : Z) :
  normalize_items m its = norm_family <$> Earlier.normalize_items m its.
Proof.
  revert m. induction its as [|it its IH]; intros m; [done|].
  cbn [normalize_items Earlier.normalize_items].
  unfold normalize_item, Earlier.normalize_item.
  destruct (norm_id m it) as [m' it1]. rewrite fmap_cons. by rewrite IH.
Qed.

Lemma earlier_normalize (raw : store) :
  normalize raw = with_families (Earlier.normalize raw).
Proof. unfold normalize, with_families. cbn. by rewrite earlier_items. Qed.

Lemma norm_family_lookup (o : obj) (k : string) :
  k <> "family" -> norm_family o !! k = o !! k.
Proof. apply norm_family_spec. Qed.

Lemma norm_family_default (o : obj) :
  family_of o = "default" -> family_of (norm_family o) = "default".
Proof.
  intros H. unfold norm_family.
  destruct (negb (has "family" o) || negb (truthy (o !! "family"))); [|done].
  unfold family_of, js_or. by rewrite lookup_insert_eq.
Qed.

Lemma earlier_item_family (m : Z) (it : obj) :
  family_of it = "default" -> family_of (Earlier.normalize_item m it).2 = "default".
Proof.
  intros H. unfold Earlier.normalize_item, family_of in *.
  destruct (norm_id m it) as [m' it1] eqn:E. cbn [snd].
  rewrite (proj2 (norm_claimed_spec _)), (proj2 (norm_tags_spec _)),
    (proj2 (norm_details_spec _)) by done.
  unfold norm_id in E.
  destruct (negb (truthy (it !! "id"))); [|by injection E as _ <-].
  destruct (num_truthy _); injection E as _ <-; by rewrite lookup_insert_ne.
Qed.

Lemma earlier_items_family (its : list obj) (m : Z) :
  Forall (fun it => family_of it = "default") its ->
  Forall (fun it => family_of it = "default") (Earlier.normalize_items m its).
Proof.
  intros H. revert m. induction H as [|it its Hit _ IH]; intros m;
    cbn [Earlier.normalize_items]; [constructor|].
  pose proof (earlier_item_family m it Hit) as Hf.
  destruct (Earlier.normalize_item m it) as [m' it']. constructor; [done|apply IH].
Qed.

(** Looking up by id and family among the items with families filled in
    finds what looking up by id alone finds, when all is in "default". *)
Lemma find_with_family (idNum : option Z) (family : jsval) (l : list obj) :
  to_String family = "default" ->
  Forall (fun it => family_of it = "default") l ->
  list_find (fun i => item_matches idNum family i) (norm_family <$> l)
  = prod_map id norm_family <$> list_find (fun i => Earlier.item_matches idNum i) l.
Proof.
  intros Hfam H. induction H as [|it its Hit _ IH]; [done|].
  rewrite fmap_cons. cbn [list_find].
  assert (item_matches idNum family (norm_family it) = Earlier.item_matches idNum it)
    as Heq.
  { unfold item_matches, Earlier.item_matches.
    rewrite norm_family_lookup by done.
    rewrite (norm_family_default _ Hit), Hfam. cbn. by rewrite andb_true_r. }
  rewrite Heq. destruct (decide _); [done|].
  rewrite IH. by destruct (list_find _ its) as [[i x]|].
Qed.

Lemma norm_family_assign (k : string) (v : jsval) (o : obj) :
  k <> "family" -> norm_family (assign k v o) = assign k v (norm_family o).
Proof.
  intros Hk. unfold norm_family, has. rewrite assign_lookup_ne by done.
  destruct (negb _ || negb _); [|done].
  destruct v as [j|]; cbn [assign].
  - by apply insert_insert_ne.
  - symmetry. by apply delete_insert_ne.
Qed.

(** Where no family is in play, the server with families answers a claim
    and an unclaim as the earlier revision does: if every item of the file
    is in the family "default" and the request names no other family, the
    responses are the same, and when the call wrote, the file it leaves is
    the file of the earlier revision with the families filled in. *)
Theorem earlier_revision_agrees (raw : store) (req : request) :
  Forall (fun it => family_of it = "default") (items raw) ->
  to_String (claim_family req) = "default" ->
  (claim req (Some raw)).1 = (Earlier.claim req (Some raw)).1
  /\ (unclaim req (Some raw)).1 = (Earlier.unclaim req (Some raw)).1
  /\ (forall a b, (claim req (Some raw)).1 = success ->
                  (claim req (Some raw)).2 = Some a ->
                  (Earlier.claim req (Some raw)).2 = Some b ->
                  a = with_families b)
  /\ (forall a b, (unclaim req (Some raw)).1 = success ->
                  (unclaim req (Some raw)).2 = Some a ->
                  (Earlier.unclaim req (Some raw)).2 = Some b ->
                  a = with_families b).
Proof.
  intros Hall Hfam.
  pose proof (earlier_items_family (items raw) (max_seen (items raw)) Hall) as Hall1.
  unfold claim, unclaim, Earlier.claim, Earlier.unclaim, mbind, M_bind,
    loadData, Earlier.loadData.
  rewrite (earlier_normalize raw). cbn [items with_families people].
  change (items (Earlier.normalize raw))
    with (Earlier.normalize_items (max_seen (items raw)) (items raw)).
  rewrite (find_with_family _ _ _ Hfam Hall1).
  destruct (list_find (fun i => Earlier.item_matches _ i) _) as [[idx item]|];
    cbn [fmap option_fmap option_map prod_map id fst snd].
  2:{ repeat split; try done; intros a b H; by apply failure_not_success in H. }
  rewrite !norm_family_lookup by done.
  split; [by destruct (_ && _)|]. split; [by destruct (negb _)|]. split.
  - intros a b. destruct (_ && _); cbn [fst snd saveData mret M_ret].
    { intros H. by apply failure_not_success in H. }
    intros _ [= <-] [= <-]. unfold with_families, set_items. cbn [people items].
    by rewrite list_fmap_insert, norm_family_assign.
  - intros a b. destruct (negb _); cbn [fst snd saveData mret M_ret].
    { intros H. by apply failure_not_success in H. }
    intros _ [= <-] [= <-]. unfold with_families, set_items. cbn [people items].
    rewrite list_fmap_insert.
    pose proof (norm_family_assign "claimedByCode" (Some JNull) item) as Hc.
    cbn [assign] in Hc. by rewrite Hc.
Qed.

(** * Concrete checks *)

Ltac first_item :=
  split; [reflexivity|]; split; [split; reflexivity|]; intros ? ? _ ?; lia.






(** C5 at a concrete store in the old file format. *)
Lemma normalize_idempotent_check :
  normalize (normalize legacy_store) = normalize legacy_store
  /\ normalize legacy_store <> legacy_store.
Proof.
  split; [apply (normalize_idempotent legacy_store)|].
  intros H. apply (f_equal (fun s => (fun it => it !! "id") <$> items s)) in H.
  vm_compute in H. discriminate.
Defined.

(** C6: on the CSV text of the spec the import adds one item named Bike
    for LAUREN, and its tags are ["red"]: the first loop of [parseCsvText]
    drops the quote characters, so [splitRow] sees the row
    Bike,LAUREN,red,shiny and the comma inside the quoted cell separates
    columns; the fourth cell, shiny, has no header and is lost. *)
Theorem csv_quoted_comma_lost :
  split_rows csv_bike "" false
  = ["itemName,recipientCode,tags"; "Bike,LAUREN,red,shiny"]
  /\ upload_csv_text (csv_request csv_bike) (Some empty_store)
     = ({| status := 200%nat;
           payload := js_object [("success", JBool true); ("added", JNum 1)] |},
        Some {| people := []; items := [bike_imported] |})
  /\ bike_imported !! "itemName" = Some (JStr "Bike")
  /\ bike_imported !! "recipientCode" = Some (JStr "LAUREN")
  /\ bike_imported !! "tags" = Some (JArr [JStr "red"])
  /\ bike_imported !! "tags" <> Some (JArr [JStr "red"; JStr "shiny"]).
Proof.
  split; [reflexivity|]. split; [vm_compute; reflexivity|].
  repeat split; try reflexivity. vm_compute. discriminate.
Qed.

Lemma store1_ids_unique : ids_unique store1.
Proof.
  split.
  - repeat constructor.
  - apply NoDup_singleton.
Qed.

(** C3 as stated fails: a CSV row that supplies the id 1 is stored with
    the id 1 although the store already holds an item with that id. *)
Lemma csv_supplied_id_counterexample :
  ids_unique store1
  /\ run [UploadCsv (csv_request csv_with_id)] (Some store1)
     = Some {| people := [lauren]; items := [bike; kite_imported] |}
  /\ bike !! "id" = Some (JNum 1)
  /\ kite_imported !! "id" = Some (JNum 1)
  /\ ~ ids_unique {| people := [lauren]; items := [bike; kite_imported] |}.
Proof.
  split; [apply store1_ids_unique|]. split; [vm_compute; reflexivity|].
  split; [reflexivity|]. split; [reflexivity|].
  intros [_ Hnd]. vm_compute in Hnd.
  apply NoDup_cons in Hnd as [Hnotin _]. apply Hnotin, list_elem_of_here.
Qed.

Lemma parse_csv_new_ids : parseCsvText csv_new_ids = [kite_row; ball_row].
Proof. vm_compute. reflexivity. Qed.

(** The import of [csv_new_ids] into [store1] is in range, and the one id
    it supplies, 7, is not in use. *)
Lemma csv_new_ids_ok : import_ok (UploadCsv (csv_request csv_new_ids)) (Some store1).
Proof.
  intros raw csv [= <-] Hcsv.
  assert (csv = csv_new_ids) as ->
      by (vm_compute in Hcsv; by injection Hcsv as <-).
  rewrite parse_csv_new_ids. split.
  - split; [repeat constructor|]. split; [repeat constructor|].
    split; [vm_compute; discriminate|].
    constructor; [|constructor; [|constructor]];
      intros n [Hn Hn0]; vm_compute in Hn; injection Hn as <-;
      [vm_compute; discriminate|done].
  - intros pre r post n Hrec [Hn Hn0].
    destruct pre as [|a [|b pre]].
    + injection Hrec as <- _. vm_compute in Hn. injection Hn as <-.
      intros Hin. vm_compute in Hin.
      apply list_elem_of_singleton in Hin. discriminate.
    + injection Hrec as _ <- _. vm_compute in Hn. injection Hn as <-. done.
    + injection Hrec as _ _ Hrec. by destruct pre.
Qed.

(** C3 at a concrete run: an import whose first row supplies the new id 7
    and whose second row supplies none, then a claim. *)
Lemma ids_stay_unique_witness :
  (exists after,
      run [UploadCsv (csv_request csv_new_ids); Claim (claim_request "ANNA" 7)]
          (Some store1) = Some after
      /\ ids_unique after).
Proof.
  apply (ids_stay_unique store1).
  - apply store1_ids_unique.
  - split; [apply csv_new_ids_ok|]. split; exact I.
Defined.

(** C4 as stated fails: an item of an old file keeps its [tag] text when
    it is claimed, while its [tags] are the split list. *)
Lemma claim_legacy_item_counterexample :
  handle (Claim (claim_request "ANNA" 1)) (Some legacy_store)
  = (success, Some {| people := [lauren]; items := [legacy_bike_claimed] |})
  /\ legacy_bike_claimed !! "tags" = Some (JArr [JStr "red"; JStr "shiny"])
  /\ legacy_bike_claimed !! "tag" = Some (JStr "red,shiny")
  /\ array_join "/" [JStr "red"; JStr "shiny"] = "red/shiny"
  /\ ~ synced legacy_bike_claimed.
Proof.
  split; [vm_compute; reflexivity|]. repeat split; try reflexivity.
  intros [_ (l & Hl & Ht)]. vm_compute in Hl. injection Hl as <-.
  vm_compute in Ht. discriminate.
Qed.

Lemma bike_synced : synced bike.
Proof.
  split.
  - by exists (JStr "red").
  - by exists [JStr "red"].
Qed.

(** C4 at a concrete store: a claim on a store whose item is in sync. *)
Lemma legacy_sync_kept_witness :
  exists after,
    (handle (Claim (claim_request "ANNA" 1)) (Some store1)).2 = Some after
    /\ Forall synced (items after).
Proof.
  destruct (legacy_sync_kept store1 (Claim (claim_request "ANNA" 1))
              (csv_request csv_without_id)) as [H _].
  apply H. constructor; [apply bike_synced|constructor].
Defined.


(** C8 at a concrete store: deleting LAUREN of family smith keeps LAUREN
    of family default and her bike. *)
Lemma delete_person_exact_witness :
  exists after,
    delete_person (person_request "LAUREN" "smith" ∅) (Some two_families)
    = (success, Some after)
    /\ people after = [lauren]
    /\ items after = [bike].
Proof.
  destruct (delete_person_exact two_families (person_request "LAUREN" "smith" ∅))
    as (idx & person & after & _ & _ & Hdel & _).
  - discriminate.
  - exists lauren_smith. split; [|split; reflexivity].
    apply list_elem_of_further, list_elem_of_here.
  - exists after. split; [exact Hdel|].
    vm_compute in Hdel. injection Hdel as <-. split; reflexivity.
Defined.

(** C9 at a concrete store: LAUREN moves to family smith, her bike stays
    in family default. *)
Lemma update_person_family_frame_witness :
  exists person',
    (update_person move_lauren (Some store1)).2
    = Some {| people := [person']; items := [bike] |}
    /\ family_of person' = "smith"
    /\ family_of bike = "default".
Proof.
  destruct (update_person_family_frame store1 move_lauren (JStr "smith"))
    as (idx & person & person' & Hl & _ & Hupd & _ & _ & Hfam & _).
  - discriminate.
  - exists lauren. split; [apply list_elem_of_here|split; reflexivity].
  - reflexivity.
  - reflexivity.
  - reflexivity.
  - exists person'. rewrite Hupd. simpl.
    destruct idx as [|idx]; [|by destruct idx].
    split; [reflexivity|]. split; [exact Hfam|reflexivity].
Defined.

(** ** Further checks of the helpers *)

(** A legacy [tag] string "a/b,c" is split into the tags a, b and c. *)
Example norm_tags_example :
  norm_tags (list_to_map [("tag", JStr "a/b,c")]) !! "tags"
  = Some (JArr [JStr "a"; JStr "b"; JStr "c"]).
Proof. reflexivity. Qed.

(** A row without quotes is cut at its commas and the cells are trimmed. *)
Example splitRow_example : splitRow "Bike, LAUREN ,red" = ["Bike"; "LAUREN"; "red"].
Proof. reflexivity. Qed.

(** [trim] removes the white space of JavaScript, of one byte or more
    in UTF-8, and nothing else. *)
Example trim_examples :
  trim (" " +:+ nbsp +:+ "default" +:+ wide_space +:+ String LF "") = "default"
  /\ trim nbsp = ""
  /\ trim ("a" +:+ nbsp +:+ "b") = "a" +:+ nbsp +:+ "b".
Proof. repeat split. Qed.

(** A family typed with a no-break space before it is the family without
    it. *)
Example new_family_example :
  new_family (list_to_map [("family", JStr (nbsp +:+ "default"))])
  = Some (JStr "default")
  /\ new_family (list_to_map [("family", JStr nbsp)]) = Some (JStr "default").
Proof. split; reflexivity. Qed.

(** Letter case: [toLowerCase] folds A to Z, and the codes LAUREN and
    lauren are the same up to case while LAUREN and LAURA are not. *)
Example letter_case_examples :
  toLowerCase "LaUreN-7" = "lauren-7"
  /\ same_letters "LAUREN" "lauren" = true
  /\ same_letters "LAUREN" "LAURA" = false
  /\ same_letters "A1" "a2" = false.
Proof. repeat split. Qed.

(** The forms of numbers the statements leave aside are not plain; the
    decimal integers and the texts without digits are. *)
Example plain_number_examples :
  plain_number (Some (JStr "1.0")) = false
  /\ plain_number (Some (JStr "1e0")) = false
  /\ plain_number (Some (JStr "0x1")) = false
  /\ plain_number (Some (JStr "Infinity")) = false
  /\ plain_number (Some (JStr "-Infinity")) = false
  /\ plain_number (Some (JStr "9007199254740993")) = false
  /\ plain_number (Some (JStr " 12 ")) = true
  /\ plain_number (Some (JStr "-7")) = true
  /\ plain_number (Some (JStr "")) = true
  /\ plain_number (Some (JStr "abc")) = true
  /\ plain_number (Some (JNum 5)) = true
  /\ plain_number None = true.
Proof. repeat split. Qed.

(** A column named [__proto__] gives the record no property. *)
Example proto_column_example :
  make_record ["__proto__"; "Name"] 0 ["x"; "Bike"] ∅
  = list_to_map [("name", JStr "Bike")].
Proof. vm_compute. reflexivity. Qed.

(** [Number] on the strings the handlers meet. *)
Example number_examples :
  number_of_string "" = Some 0 /\ number_of_string " 12 " = Some 12
  /\ number_of_string "-7" = Some (-7) /\ number_of_string "abc" = None.
Proof. repeat split. Qed.

(** A store already in the current format is left as it is by [loadData]. *)
Example normalize_store1 : normalize store1 = store1.
Proof. reflexivity. Qed.

(** * Concrete checks of the further properties *)

Lemma normalize_keeps_valid_witness :
  exists it',
    items (normalize legacy_store) !! 0%nat = Some it'
    /\ it' !! "itemName" = Some (JStr "Bike")
    /\ it' !! "tag" = Some (JStr "red,shiny").
Proof.
  destruct (normalize_keeps_valid legacy_store 0 legacy_bike eq_refl)
    as (_ & it' & Hl & _ & _ & _ & _ & _ & Hk).
  exists it'. split; [exact Hl|].
  split; rewrite Hk by done; reflexivity.
Defined.

Lemma backfill_ids_unique_witness : ids_unique (normalize store_with_bare).
Proof.
  apply (backfill_ids_unique store_with_bare).
  - split; [repeat constructor|vm_compute; discriminate].
  - constructor; [intros H; vm_compute in H; discriminate|].
    constructor; [intros _; reflexivity|constructor].
  - vm_compute. apply NoDup_singleton.
Defined.

Lemma claim_twice_witness :
  claim (claim_request "ANNA" 1) (Some store2) = (success, Some store2).
Proof.
  apply (claim_twice store1 store2 (claim_request "ANNA" 1) "ANNA"); reflexivity.
Defined.

Lemma claim_blocks_others_witness :
  claim (claim_request "BEN" 1) (Some store2)
  = (failure 200%nat "This item was already claimed.", Some store2).
Proof.
  apply (claim_blocks_others store1 store2 (claim_request "ANNA" 1)
           (claim_request "BEN" 1) "ANNA").
  - reflexivity.
  - discriminate.
  - intros H. vm_compute in H. discriminate.
  - split; reflexivity.
  - reflexivity.
Defined.

Lemma claim_unclaim_roundtrip_witness :
  exists st1,
    claim (claim_request "ANNA" 1) (Some store1) = (success, Some st1)
    /\ unclaim (claim_request "ANNA" 1) (Some st1) = (success, Some (normalize store1)).
Proof.
  apply (claim_unclaim_roundtrip store1 (claim_request "ANNA" 1) "ANNA" 1 0%nat bike).
  - reflexivity.
  - reflexivity.
  - first_item.
  - reflexivity.
Defined.

Lemma claim_without_viewer_witness :
  exists st1 item',
    claim (anonymous_claim 1) (Some store1) = (success, Some st1)
    /\ items st1 !! 0%nat = Some item'
    /\ item' !! "claimedByCode" = None
    /\ (loadData (Some st1)).1 = normalize store1.
Proof.
  apply (claim_without_viewer store1 (anonymous_claim 1) 1 0%nat bike).
  - reflexivity.
  - reflexivity.
  - first_item.
  - reflexivity.
Defined.

Lemma claim_then_lists_witness :
  exists n idx item',
    to_number (body (claim_request "ANNA" 1) !! "itemId") = Some n
    /\ items (loadData (Some store2)).1 !! idx = Some item'
    /\ has_id n (claim_family (claim_request "ANNA" 1)) item'
    /\ item' ∈ shopping_items (Some (JStr "ANNA"))
                              (claim_family (claim_request "ANNA" 1))
                              (loadData (Some store2)).1
    /\ wishlist_view (Some (JStr "ANNA")) item' !! "claimedByMe" = Some (JBool true)
    /\ (forall w, w <> Some (JStr "ANNA") ->
                  wishlist_view w item' !! "claimedByMe" = Some (JBool false))
    /\ ("ANNA" <> "" ->
        forall w, wishlist_view w item' !! "claimed" = Some (JBool true)).
Proof.
  apply (claim_then_lists store1 store2 (claim_request "ANNA" 1) "ANNA"); reflexivity.
Defined.

(** BEN's claim on the bike ANNA holds is turned down and writes nothing. *)
Lemma failures_leave_file_witness :
  (handle (Claim (claim_request "BEN" 1)) (Some store2)).2 = Some store2.
Proof.
  apply (failures_leave_file store2 (Claim (claim_request "BEN" 1))).
  - reflexivity.
  - vm_compute. discriminate.
  - left. vm_compute. reflexivity.
Defined.

Lemma update_item_keeps_identity_witness :
  exists item',
    (update_item rename_item (Some store1)).2
    = Some {| people := [lauren]; items := [item'] |}
    /\ item' !! "id" = Some (JNum 1).
Proof.
  destruct (update_item_keeps_identity store1 rename_item eq_refl)
    as (n & idx & item & item' & _ & _ & Hl & _ & _ & Hupd & Hid & _).
  exists item'. rewrite Hupd. cbn [snd].
  destruct idx as [|idx]; [|by destruct idx].
  injection Hl as <-. split; [reflexivity|]. rewrite Hid. reflexivity.
Defined.

Lemma line_endings_alike_witness :
  parseCsvText (lf_as CRLF csv_two_lines) = parseCsvText csv_two_lines
  /\ parseCsvText (lf_as (String CR EmptyString) csv_two_lines)
     = parseCsvText csv_two_lines.
Proof. apply (line_endings_alike csv_two_lines). reflexivity. Defined.

(** The row of [csv_short_row] has no second cell: the record holds the
    empty string under recipientcode. *)
Lemma records_have_header_keys_witness :
  exists row,
    csv_data_rows csv_short_row !! 0%nat = Some row
    /\ short_record !! column_key "recipientCode" 1
       = Some (JStr (default "" (splitRow row !! 1%nat))).
Proof.
  destruct (records_have_header_keys csv_short_row 0 short_record)
    as (row & Hrow & H & _).
  - vm_compute. repeat constructor.
  - vm_compute. reflexivity.
  - exists row. split; [exact Hrow|].
    apply (H 1%nat "recipientCode").
    + reflexivity.
    + vm_compute. discriminate.
    + intros c' h' Hlt Hc'.
      destruct c' as [|[|c']]; [lia|lia|]. vm_compute in Hc'. discriminate.
Defined.

Lemma header_only_csv_witness :
  parseCsvText "itemName,recipientCode" = []
  /\ upload_csv_text (csv_request "itemName,recipientCode") None
     = ({| status := 200%nat;
           payload := js_object [("success", JBool true); ("added", JNum 0);
                                 ("message", JStr "No rows to add.")] |},
        None).
Proof.
  apply (header_only_csv "itemName,recipientCode"
           (csv_request "itemName,recipientCode") None).
  - reflexivity.
  - reflexivity.
  - discriminate.
  - reflexivity.
Defined.

Lemma upload_appends_witness :
  exists added,
    (upload_csv_text (csv_request csv_new_ids) (Some store1)).2
    = Some (set_items (normalize store1) (items (normalize store1) ++ added))
    /\ length added = 2%nat.
Proof.
  destruct (upload_appends store1 (csv_request csv_new_ids) csv_new_ids)
    as (added & Hup & Hlen & _).
  - reflexivity.
  - vm_compute. discriminate.
  - split; [repeat constructor|vm_compute; discriminate].
  - by destruct (csv_new_ids_ok store1 csv_new_ids eq_refl eq_refl).
  - exists added. rewrite Hup. split; [reflexivity|]. rewrite Hlen. reflexivity.
Defined.

Lemma update_person_keeps_witness :
  exists person',
    (update_person move_lauren (Some store1)).2
    = Some {| people := [person']; items := [bike] |}
    /\ person' !! "code" = Some (JStr "LAUREN")
    /\ person' !! "family" = Some (JStr "smith")
    /\ person' !! "name" = Some (JStr "Lauren").
Proof.
  destruct (update_person_keeps store1 move_lauren)
    as (idx & person & person' & Hl & Hupd & Hcode & _ & Hfam & Hname & _);
    [reflexivity|vm_compute; reflexivity|].
  exists person'. rewrite Hupd. cbn [snd].
  destruct idx as [|idx]; [|by destruct idx].
  injection Hl as <-. split; [reflexivity|].
  split; [by rewrite Hcode|].
  destruct (Hfam eq_refl) as (s & Hs & ->).
  vm_compute in Hs. injection Hs as <-.
  split; [reflexivity|]. by rewrite Hname.
Defined.

Lemma create_then_recipients_witness :
  exists person after,
    (create_person create_ben (Some store1)).2 = Some after
    /\ person !! "code" = Some (JStr "BEN")
    /\ (get_recipients login_ben (Some after)).1
       = {| status := 200%nat;
            payload := js_object
                         [("currentUser", JObj person);
                          ("recipients",
                           JArr (JObj <$> recipients_of (Some (JStr "smith")) after))] |}.
Proof.
  destruct (create_then_recipients store1 create_ben login_ben)
    as (person & after & Hc & Hcode & Hr).
  - discriminate.
  - reflexivity.
  - reflexivity.
  - reflexivity.
  - reflexivity.
  - repeat constructor.
  - intros (p & Hin & Hp). apply list_elem_of_singleton in Hin. subst p.
    vm_compute in Hp. discriminate.
  - reflexivity.
  - reflexivity.
  - exists person, after. rewrite Hc, Hr. split; [reflexivity|].
    split; [exact Hcode|reflexivity].
Defined.

Lemma delete_empties_wishlist_witness :
  wishlist_items (Some (JStr "LAUREN")) (Some (JStr "smith"))
    (loadData (Some {| people := [lauren]; items := [bike] |})).1 = [].
Proof.
  apply (delete_empties_wishlist two_families _
           (person_request "LAUREN" "smith" ∅) (Some (JStr "smith")));
    reflexivity.
Defined.

Lemma earlier_revision_agrees_witness :
  (claim (claim_request "ANNA" 1) (Some store1)).1
  = (Earlier.claim (claim_request "ANNA" 1) (Some store1)).1.
Proof.
  destruct (earlier_revision_agrees store1 (claim_request "ANNA" 1)) as (H & _).
  - constructor; [reflexivity|constructor].
  - reflexivity.
  - exact H.
Defined.
